(** * SmartClause: contract analysis and conversation routes over the in-memory store

    A shallow embedding of [server/routes.ts], [server/storage.ts] and
    [shared/schema.ts].

    - JavaScript strings are [string]s, a text being its UTF-8 bytes.
      [Js.toLowerCase] folds the letters [A]..[Z]; it stands for
      [String.prototype.toLowerCase] only where the source tests the lowered
      text for keywords that no other letter lowers into (see [Js]).  Where
      the source compares lowered strings, or looks for a keyword with a [k],
      the native function is a parameter.
    - A JavaScript [Map] is an association list in insertion order: [set] on a
      present key replaces the value in place, [set] on a fresh key appends,
      and [values()] lists the entries in that order.
    - Identifiers are integers ([Z]); a request carries the types of the
      client's request builders ([services/api.ts]): numbers and strings, each
      possibly absent ([undefined]), and the messages of a conversation are
      an array of messages.  [parseInt] of an integer is that integer, as it
      is for the integers below [10^21] in absolute value, which print
      without an exponent.
    - [Math.random], [uuidv4] and [new Date()] are inputs of the operations
      that call them.
    - Storage operations are computations in a state monad over the store.
      The route handlers are written once against the [IStorage] interface.
      [storage.ts] implements it twice: [DatabaseStorage] hands every
      operation to the SQL database behind [./db], [MemStorage] keeps the
      records in maps; the properties are about the handlers run on
      [MemStorage], one request at a time.
    - No operation of [MemStorage] throws, and on requests and stored records
      of these types no handler does, so the [catch] branch of a handler
      (status 500) is left out.  It is reached outside these types: the
      message route spreads [conversation.messages], which throws when the
      stored value is not iterable.  A property of the message route that
      depends on it is stated for the requests answered 200. *)

From Stdlib Require Import ZArith List String Ascii Bool Lia Sorted.
Import ListNotations.

Local Open Scope Z_scope.
Local Open Scope string_scope.
Local Open Scope list_scope.

Set Implicit Arguments.

(** ** Strings *)

Module Js.

Definition lower_char (c : ascii) : ascii :=
  let n := nat_of_ascii c in
  if (andb (Nat.leb 65 n) (Nat.leb n 90)) then ascii_of_nat (n + 32) else c.

(** [String.prototype.toLowerCase] on the letters [A]..[Z].  The native
    function lowers other letters too, and two of them into ASCII: the
    Kelvin sign into [k], and the dotted capital I into [i] followed by a
    combining dot.  A test [s.toLowerCase().includes(keyword)] therefore has
    the same result with this function as with the native one when the
    keyword is in lower-case ASCII, holds no [k] and does not end in [i]:
    such are the keywords of [analyzeContract] and [answerContractQuestion],
    and the comparisons with [low], [medium] and [high]. *)
Fixpoint toLowerCase (s : string) : string :=
  match s with
  | EmptyString => EmptyString
  | String c s' => String (lower_char c) (toLowerCase s')
  end.

(** The strings of ASCII characters; on them the native [toLowerCase] is
    [toLowerCase]. *)
Fixpoint is_ascii (s : string) : bool :=
  match s with
  | EmptyString => true
  | String c s' => Nat.ltb (nat_of_ascii c) 128 && is_ascii s'
  end.

(** [String.prototype.includes]: [sub] occurs in [s] at some position. *)
Fixpoint includes (s sub : string) : bool :=
  if String.prefix sub s then true
  else match s with
       | EmptyString => false
       | String _ s' => includes s' sub
       end.

(** The white space that [String.prototype.trim] strips, within ASCII. *)
Definition is_space (c : ascii) : bool :=
  let n := nat_of_ascii c in
  orb (Nat.eqb n 32) (andb (Nat.leb 9 n) (Nat.leb n 13)).

(** [s.trim() === ''] *)
Fixpoint blank (s : string) : bool :=
  match s with
  | EmptyString => true
  | String c s' => andb (is_space c) (blank s')
  end.

(** [!s] on a string: only [''] is falsy. *)
Definition not_str (s : string) : bool :=
  match s with EmptyString => true | String _ _ => false end.

(** [!n] on an integer: only [0] is falsy. *)
Definition not_num (n : Z) : bool := Z.eqb n 0.

(** [o || d] on an optional string. *)
Definition or_str (o : option string) (d : string) : string :=
  match o with
  | Some (String c s) => String c s
  | _ => d
  end.

(** [Array.prototype.includes] on numbers. *)
Definition arr_includes (l : list Z) (x : Z) : bool := existsb (Z.eqb x) l.

(** [s.replace(/pat/g, rep)] for a literal, non-empty pattern and a
    replacement without [$]: matches are taken leftmost and do not overlap.
    [skip] counts the characters of a match still to be dropped. *)
Fixpoint replace_from (pat rep : string) (skip : nat) (s : string) : string :=
  match s with
  | EmptyString => EmptyString
  | String c s' =>
      match skip with
      | S k => replace_from pat rep k s'
      | O =>
          if String.prefix pat s
          then (rep ++ replace_from pat rep (String.length pat - 1) s')%string
          else String c (replace_from pat rep 0 s')
      end
  end.

Definition replaceAll (pat rep s : string) : string := replace_from pat rep 0 s.

(** [s.split(sep)] for a one-character separator: never the empty array. *)
Fixpoint split (sep : ascii) (s : string) : list string :=
  match s with
  | EmptyString => [EmptyString]
  | String c s' =>
      if Ascii.eqb c sep then EmptyString :: split sep s'
      else match split sep s' with
           | h :: t => String c h :: t
           | [] => [String c EmptyString]
           end
  end.

(** [parts.join(sep)] *)
Fixpoint join (sep : string) (parts : list string) : string :=
  match parts with
  | [] => EmptyString
  | [p] => p
  | p :: rest => (p ++ sep ++ join sep rest)%string
  end.

(** [array.pop()] read as its result: the last element, [undefined] when
    there is none. *)
Definition pop (parts : list string) : option string :=
  match rev parts with
  | [] => None
  | p :: _ => Some p
  end.

(** [s.substring(0, n)]: a negative [n] counts as [0], one beyond the length
    as the length. *)
Definition substring0 (n : Z) (s : string) : string :=
  String.substring 0 (Z.to_nat n) s.

End Js.

(** ** [Map] *)

Module JsMap.
Section Map.
Variable V : Type.

Definition t := list (Z * V).

Definition empty : t := [].

Fixpoint get (k : Z) (m : t) : option V :=
    match m with
    | [] => None
    | (k', v) :: m' => if Z.eqb k k' then Some v else get k m'
    end.

Fixpoint set (k : Z) (v : V) (m : t) : t :=
    match m with
    | [] => [(k, v)]
    | (k', v') :: m' => if Z.eqb k k' then (k, v) :: m' else (k', v') :: set k v m'
    end.

(** [Map.prototype.delete]: the answer tells whether the key was present. *)
Fixpoint delete (k : Z) (m : t) : bool * t :=
    match m with
    | [] => (false, [])
    | (k', v') :: m' =>
        if Z.eqb k k' then (true, m')
        else let (b, r) := delete k m' in (b, (k', v') :: r)
    end.

Definition values (m : t) : list V := map snd m.

Definition keys (m : t) : list Z := map fst m.
End Map.
End JsMap.

(** ** Schema *)

Definition Timestamp := string.

(** [RiskLevel] and its serialization. *)
Module RiskLevel.
Inductive t : Type := LOW | MEDIUM | HIGH.

Definition to_string (r : t) : string :=
  match r with LOW => "low" | MEDIUM => "medium" | HIGH => "high" end.

Definition eqb (a b : t) : bool :=
  match a, b with
  | LOW, LOW | MEDIUM, MEDIUM | HIGH, HIGH => true
  | _, _ => false
  end.

(** The order LOW < MEDIUM < HIGH. *)
Definition rank (r : t) : nat :=
  match r with LOW => 0 | MEDIUM => 1 | HIGH => 2 end.

Definition max (a b : t) : t := if Nat.leb (rank a) (rank b) then b else a.

(** The greatest level of a list, [LOW] for the empty list. *)
Definition maximum (l : list t) : t := fold_right max LOW l.
End RiskLevel.

Definition RiskLevelType := RiskLevel.t.

Module User.
(** [riskScore] is not a column of [users]: it is the own property that a
    merge of [{ riskScore }] leaves on the object. *)
Record t := mk {
    id : Z;
    email : string;
    password : string;
    firstName : option string;
    lastName : option string;
    company : option string;
    planType : option string;
    apiKey : option string;
    createdAt : Timestamp;
    riskScore : option RiskLevelType
  }.
End User.

(** [Partial<User>] as the routes build it. *)
Module UserData.
Record t := mk {
    id : option Z;
    email : option string;
    password : option string;
    firstName : option (option string);
    lastName : option (option string);
    company : option (option string);
    planType : option (option string);
    apiKey : option (option string);
    createdAt : option Timestamp;
    riskScore : option RiskLevelType
  }.

Definition only_riskScore (r : RiskLevelType) : t :=
    mk None None None None None None None None None (Some r).
End UserData.

Module Contract.
Record t := mk {
    id : Z;
    userId : Z;
    name : string;
    fileType : string;
    originalText : string;
    contractType : option string;
    riskScore : string;
    uploadedAt : Timestamp
  }.
End Contract.

Module InsertContract.
Record t := mk {
    userId : Z;
    name : string;
    fileType : string;
    originalText : string;
    contractType : option string;
    riskScore : string
  }.
End InsertContract.

Module FullAnalysis.
Record t := mk {
    riskLevel : RiskLevelType;
    riskReason : string;
    suggestions : string
  }.
End FullAnalysis.

Module Analysis.
Record t := mk {
    id : Z;
    contractId : Z;
    summary : list string;
    riskyClauseIndices : list Z;
    fullAnalysis : FullAnalysis.t
  }.
End Analysis.

Module InsertAnalysis.
Record t := mk {
    contractId : Z;
    summary : list string;
    riskyClauseIndices : list Z;
    fullAnalysis : FullAnalysis.t
  }.
End InsertAnalysis.

Module RiskyClause.
Record t := mk {
    id : Z;
    analysisId : Z;
    clauseIndex : Z;
    clauseText : string;
    riskLevel : RiskLevelType;
    explanation : string;
    suggestion : option string
  }.
End RiskyClause.

Module InsertRiskyClause.
Record t := mk {
    analysisId : Z;
    clauseIndex : Z;
    clauseText : string;
    riskLevel : RiskLevelType;
    explanation : string;
    suggestion : option string
  }.
End InsertRiskyClause.

Module SavedClause.
Record t := mk {
    id : Z;
    userId : Z;
    clauseType : string;
    tone : string;
    content : string;
    createdAt : Timestamp
  }.
End SavedClause.

Module Role.
Inductive t : Type := user | assistant.
End Role.

Module Message.
Record t := mk {
    id : string;
    role : Role.t;
    content : string;
    timestamp : Timestamp
  }.
End Message.

(** [messages] is a [jsonb] column: the schema lets any JSON value in.  The
    model holds the values that are arrays of messages, as the client and
    the demo data store them. *)
Module Conversation.
Record t := mk {
    id : Z;
    userId : Z;
    contractId : Z;
    messages : list Message.t;
    createdAt : Timestamp;
    updatedAt : Timestamp
  }.
End Conversation.

Module InsertConversation.
Record t := mk {
    userId : Z;
    contractId : Z;
    messages : list Message.t
  }.
End InsertConversation.

Module InsertUser.
Record t := mk {
  email : string;
  password : string;
  firstName : option string;
  lastName : option string;
  company : option string;
  planType : option string
}.
End InsertUser.

Module InsertSavedClause.
Record t := mk {
  userId : Z;
  clauseType : string;
  tone : string;
  content : string
}.
End InsertSavedClause.

(** ** Storage computations *)

(** A storage operation reads and updates the store and returns a value. *)
Definition M (S A : Type) : Type := S -> A * S.

Definition ret {S A : Type} (a : A) : M S A := fun s => (a, s).

Definition bind {S A B : Type} (m : M S A) (k : A -> M S B) : M S B :=
  fun s => let (a, s') := m s in k a s'.

Declare Scope storage_scope.
Delimit Scope storage_scope with storage.
Notation "x <- c ;; k" := (bind c (fun x => k))
  (at level 61, c at next level, right associativity) : storage_scope.
Notation "c ;;; k" := (bind c (fun _ => k))
  (at level 61, right associativity) : storage_scope.
Local Open Scope storage_scope.

(** [for (const x of l) { await f(x) }] *)
Fixpoint forEach {S A : Type} (l : list A) (f : A -> M S unit) : M S unit :=
  match l with
  | [] => ret tt
  | x :: l' => f x ;;; forEach l' f
  end.

(** The operations of [IStorage] that the contract, analysis and conversation
    routes call.  The operations that read the clock take the time as an
    argument. *)
Class IStorage (S : Type) : Type := {
  getUser : Z -> M S (option User.t);
  updateUser : Z -> UserData.t -> M S (option User.t);
  getContract : Z -> M S (option Contract.t);
  getContractsByUserId : Z -> M S (list Contract.t);
  createContract : InsertContract.t -> Timestamp -> M S Contract.t;
  deleteContract : Z -> M S bool;
  getAnalysis : Z -> M S (option Analysis.t);
  getAnalysisByContractId : Z -> M S (option Analysis.t);
  createAnalysis : InsertAnalysis.t -> M S Analysis.t;
  getRiskyClausesByAnalysisId : Z -> M S (list RiskyClause.t);
  createRiskyClause : InsertRiskyClause.t -> M S RiskyClause.t;
  getConversationsByContractId : Z -> M S (list Conversation.t);
  getConversation : Z -> M S (option Conversation.t);
  createConversation : InsertConversation.t -> Timestamp -> M S Conversation.t;
  updateConversation : Z -> list Message.t -> Timestamp -> M S (option Conversation.t)
}.

(** ** [MemStorage] *)

Module MemStorage.

Record t := mk {
  users : JsMap.t User.t;
  contracts : JsMap.t Contract.t;
  analyses : JsMap.t Analysis.t;
  riskyClauses : JsMap.t RiskyClause.t;
  savedClauses : JsMap.t SavedClause.t;
  conversations : JsMap.t Conversation.t;
  nextUserId : Z;
  nextContractId : Z;
  nextAnalysisId : Z;
  nextRiskyClauseId : Z;
  nextSavedClauseId : Z;
  nextConversationId : Z
}.

Definition with_users (m : JsMap.t User.t) (s : t) : t :=
  mk m (contracts s) (analyses s) (riskyClauses s) (savedClauses s)
     (conversations s) (nextUserId s) (nextContractId s) (nextAnalysisId s)
     (nextRiskyClauseId s) (nextSavedClauseId s) (nextConversationId s).

Definition with_contracts (m : JsMap.t Contract.t) (n : Z) (s : t) : t :=
  mk (users s) m (analyses s) (riskyClauses s) (savedClauses s)
     (conversations s) (nextUserId s) n (nextAnalysisId s)
     (nextRiskyClauseId s) (nextSavedClauseId s) (nextConversationId s).

Definition with_analyses (m : JsMap.t Analysis.t) (n : Z) (s : t) : t :=
  mk (users s) (contracts s) m (riskyClauses s) (savedClauses s)
     (conversations s) (nextUserId s) (nextContractId s) n
     (nextRiskyClauseId s) (nextSavedClauseId s) (nextConversationId s).

Definition with_riskyClauses (m : JsMap.t RiskyClause.t) (n : Z) (s : t) : t :=
  mk (users s) (contracts s) (analyses s) m (savedClauses s)
     (conversations s) (nextUserId s) (nextContractId s) (nextAnalysisId s)
     n (nextSavedClauseId s) (nextConversationId s).

Definition with_savedClauses (m : JsMap.t SavedClause.t) (n : Z) (s : t) : t :=
  mk (users s) (contracts s) (analyses s) (riskyClauses s) m
     (conversations s) (nextUserId s) (nextContractId s) (nextAnalysisId s)
     (nextRiskyClauseId s) n (nextConversationId s).

Definition with_conversations (m : JsMap.t Conversation.t) (n : Z) (s : t) : t :=
  mk (users s) (contracts s) (analyses s) (riskyClauses s) (savedClauses s)
     m (nextUserId s) (nextContractId s) (nextAnalysisId s)
     (nextRiskyClauseId s) (nextSavedClauseId s) n.

(** [{ ...user, ...userData }] *)
Definition spread {A : Type} (old : A) (new : option A) : A :=
  match new with Some v => v | None => old end.

Definition merge (u : User.t) (d : UserData.t) : User.t :=
  User.mk (spread (User.id u) (UserData.id d))
          (spread (User.email u) (UserData.email d))
          (spread (User.password u) (UserData.password d))
          (spread (User.firstName u) (UserData.firstName d))
          (spread (User.lastName u) (UserData.lastName d))
          (spread (User.company u) (UserData.company d))
          (spread (User.planType u) (UserData.planType d))
          (spread (User.apiKey u) (UserData.apiKey d))
          (spread (User.createdAt u) (UserData.createdAt d))
          (match UserData.riskScore d with
           | Some r => Some r
           | None => User.riskScore u
           end).

Definition getUser (id : Z) : M t (option User.t) :=
  fun s => (JsMap.get id (users s), s).

Definition updateUser (id : Z) (userData : UserData.t) : M t (option User.t) :=
  user <- getUser id ;;
  match user with
  | None => ret None
  | Some user =>
      let updatedUser := merge user userData in
      fun s => (Some updatedUser, with_users (JsMap.set id updatedUser (users s)) s)
  end.

Definition getContract (id : Z) : M t (option Contract.t) :=
  fun s => (JsMap.get id (contracts s), s).

Definition getContractsByUserId (userId : Z) : M t (list Contract.t) :=
  fun s => (filter (fun contract => Z.eqb (Contract.userId contract) userId)
                   (JsMap.values (contracts s)), s).

Definition createContract (insertContract : InsertContract.t) (now : Timestamp)
  : M t Contract.t :=
  fun s =>
    let id := nextContractId s in
    let contract :=
      Contract.mk id (InsertContract.userId insertContract)
        (InsertContract.name insertContract)
        (InsertContract.fileType insertContract)
        (InsertContract.originalText insertContract)
        (InsertContract.contractType insertContract)
        (InsertContract.riskScore insertContract) now in
    (contract, with_contracts (JsMap.set id contract (contracts s)) (id + 1) s).

Definition deleteContract (id : Z) : M t bool :=
  fun s =>
    let (b, m) := JsMap.delete id (contracts s) in
    (b, with_contracts m (nextContractId s) s).

Definition getAnalysis (id : Z) : M t (option Analysis.t) :=
  fun s => (JsMap.get id (analyses s), s).

Definition getAnalysisByContractId (contractId : Z) : M t (option Analysis.t) :=
  fun s => (find (fun analysis => Z.eqb (Analysis.contractId analysis) contractId)
                 (JsMap.values (analyses s)), s).

Definition createAnalysis (insertAnalysis : InsertAnalysis.t) : M t Analysis.t :=
  fun s =>
    let id := nextAnalysisId s in
    let analysis :=
      Analysis.mk id (InsertAnalysis.contractId insertAnalysis)
        (InsertAnalysis.summary insertAnalysis)
        (InsertAnalysis.riskyClauseIndices insertAnalysis)
        (InsertAnalysis.fullAnalysis insertAnalysis) in
    (analysis, with_analyses (JsMap.set id analysis (analyses s)) (id + 1) s).

Definition getRiskyClausesByAnalysisId (analysisId : Z) : M t (list RiskyClause.t) :=
  fun s => (filter (fun clause => Z.eqb (RiskyClause.analysisId clause) analysisId)
                   (JsMap.values (riskyClauses s)), s).

Definition createRiskyClause (insertClause : InsertRiskyClause.t)
  : M t RiskyClause.t :=
  fun s =>
    let id := nextRiskyClauseId s in
    let clause :=
      RiskyClause.mk id (InsertRiskyClause.analysisId insertClause)
        (InsertRiskyClause.clauseIndex insertClause)
        (InsertRiskyClause.clauseText insertClause)
        (InsertRiskyClause.riskLevel insertClause)
        (InsertRiskyClause.explanation insertClause)
        (InsertRiskyClause.suggestion insertClause) in
    (clause, with_riskyClauses (JsMap.set id clause (riskyClauses s)) (id + 1) s).

Definition getConversationsByContractId (contractId : Z)
  : M t (list Conversation.t) :=
  fun s => (filter (fun conversation =>
                      Z.eqb (Conversation.contractId conversation) contractId)
                   (JsMap.values (conversations s)), s).

Definition getConversation (id : Z) : M t (option Conversation.t) :=
  fun s => (JsMap.get id (conversations s), s).

Definition createConversation (insertConversation : InsertConversation.t)
  (timestamp : Timestamp) : M t Conversation.t :=
  fun s =>
    let id := nextConversationId s in
    let conversation :=
      Conversation.mk id (InsertConversation.userId insertConversation)
        (InsertConversation.contractId insertConversation)
        (InsertConversation.messages insertConversation)
        timestamp timestamp in
    (conversation,
     with_conversations (JsMap.set id conversation (conversations s)) (id + 1) s).

Definition updateConversation (id : Z) (messages : list Message.t)
  (timestamp : Timestamp) : M t (option Conversation.t) :=
  conversation <- getConversation id ;;
  match conversation with
  | None => ret None
  | Some conversation =>
      let updatedConversation :=
        Conversation.mk (Conversation.id conversation)
          (Conversation.userId conversation)
          (Conversation.contractId conversation)
          messages
          (Conversation.createdAt conversation)
          timestamp in
      fun s => (Some updatedConversation,
                with_conversations
                  (JsMap.set id updatedConversation (conversations s))
                  (nextConversationId s) s)
  end.

(** *** Users by email, user creation, saved clauses *)

(** [toLowerCase] is the native [String.prototype.toLowerCase]. *)
Definition getUserByEmail (toLowerCase : string -> string) (email : string)
  : M t (option User.t) :=
  fun s => (find (fun user =>
                    String.eqb (toLowerCase (User.email user))
                               (toLowerCase email))
                 (JsMap.values (users s)), s).

(** [uuid] is what [uuidv4()] returns, [now] is [new Date()]. *)
Definition createUser (insertUser : InsertUser.t) (now : Timestamp)
  (uuid : string) : M t User.t :=
  fun s =>
    let id := nextUserId s in
    let user :=
      User.mk id (InsertUser.email insertUser) (InsertUser.password insertUser)
        (InsertUser.firstName insertUser) (InsertUser.lastName insertUser)
        (InsertUser.company insertUser) (InsertUser.planType insertUser)
        (Some ("sc_" ++ Js.replaceAll "-" "" uuid)%string) now None in
    (user,
     mk (JsMap.set id user (users s)) (contracts s) (analyses s)
        (riskyClauses s) (savedClauses s) (conversations s)
        (id + 1) (nextContractId s) (nextAnalysisId s)
        (nextRiskyClauseId s) (nextSavedClauseId s) (nextConversationId s)).

Definition getSavedClausesByUserId (userId : Z) : M t (list SavedClause.t) :=
  fun s => (filter (fun clause => Z.eqb (SavedClause.userId clause) userId)
                   (JsMap.values (savedClauses s)), s).

Definition getSavedClause (id : Z) : M t (option SavedClause.t) :=
  fun s => (JsMap.get id (savedClauses s), s).

Definition createSavedClause (insertClause : InsertSavedClause.t)
  (timestamp : Timestamp) : M t SavedClause.t :=
  fun s =>
    let id := nextSavedClauseId s in
    let clause :=
      SavedClause.mk id (InsertSavedClause.userId insertClause)
        (InsertSavedClause.clauseType insertClause)
        (InsertSavedClause.tone insertClause)
        (InsertSavedClause.content insertClause) timestamp in
    (clause, with_savedClauses (JsMap.set id clause (savedClauses s)) (id + 1) s).

Definition deleteSavedClause (id : Z) : M t bool :=
  fun s =>
    let (b, m) := JsMap.delete id (savedClauses s) in
    (b, with_savedClauses m (nextSavedClauseId s) s).

(** *** The constructor and its demo data *)

Definition empty : t :=
  mk (JsMap.empty _) (JsMap.empty _) (JsMap.empty _) (JsMap.empty _)
     (JsMap.empty _) (JsMap.empty _) 1 1 1 1 1 1.

Record ContractInfo := {
  info_name : string;
  info_fileType : string;
  info_contractType : string;
  info_riskScore : RiskLevelType;
  info_uploadedAt : Timestamp
}.

Definition contractData : list ContractInfo :=
  [ Build_ContractInfo "Client Services Agreement" "pdf" "Service Contract"
      RiskLevel.HIGH "2023-08-15T12:00:00Z";
    Build_ContractInfo "Employment Agreement" "docx" "Employment"
      RiskLevel.LOW "2023-08-10T10:30:00Z";
    Build_ContractInfo "Non-Disclosure Agreement" "pdf" "NDA"
      RiskLevel.MEDIUM "2023-08-05T15:45:00Z";
    Build_ContractInfo "Software License Agreement" "docx" "License"
      RiskLevel.MEDIUM "2023-07-29T09:15:00Z" ].

Definition demo_summary : list string :=
  [ "Contract duration is 12 months with automatic renewal unless terminated with 30 days notice";
    "Payment terms require invoice payment within 30 days";
    "Broadly worded indemnification clause places significant burden on your company";
    "Non-compete clause is excessively broad and may not be enforceable in all jurisdictions";
    "Confidentiality provisions expire 3 years after termination";
    "Intellectual property ownership assigns all work product to client without limitation" ].

Definition riskReason_text : string :=
  "This contract has some concerning clauses that place undue burden on one party".

Definition suggestions_text : string :=
  "Consider negotiating the indemnification and non-compete clauses".

Definition noncompete_clauseText : string :=
  "Contractor agrees not to engage in any business activity competitive with Client's business for a period of five (5) years in any geographic location where Client conducts business.".

Definition noncompete_explanation : string :=
  "This non-compete clause is overly broad in both duration and geographic scope, making it potentially unenforceable in many jurisdictions.".

Definition noncompete_suggestion : string :=
  "Contractor agrees not to engage in substantially similar business activity competitive with Client's core business for a period of one (1) year limited to regions where Contractor directly provided services to Client.".

Definition indemnify_clauseText : string :=
  "Contractor shall indemnify, defend, and hold harmless Client from any and all claims, damages, liabilities, costs, and expenses, including reasonable attorneys' fees arising from or relating to Contractor's services.".

Definition indemnify_explanation : string :=
  "This indemnification clause is broad and doesn't limit the contractor's liability to third-party claims or direct damages.".

Definition indemnify_suggestion : string :=
  "Contractor shall indemnify, defend, and hold harmless Client from any third-party claims, damages, liabilities, costs, and expenses, including reasonable attorneys' fees arising directly from Contractor's gross negligence or willful misconduct in performing the services.".

Definition demo_messages (uuidv4 : nat -> string) : list Message.t :=
  [ Message.mk (uuidv4 0%nat) Role.user
      "Can this contract be terminated early?" "2023-08-20T10:15:00Z";
    Message.mk (uuidv4 1%nat) Role.assistant
      "Yes, this contract can be terminated early in several ways. According to Section 8.1, either party may terminate with 30 days written notice. Additionally, Section 8.2 allows for immediate termination if there's a material breach that remains uncured for 15 business days after written notification."
      "2023-08-20T10:15:10Z";
    Message.mk (uuidv4 2%nat) Role.user
      "What happens to confidential information after termination?"
      "2023-08-20T10:16:00Z";
    Message.mk (uuidv4 3%nat) Role.assistant
      "According to Section 11.3 of the contract, the confidentiality obligations survive for 3 years after termination. During this period, both parties must continue to protect confidential information as defined in the agreement. Upon request, each party must either return or destroy all confidential information in their possession."
      "2023-08-20T10:16:10Z" ].

(** The body of [contractData.forEach]. *)
Definition addDemoContract (uuidv4 : nat -> string) (user : User.t)
  (s : t) (contractInfo : ContractInfo) : t :=
  let contract :=
    Contract.mk (nextContractId s) (User.id user) (info_name contractInfo)
      (info_fileType contractInfo)
      ("Sample contract text for " ++ info_name contractInfo)%string
      (Some (info_contractType contractInfo))
      (RiskLevel.to_string (info_riskScore contractInfo))
      (info_uploadedAt contractInfo) in
  let s := with_contracts (JsMap.set (Contract.id contract) contract (contracts s))
             (nextContractId s + 1) s in
  let analysis :=
    Analysis.mk (nextAnalysisId s) (Contract.id contract) demo_summary [1; 3]
      (FullAnalysis.mk (info_riskScore contractInfo) riskReason_text
         suggestions_text) in
  let s := with_analyses (JsMap.set (Analysis.id analysis) analysis (analyses s))
             (nextAnalysisId s + 1) s in
  let s :=
    if RiskLevel.eqb (info_riskScore contractInfo) RiskLevel.HIGH
       || RiskLevel.eqb (info_riskScore contractInfo) RiskLevel.MEDIUM
    then
        let riskyClause1 :=
          RiskyClause.mk (nextRiskyClauseId s) (Analysis.id analysis) 1
            noncompete_clauseText RiskLevel.HIGH noncompete_explanation
            (Some noncompete_suggestion) in
        let s := with_riskyClauses
                   (JsMap.set (RiskyClause.id riskyClause1) riskyClause1
                      (riskyClauses s))
                   (nextRiskyClauseId s + 1) s in
        let riskyClause2 :=
          RiskyClause.mk (nextRiskyClauseId s) (Analysis.id analysis) 3
            indemnify_clauseText RiskLevel.MEDIUM indemnify_explanation
            (Some indemnify_suggestion) in
        with_riskyClauses
          (JsMap.set (RiskyClause.id riskyClause2) riskyClause2 (riskyClauses s))
          (nextRiskyClauseId s + 1) s
    else s in
  if Z.eqb (Contract.id contract) 1 then
    let conversation :=
      Conversation.mk (nextConversationId s) (User.id user)
        (Contract.id contract) (demo_messages uuidv4)
        "2023-08-20T10:15:00Z" "2023-08-20T10:16:10Z" in
    with_conversations
      (JsMap.set (Conversation.id conversation) conversation (conversations s))
      (nextConversationId s + 1) s
  else s.

Definition addDemoData (now : Timestamp) (uuidv4 : nat -> string) (s : t) : t :=
  let user :=
    User.mk (nextUserId s) "demo@example.com" "$2a$10$demohashedsecretpassword"
      (Some "John") (Some "Doe") (Some "Acme Inc.") (Some "pro")
      (Some "sc_demoapikeyrandomstring123456") now None in
  let s := mk (JsMap.set (User.id user) user (users s)) (contracts s)
             (analyses s) (riskyClauses s) (savedClauses s) (conversations s)
             (nextUserId s + 1) (nextContractId s) (nextAnalysisId s)
             (nextRiskyClauseId s) (nextSavedClauseId s)
             (nextConversationId s) in
  let s := fold_left (addDemoContract uuidv4 user) contractData s in
  let savedClause1 :=
    SavedClause.mk (nextSavedClauseId s) (User.id user)
      "Limitation of Liability" "formal"
      "Neither party shall be liable for any indirect, incidental, special, consequential or punitive damages, including without limitation, loss of profits, data, use, goodwill, or other intangible losses, resulting from (i) your access to or use of or inability to access or use the Services; (ii) any conduct or content of any third party on the Services; (iii) any content obtained from the Services; and (iv) unauthorized access, use or alteration of your transmissions or content, whether based on warranty, contract, tort (including negligence) or any other legal theory, whether or not we have been informed of the possibility of such damage."
      "2023-08-10T14:25:00Z" in
  let s := with_savedClauses
             (JsMap.set (SavedClause.id savedClause1) savedClause1
                (savedClauses s))
             (nextSavedClauseId s + 1) s in
  let savedClause2 :=
    SavedClause.mk (nextSavedClauseId s) (User.id user)
      "Payment Terms" "neutral"
      "Client shall pay all invoices within thirty (30) days of receipt. Late payments shall accrue interest at a rate of 1.5% per month or the highest rate allowed by applicable law, whichever is lower, from the date such payment was due until the date paid. Contractor shall be entitled to recover all reasonable costs and expenses (including, without limitation, reasonable attorneys' fees) incurred in collecting late payments."
      "2023-08-05T09:30:00Z" in
  with_savedClauses
    (JsMap.set (SavedClause.id savedClause2) savedClause2 (savedClauses s))
    (nextSavedClauseId s + 1) s.

(** [new MemStorage()] *)
Definition constructor (now : Timestamp) (uuidv4 : nat -> string) : t :=
  addDemoData now uuidv4 empty.

End MemStorage.

#[export] Instance MemStorage_IStorage : IStorage MemStorage.t := {
  getUser := MemStorage.getUser;
  updateUser := MemStorage.updateUser;
  getContract := MemStorage.getContract;
  getContractsByUserId := MemStorage.getContractsByUserId;
  createContract := MemStorage.createContract;
  deleteContract := MemStorage.deleteContract;
  getAnalysis := MemStorage.getAnalysis;
  getAnalysisByContractId := MemStorage.getAnalysisByContractId;
  createAnalysis := MemStorage.createAnalysis;
  getRiskyClausesByAnalysisId := MemStorage.getRiskyClausesByAnalysisId;
  createRiskyClause := MemStorage.createRiskyClause;
  getConversationsByContractId := MemStorage.getConversationsByContractId;
  getConversation := MemStorage.getConversation;
  createConversation := MemStorage.createConversation;
  updateConversation := MemStorage.updateConversation
}.

(** ** The stores that a request passes through

    [Logged S] runs a storage [S] and records the store after every call of
    a writing operation, also when the call changed nothing; reading
    operations record nothing.  A handler that ends with a log of one store
    wrote once.  With a storage that performs I/O the logged stores are
    those that another request can read at the [await]s; the promises of
    [MemStorage] resolve without I/O, so there no other request runs in
    between. *)

Definition Logged (S : Type) : Type := (S * list S)%type.

Definition observe {S A : Type} (m : M S A) : M (Logged S) A :=
  fun sl => let (a, s') := m (fst sl) in (a, (s', snd sl)).

Definition commit {S A : Type} (m : M S A) : M (Logged S) A :=
  fun sl => let (a, s') := m (fst sl) in (a, (s', snd sl ++ [s'])).

#[export] Instance Logged_IStorage (S : Type) `{IStorage S} : IStorage (Logged S) := {
  getUser id := observe (getUser id);
  updateUser id userData := commit (updateUser id userData);
  getContract id := observe (getContract id);
  getContractsByUserId userId := observe (getContractsByUserId userId);
  createContract c now := commit (createContract c now);
  deleteContract id := commit (deleteContract id);
  getAnalysis id := observe (getAnalysis id);
  getAnalysisByContractId id := observe (getAnalysisByContractId id);
  createAnalysis a := commit (createAnalysis a);
  getRiskyClausesByAnalysisId id := observe (getRiskyClausesByAnalysisId id);
  createRiskyClause c := commit (createRiskyClause c);
  getConversationsByContractId id := observe (getConversationsByContractId id);
  getConversation id := observe (getConversation id);
  createConversation c now := commit (createConversation c now);
  updateConversation id messages now := commit (updateConversation id messages now)
}.

(** ** Routes *)

Module AnalysisResult.
Record t := mk {
  summary : list string;
  riskyClauseIndices : list Z;
  fullAnalysis : FullAnalysis.t;
  riskScore : RiskLevelType
}.
End AnalysisResult.

(** The keyword tests of the mock analysis. *)
Definition hasHighRisk (text : string) : bool :=
  Js.includes (Js.toLowerCase text) "termination"
  || Js.includes (Js.toLowerCase text) "compete".

Definition hasMediumRisk (text : string) : bool :=
  Js.includes (Js.toLowerCase text) "payment"
  || Js.includes (Js.toLowerCase text) "liability".

(** The mock analysis. *)
Definition analyzeContract (text : string) (contractType : string)
  : AnalysisResult.t :=
  let hasHighRisk := hasHighRisk text in
  let hasMediumRisk := hasMediumRisk text in
  let riskScore :=
    if hasHighRisk then RiskLevel.HIGH
    else if hasMediumRisk then RiskLevel.MEDIUM
    else RiskLevel.LOW in
  let summary :=
    [ "Contract duration is 12 months with automatic renewal unless terminated with 30 days notice";
      "Payment terms require invoice payment within 30 days";
      "Broadly worded indemnification clause places significant burden on your company";
      "Non-compete clause is excessively broad and may not be enforceable in all jurisdictions";
      "Confidentiality provisions expire 3 years after termination";
      "Intellectual property ownership assigns all work product to client without limitation" ] in
  let riskyClauseIndices :=
    if hasHighRisk then [0; 3] else if hasMediumRisk then [1] else [] in
  let fullAnalysis :=
    FullAnalysis.mk riskScore
      "This contract has some concerning clauses that place undue burden on one party"
      "Consider negotiating the indemnification and non-compete clauses" in
  AnalysisResult.mk summary riskyClauseIndices fullAnalysis riskScore.

(** The mock answer; the contract is not consulted. *)
Definition answerContractQuestion (contractId : Z) (question : string) : string :=
  if Js.includes (Js.toLowerCase question) "terminate"
     || Js.includes (Js.toLowerCase question) "termination" then
    "Yes, this contract can be terminated early in several ways. According to Section 8.1, either party may terminate with 30 days written notice. Additionally, Section 8.2 allows for immediate termination if there's a material breach that remains uncured for 15 business days after written notification."
  else if Js.includes (Js.toLowerCase question) "confidential"
          || Js.includes (Js.toLowerCase question) "confidentiality" then
    "According to Section 11.3 of the contract, the confidentiality obligations survive for 3 years after termination. During this period, both parties must continue to protect confidential information as defined in the agreement. Upon request, each party must either return or destroy all confidential information in their possession."
  else if Js.includes (Js.toLowerCase question) "payment"
          || Js.includes (Js.toLowerCase question) "invoice" then
    "The payment terms are outlined in Section 5. Client must pay all invoices within 30 days of receipt. Late payments accrue interest at a rate of 1.5% per month. Any disputed charges must be raised within 15 days of the invoice date."
  else if Js.includes (Js.toLowerCase question) "liability"
          || Js.includes (Js.toLowerCase question) "damages" then
    "The contract limits liability in Section 9. Neither party is liable for indirect, consequential, or punitive damages. Each party's total liability is capped at the amount paid under the agreement in the 12 months preceding the claim. These limitations don't apply to breaches of confidentiality or intellectual property provisions."
  else
    "I'd need to analyze that specific aspect of the contract more carefully. The contract does contain various provisions covering termination, confidentiality, payment terms, intellectual property, and liability. Could you specify which section or topic you're most interested in?".

(** [res.status(n).json(body)], and [res.status(n).json({ message })]. *)
Inductive Response (A : Type) : Type :=
| json (status : Z) (body : A)
| message (status : Z) (text : string).

Arguments json {A} status body.
Arguments message {A} status text.

Definition status {A : Type} (r : Response A) : Z :=
  match r with json n _ => n | message n _ => n end.

Module AnalyzeBody.
Record t := mk {
  contractId : option Z;
  text : option string;
  contractType : option string
}.
End AnalyzeBody.

Module QuestionBody.
Record t := mk { question : option string }.
End QuestionBody.

Module QaBody.
Record t := mk {
  contractId : option Z;
  question : option string
}.
End QaBody.

(** What the message route draws from [Math.random] and the clock, in the
    order of the calls. *)
Module Draws.
Record t := mk {
  userId : string;
  userTime : Timestamp;
  aiId : string;
  aiTime : Timestamp;
  updateTime : Timestamp
}.
End Draws.

Module ClauseInfo.
Record t := mk {
  clauseIndex : Z;
  clauseText : string;
  riskLevel : RiskLevelType;
  explanation : string;
  suggestion : string
}.
End ClauseInfo.

Definition mockRiskyClauses : list ClauseInfo.t :=
  [ ClauseInfo.mk 0
      "Contractor agrees not to engage in any business activity competitive with Client's business for a period of five (5) years in any geographic location where Client conducts business."
      RiskLevel.HIGH
      "This non-compete clause is overly broad in both duration and geographic scope, making it potentially unenforceable in many jurisdictions."
      "Contractor agrees not to engage in substantially similar business activity competitive with Client's core business for a period of one (1) year limited to regions where Contractor directly provided services to Client.";
    ClauseInfo.mk 3
      "Contractor shall indemnify, defend, and hold harmless Client from any and all claims, damages, liabilities, costs, and expenses, including reasonable attorneys' fees arising from or relating to Contractor's services."
      RiskLevel.MEDIUM
      "This indemnification clause is broad and doesn't limit the contractor's liability to third-party claims or direct damages."
      "Contractor shall indemnify, defend, and hold harmless Client from any third-party claims, damages, liabilities, costs, and expenses, including reasonable attorneys' fees arising directly from Contractor's gross negligence or willful misconduct in performing the services." ].

Section Handlers.
Context {S : Type} `{IStorage S}.

(** [GET /api/analysis/contract/:contractId] *)
Definition get_analysis_by_contract (contractId : Z) : M S (Response Analysis.t) :=
  analysis <- getAnalysisByContractId contractId ;;
  match analysis with
  | None => ret (message 404 "Analysis not found")
  | Some analysis => ret (json 200 analysis)
  end.

(** [GET /api/risky-clauses/analysis/:analysisId] *)
Definition get_risky_clauses (analysisId : Z) : M S (Response (list RiskyClause.t)) :=
  riskyClauses <- getRiskyClausesByAnalysisId analysisId ;;
  ret (json 200 riskyClauses).

(** The loop body that stores one mock clause when its index is flagged. *)
Definition store_if_flagged (analysis : Analysis.t)
  (riskyClauseIndices : list Z) (clauseInfo : ClauseInfo.t) : M S unit :=
  if Js.arr_includes riskyClauseIndices (ClauseInfo.clauseIndex clauseInfo) then
    createRiskyClause
      (InsertRiskyClause.mk (Analysis.id analysis)
         (ClauseInfo.clauseIndex clauseInfo)
         (ClauseInfo.clauseText clauseInfo)
         (ClauseInfo.riskLevel clauseInfo)
         (ClauseInfo.explanation clauseInfo)
         (Some (ClauseInfo.suggestion clauseInfo))) ;;;
    ret tt
  else ret tt.

(** [POST /api/analyze-contract].  [parseInt(contractId)] is [contractId], as
    it is for an integer below [10^21] in absolute value. *)
Definition post_analyze_contract (body : AnalyzeBody.t) : M S (Response Analysis.t) :=
  match AnalyzeBody.contractId body, AnalyzeBody.text body with
  | Some contractId, Some text =>
      if Js.not_num contractId || Js.not_str text then
        ret (message 400 "Contract ID and text are required")
      else
        contract <- getContract contractId ;;
        match contract with
        | None => ret (message 404 "Contract not found")
        | Some contract =>
            let analysisResult :=
              analyzeContract text
                (Js.or_str (AnalyzeBody.contractType body) "") in
            analysis <- createAnalysis
              (InsertAnalysis.mk contractId
                 (AnalysisResult.summary analysisResult)
                 (AnalysisResult.riskyClauseIndices analysisResult)
                 (AnalysisResult.fullAnalysis analysisResult)) ;;
            updateUser (Contract.id contract)
              (UserData.only_riskScore
                 (AnalysisResult.riskScore analysisResult)) ;;;
            (if (0 <? List.length (AnalysisResult.riskyClauseIndices analysisResult))%nat
             then forEach mockRiskyClauses
                    (store_if_flagged analysis
                       (AnalysisResult.riskyClauseIndices analysisResult))
             else ret tt) ;;;
            ret (json 200 analysis)
        end
  | _, _ => ret (message 400 "Contract ID and text are required")
  end.

(** [POST /api/conversation/:id/message]: the body of the answer is what
    [updateConversation] returned.  The spread [[...conversation.messages]]
    is the stored array; on a stored value that is not iterable it throws
    and the route answers 500, which the model, where the messages are an
    array, does not reach. *)
Definition post_conversation_message (conversationId : Z)
  (body : QuestionBody.t) (draws : Draws.t)
  : M S (Response (option Conversation.t)) :=
  match QuestionBody.question body with
  | Some question =>
      if Js.not_str question then ret (message 400 "Question is required")
      else
        conversation <- getConversation conversationId ;;
        match conversation with
        | None => ret (message 404 "Conversation not found")
        | Some conversation =>
            let updatedMessages := Conversation.messages conversation in
            let userMessage :=
              Message.mk (Draws.userId draws) Role.user question
                (Draws.userTime draws) in
            let updatedMessages := updatedMessages ++ [userMessage] in
            let answer :=
              answerContractQuestion (Conversation.contractId conversation)
                question in
            let aiMessage :=
              Message.mk (Draws.aiId draws) Role.assistant answer
                (Draws.aiTime draws) in
            let updatedMessages := updatedMessages ++ [aiMessage] in
            updatedConversation <- updateConversation conversationId
              updatedMessages (Draws.updateTime draws) ;;
            ret (json 200 updatedConversation)
        end
  | None => ret (message 400 "Question is required")
  end.

(** [POST /api/contract-qa]: the body of the answer is [{ answer }].
    [parseInt(contractId)] is [contractId], as it is for an integer below
    [10^21] in absolute value. *)
Definition post_contract_qa (body : QaBody.t) : M S (Response string) :=
  match QaBody.contractId body, QaBody.question body with
  | Some contractId, Some question =>
      if Js.not_num contractId || Js.not_str question then
        ret (message 400 "Contract ID and question are required")
      else
        contract <- getContract contractId ;;
        match contract with
        | None => ret (message 404 "Contract not found")
        | Some _ => ret (json 200 (answerContractQuestion contractId question))
        end
  | _, _ => ret (message 400 "Contract ID and question are required")
  end.

End Handlers.

(** ** The other routes *)

(** The operations of [IStorage] that the account and saved-clause routes
    call: the lookup by email, which rests on the native [toLowerCase], and
    the others.  [createUser] takes the clock and the [uuidv4()] it draws. *)
Class IStorageEmail (S : Type) : Type := {
  getUserByEmail : string -> M S (option User.t)
}.

Class IStorageRest (S : Type) : Type := {
  createUser : InsertUser.t -> Timestamp -> string -> M S User.t;
  getSavedClausesByUserId : Z -> M S (list SavedClause.t);
  getSavedClause : Z -> M S (option SavedClause.t);
  createSavedClause : InsertSavedClause.t -> Timestamp -> M S SavedClause.t;
  deleteSavedClause : Z -> M S bool
}.

(** [MemStorage.getUserByEmail] compares lowered emails, so this part of
    the implementation depends on the native [toLowerCase]. *)
Definition MemStorage_IStorageEmail (toLowerCase : string -> string)
  : IStorageEmail MemStorage.t := {|
  getUserByEmail := MemStorage.getUserByEmail toLowerCase
|}.

#[export] Instance MemStorage_IStorageRest : IStorageRest MemStorage.t := {
  createUser := MemStorage.createUser;
  getSavedClausesByUserId := MemStorage.getSavedClausesByUserId;
  getSavedClause := MemStorage.getSavedClause;
  createSavedClause := MemStorage.createSavedClause;
  deleteSavedClause := MemStorage.deleteSavedClause
}.

(** A user as the routes send it: [const { password, ...rest } = user]. *)
Module PublicUser.
Record t := mk {
  id : Z;
  email : string;
  firstName : option string;
  lastName : option string;
  company : option string;
  planType : option string;
  apiKey : option string;
  createdAt : Timestamp;
  riskScore : option RiskLevelType
}.
End PublicUser.

Definition withoutPassword (u : User.t) : PublicUser.t :=
  PublicUser.mk (User.id u) (User.email u) (User.firstName u) (User.lastName u)
    (User.company u) (User.planType u) (User.apiKey u) (User.createdAt u)
    (User.riskScore u).

Module LoginBody.
Record t := mk {
  email : option string;
  password : option string
}.
End LoginBody.

Module GenerateBody.
Record t := mk {
  clauseType : option string;
  tone : option string;
  details : option string
}.
End GenerateBody.

Module Generated.
Record t := mk {
  clause : string;
  legalContext : string
}.
End Generated.

(** The line feed and the double quote of the clause templates. *)
Definition nl : string := String "010"%char EmptyString.
Definition dq : string := String "034"%char EmptyString.

Definition template_nda : string :=
  ("11.1 Confidential Information. Each party acknowledges that it may be furnished with or may otherwise receive or have access to information or material that relates to past, present, or future products, software, research, development, inventions, processes, techniques, designs, or technical information and data, and marketing plans (hereinafter the "
   ++ dq
   ++ "Confidential Information"
   ++ dq
   ++ "). Each party agrees to preserve and protect the confidentiality of the Confidential Information."
   ++ nl
   ++ nl
   ++ "11.2 Non-Disclosure. Each party agrees that it will not disclose to any third party or use any Confidential Information disclosed to it by the other party except as expressly permitted in this Agreement, and will take reasonable measures to maintain the confidentiality of such information, which measures shall not be less than the degree of care employed by the recipient to preserve and safeguard its own confidential information, but in no event less than a reasonable degree of care."
   ++ nl
   ++ nl
   ++ "11.3 Term of Obligation. The obligations of the parties under this Section shall continue in full force and effect for a period of three (3) years from the date of termination or expiration of this Agreement.")%string.

Definition template_termination : string :=
  ("8.1 Termination for Convenience. Either party may terminate this Agreement for any reason upon thirty (30) days' prior written notice to the other party."
   ++ nl
   ++ nl
   ++ "8.2 Termination for Cause. Either party may terminate this Agreement immediately upon written notice to the other party if the other party materially breaches this Agreement and fails to cure such breach within fifteen (15) business days after receiving written notice thereof."
   ++ nl
   ++ nl
   ++ "8.3 Effect of Termination. Upon termination of this Agreement for any reason, each party shall promptly return to the other party all property belonging to the other party, including without limitation all Confidential Information.")%string.

Definition template_payment : string :=
  ("5.1 Fees. Client shall pay the fees set forth in the applicable Statement of Work. All fees are exclusive of taxes, which Client shall pay as applicable."
   ++ nl
   ++ nl
   ++ "5.2 Payment Terms. Client shall pay all invoices within thirty (30) days of receipt. Late payments shall accrue interest at a rate of 1.5% per month or the highest rate allowed by applicable law, whichever is lower, from the date such payment was due until the date paid."
   ++ nl
   ++ nl
   ++ "5.3 Disputes. Client shall notify Contractor in writing of any disputed charges within fifteen (15) days of the invoice date, or such charges shall be deemed accepted by Client.")%string.

Definition template_other (clauseType tone details : string) : string :=
  ("This is a template for the " ++ clauseType ++ " clause type with a "
   ++ tone ++ " tone."
   ++ nl ++ nl
   ++ "The clause would typically include specific legal language relevant to this type of provision, with appropriate binding terms and conditions that protect the party's interests."
   ++ nl ++ nl
   ++ "Additional details from your input would be incorporated here: "
   ++ (if Js.not_str details then "No additional details provided."
       else details))%string.

(** The mock clause generator. *)
Definition generateClause (clauseType tone details : string) : string :=
  let template :=
    if String.eqb clauseType "nda" || String.eqb clauseType "confidentiality"
    then template_nda
    else if String.eqb clauseType "termination" then template_termination
    else if String.eqb clauseType "payment" then template_payment
    else template_other clauseType tone details in
  if String.eqb tone "friendly" then
    Js.replaceAll "hereinafter" "below" (Js.replaceAll "shall" "will" template)
  else if String.eqb tone "aggressive" then
    Js.replaceAll "reasonable" "strict" (Js.replaceAll "may" "shall" template)
  else template.

Definition legalContext_text : string :=
  "This clause establishes standard protections with reasonable terms that courts typically uphold. It provides clear guidance on handling proprietary information and is balanced between parties.".

(** [if (userData.password) delete userData.password] *)
Definition drop_password (d : UserData.t) : UserData.t :=
  match UserData.password d with
  | Some (String _ _) =>
      UserData.mk (UserData.id d) (UserData.email d) None
        (UserData.firstName d) (UserData.lastName d) (UserData.company d)
        (UserData.planType d) (UserData.apiKey d) (UserData.createdAt d)
        (UserData.riskScore d)
  | _ => d
  end.

Section MoreHandlers.
Context {S : Type} `{IStorage S} `{IStorageRest S}
  {storageEmail : IStorageEmail S}.

(** [bcrypt.hash(password, salt)] and [bcrypt.compare(password, hash)]; the
    salt is what [bcrypt.genSalt(10)] draws. *)
Variable bcrypt_hash : string -> string -> string.
Variable bcrypt_compare : string -> string -> bool.

Definition hashPassword (password salt : string) : string :=
  bcrypt_hash password salt.

Definition verifyPassword (password hashedPassword : string) : bool :=
  bcrypt_compare password hashedPassword.

(** [POST /api/auth/register]; [parsed] is what [insertUserSchema.parse]
    returns, [None] when it throws.  The body of the answer is [{ user }]. *)
Definition post_register (parsed : option InsertUser.t) (salt : string)
  (now : Timestamp) (uuid : string) : M S (Response PublicUser.t) :=
  match parsed with
  | None => ret (message 400 "Invalid input")
  | Some userData =>
      existingUser <- getUserByEmail (InsertUser.email userData) ;;
      match existingUser with
      | Some _ => ret (message 400 "User already exists")
      | None =>
          let hashedPassword := hashPassword (InsertUser.password userData) salt in
          user <- createUser
            (InsertUser.mk (InsertUser.email userData) hashedPassword
               (InsertUser.firstName userData) (InsertUser.lastName userData)
               (InsertUser.company userData) (InsertUser.planType userData))
            now uuid ;;
          ret (json 201 (withoutPassword user))
      end
  end.

(** [POST /api/auth/login]; the body of the answer is [{ user }]. *)
Definition post_login (body : LoginBody.t) : M S (Response PublicUser.t) :=
  match LoginBody.email body, LoginBody.password body with
  | Some email, Some password =>
      if Js.not_str email || Js.not_str password then
        ret (message 400 "Email and password are required")
      else
        user <- getUserByEmail email ;;
        match user with
        | None => ret (message 401 "Invalid credentials")
        | Some user =>
            if verifyPassword password (User.password user)
            then ret (json 200 (withoutPassword user))
            else ret (message 401 "Invalid credentials")
        end
  | _, _ => ret (message 400 "Email and password are required")
  end.

(** [GET /api/user/:id] *)
Definition get_user (userId : Z) : M S (Response PublicUser.t) :=
  user <- getUser userId ;;
  match user with
  | None => ret (message 404 "User not found")
  | Some user => ret (json 200 (withoutPassword user))
  end.

(** [PATCH /api/user/:id] *)
Definition patch_user (userId : Z) (userData : UserData.t)
  : M S (Response PublicUser.t) :=
  let userData := drop_password userData in
  updatedUser <- updateUser userId userData ;;
  match updatedUser with
  | None => ret (message 404 "User not found")
  | Some updatedUser => ret (json 200 (withoutPassword updatedUser))
  end.

(** [GET /api/contracts/user/:userId] *)
Definition get_contracts_by_user (userId : Z) : M S (Response (list Contract.t)) :=
  contracts <- getContractsByUserId userId ;;
  ret (json 200 contracts).

(** [GET /api/contract/:id] *)
Definition get_contract (contractId : Z) : M S (Response Contract.t) :=
  contract <- getContract contractId ;;
  match contract with
  | None => ret (message 404 "Contract not found")
  | Some contract => ret (json 200 contract)
  end.

(** [POST /api/contract]; [parsed] is what [insertContractSchema.parse]
    returns, [None] when it throws. *)
Definition post_contract (parsed : option InsertContract.t) (now : Timestamp)
  : M S (Response Contract.t) :=
  match parsed with
  | None => ret (message 400 "Invalid input")
  | Some contractData =>
      contract <- createContract contractData now ;;
      ret (json 201 contract)
  end.

(** [DELETE /api/contract/:id] *)
Definition delete_contract (contractId : Z) : M S (Response unit) :=
  success <- deleteContract contractId ;;
  if negb success then ret (message 404 "Contract not found")
  else ret (message 200 "Contract deleted successfully").

(** [GET /api/saved-clauses/user/:userId] *)
Definition get_saved_clauses_by_user (userId : Z)
  : M S (Response (list SavedClause.t)) :=
  savedClauses <- getSavedClausesByUserId userId ;;
  ret (json 200 savedClauses).

(** [POST /api/saved-clause] *)
Definition post_saved_clause (parsed : option InsertSavedClause.t)
  (now : Timestamp) : M S (Response SavedClause.t) :=
  match parsed with
  | None => ret (message 400 "Invalid input")
  | Some clauseData =>
      savedClause <- createSavedClause clauseData now ;;
      ret (json 201 savedClause)
  end.

(** [DELETE /api/saved-clause/:id] *)
Definition delete_saved_clause (clauseId : Z) : M S (Response unit) :=
  success <- deleteSavedClause clauseId ;;
  if negb success then ret (message 404 "Saved clause not found")
  else ret (message 200 "Saved clause deleted successfully").

(** [POST /api/generate-clause] *)
Definition post_generate_clause (body : GenerateBody.t)
  : M S (Response Generated.t) :=
  match GenerateBody.clauseType body, GenerateBody.tone body with
  | Some clauseType, Some tone =>
      if Js.not_str clauseType || Js.not_str tone then
        ret (message 400 "Clause type and tone are required")
      else
        let generatedClause :=
          generateClause clauseType tone
            (Js.or_str (GenerateBody.details body) "") in
        ret (json 200 (Generated.mk generatedClause legalContext_text))
  | _, _ => ret (message 400 "Clause type and tone are required")
  end.

(** [GET /api/conversations/contract/:contractId] *)
Definition get_conversations_by_contract (contractId : Z)
  : M S (Response (list Conversation.t)) :=
  conversations <- getConversationsByContractId contractId ;;
  ret (json 200 conversations).

(** [POST /api/conversation] *)
Definition post_conversation (parsed : option InsertConversation.t)
  (now : Timestamp) : M S (Response Conversation.t) :=
  match parsed with
  | None => ret (message 400 "Invalid input")
  | Some conversationData =>
      conversation <- createConversation conversationData now ;;
      ret (json 201 conversation)
  end.

End MoreHandlers.

(** ** Client helpers ([lib/utils.ts], [services/api.ts], [pages/analyzer.tsx]) *)

Module Client.

(** [truncateText] *)
Definition truncateText (text : string) (maxLength : Z) : string :=
  if Z.leb (Z.of_nat (String.length text)) maxLength then text
  else (Js.substring0 maxLength text ++ "...")%string.

(** [getRiskColor] *)
Definition getRiskColor (riskLevel : string) : string :=
  let l := Js.toLowerCase riskLevel in
  if String.eqb l "low" then "text-green-500 bg-green-100"
  else if String.eqb l "medium" then "text-yellow-500 bg-yellow-100"
  else if String.eqb l "high" then "text-red-500 bg-red-100"
  else "text-gray-500 bg-gray-100".

(** [getRiskLevelText] *)
Definition getRiskLevelText (riskLevel : string) : string :=
  let l := Js.toLowerCase riskLevel in
  if String.eqb l "low" then "Low Risk"
  else if String.eqb l "medium" then "Medium Risk"
  else if String.eqb l "high" then "High Risk"
  else "Unknown Risk".

(** [file.name.split('.').pop() || 'txt'], the file type that
    [uploadContract] and the analyzer page send with a new contract. *)
Definition fileType (name : string) : string :=
  match Js.pop (Js.split "." name) with
  | Some (String c e) => String c e
  | _ => "txt"
  end.

(** The display status of a summary point on the analyzer page. *)
Inductive PointStatus : Type := success | warning | danger.

(** [toLowerCase] is the native [String.prototype.toLowerCase]: the keyword
    [risk] holds a [k]. *)
Definition pointStatus (toLowerCase : string -> string) (point : string)
  : PointStatus :=
  let lowerPoint := toLowerCase point in
  if Js.includes lowerPoint "risk" || Js.includes lowerPoint "concern"
     || Js.includes lowerPoint "excessive" || Js.includes lowerPoint "broad"
  then danger
  else if Js.includes lowerPoint "caution" || Js.includes lowerPoint "consider"
          || Js.includes lowerPoint "indemnification"
          || Js.includes lowerPoint "liability"
  then warning
  else success.

(** The order success < warning < danger. *)
Definition severity (p : PointStatus) : nat :=
  match p with success => 0 | warning => 1 | danger => 2 end.

End Client.

(** * Vocabulary of the properties *)

(** ** The store invariant

    Identifiers are handed out by the [next...Id] counters: every stored
    analysis sits under its own identifier, below [nextAnalysisId]; every
    stored risky clause sits below [nextRiskyClauseId] and belongs to an
    analysis that was already created. *)

Record wf (s : MemStorage.t) : Prop := {
  wf_analyses :
    Forall (fun kv => fst kv < MemStorage.nextAnalysisId s
                      /\ Analysis.id (snd kv) = fst kv)
           (MemStorage.analyses s);
  wf_riskyClauses :
    Forall (fun kv => fst kv < MemStorage.nextRiskyClauseId s
                      /\ RiskyClause.analysisId (snd kv)
                         < MemStorage.nextAnalysisId s)
           (MemStorage.riskyClauses s)
}.

(** The mock clauses that the analyze route stores for a list of flagged
    indices, and the records they become. *)
Definition flagged_clauses (riskyClauseIndices : list Z) : list ClauseInfo.t :=
  if (0 <? List.length riskyClauseIndices)%nat
  then filter (fun clauseInfo =>
                 Js.arr_includes riskyClauseIndices
                   (ClauseInfo.clauseIndex clauseInfo))
              mockRiskyClauses
  else [].

Fixpoint number_clauses (analysisId next : Z) (l : list ClauseInfo.t)
  : JsMap.t RiskyClause.t :=
  match l with
  | [] => []
  | clauseInfo :: l' =>
      (next, RiskyClause.mk next analysisId
               (ClauseInfo.clauseIndex clauseInfo)
               (ClauseInfo.clauseText clauseInfo)
               (ClauseInfo.riskLevel clauseInfo)
               (ClauseInfo.explanation clauseInfo)
               (Some (ClauseInfo.suggestion clauseInfo)))
      :: number_clauses analysisId (next + 1) l'
  end.

(** The user map after [updateUser id { riskScore }]. *)
Definition users_after_update (id : Z) (riskScore : RiskLevelType)
  (users : JsMap.t User.t) : JsMap.t User.t :=
  match JsMap.get id users with
  | Some u =>
      JsMap.set id (MemStorage.merge u (UserData.only_riskScore riskScore)) users
  | None => users
  end.

(** The analysis record that a successful analyze request creates. *)
Definition created_analysis (s : MemStorage.t) (contractId : Z)
  (r : AnalysisResult.t) : Analysis.t :=
  Analysis.mk (MemStorage.nextAnalysisId s) contractId
    (AnalysisResult.summary r) (AnalysisResult.riskyClauseIndices r)
    (AnalysisResult.fullAnalysis r).

(** The store that a successful analyze request leaves. *)
Definition store_after_analyze (s : MemStorage.t) (contract : Contract.t)
  (contractId : Z) (r : AnalysisResult.t) : MemStorage.t :=
  let new := flagged_clauses (AnalysisResult.riskyClauseIndices r) in
  MemStorage.mk
    (users_after_update (Contract.id contract) (AnalysisResult.riskScore r)
       (MemStorage.users s))
    (MemStorage.contracts s)
    (MemStorage.analyses s
     ++ [(MemStorage.nextAnalysisId s, created_analysis s contractId r)])
    (MemStorage.riskyClauses s
     ++ number_clauses (MemStorage.nextAnalysisId s)
          (MemStorage.nextRiskyClauseId s) new)
    (MemStorage.savedClauses s)
    (MemStorage.conversations s)
    (MemStorage.nextUserId s)
    (MemStorage.nextContractId s)
    (MemStorage.nextAnalysisId s + 1)
    (MemStorage.nextRiskyClauseId s + Z.of_nat (List.length new))
    (MemStorage.nextSavedClauseId s)
    (MemStorage.nextConversationId s).

(** The two messages that one request appends. *)
Definition asked_pair (conversation : Conversation.t) (question : string)
  (draws : Draws.t) : list Message.t :=
  [ Message.mk (Draws.userId draws) Role.user question (Draws.userTime draws);
    Message.mk (Draws.aiId draws) Role.assistant
      (answerContractQuestion (Conversation.contractId conversation) question)
      (Draws.aiTime draws) ].

(** ** The whole store

    What holds of every map of the store: the keys are distinct, positive
    and below the counter that hands them out. *)

Definition keys_ok {V : Type} (m : JsMap.t V) (next : Z) : Prop :=
  0 < next /\ NoDup (JsMap.keys m)
  /\ Forall (fun k => 0 < k < next) (JsMap.keys m).

Record StoreInv (s : MemStorage.t) : Prop := {
  inv_wf : wf s;
  inv_users : keys_ok (MemStorage.users s) (MemStorage.nextUserId s);
  inv_contracts : keys_ok (MemStorage.contracts s) (MemStorage.nextContractId s);
  inv_analyses : keys_ok (MemStorage.analyses s) (MemStorage.nextAnalysisId s);
  inv_riskyClauses :
    keys_ok (MemStorage.riskyClauses s) (MemStorage.nextRiskyClauseId s);
  inv_savedClauses :
    keys_ok (MemStorage.savedClauses s) (MemStorage.nextSavedClauseId s);
  inv_conversations :
    keys_ok (MemStorage.conversations s) (MemStorage.nextConversationId s);
  inv_contract_ids :
    Forall (fun kv => Contract.id (snd kv) = fst kv) (MemStorage.contracts s);
  inv_riskyClause_ids :
    Forall (fun kv => RiskyClause.id (snd kv) = fst kv) (MemStorage.riskyClauses s);
  inv_savedClause_ids :
    Forall (fun kv => SavedClause.id (snd kv) = fst kv) (MemStorage.savedClauses s);
  inv_conversation_ids :
    Forall (fun kv => Conversation.id (snd kv) = fst kv)
           (MemStorage.conversations s);
  inv_analysis_contract :
    Forall (fun kv => 0 < Analysis.contractId (snd kv)
                      < MemStorage.nextContractId s)
           (MemStorage.analyses s)
}.

(** The requests that write to the store, with what they draw. *)
Inductive Request : Type :=
| Register (parsed : option InsertUser.t) (salt : string) (now : Timestamp)
    (uuid : string)
| PatchUser (userId : Z) (userData : UserData.t)
| PostContract (parsed : option InsertContract.t) (now : Timestamp)
| DeleteContract (contractId : Z)
| AnalyzeContract (body : AnalyzeBody.t)
| PostSavedClause (parsed : option InsertSavedClause.t) (now : Timestamp)
| DeleteSavedClause (clauseId : Z)
| PostConversation (parsed : option InsertConversation.t) (now : Timestamp)
| PostMessage (conversationId : Z) (body : QuestionBody.t) (draws : Draws.t).

(** The store after a request, and after a sequence of requests. *)
Definition step (toLowerCase : string -> string)
  (bcrypt_hash : string -> string -> string) (r : Request)
  (s : MemStorage.t) : MemStorage.t :=
  match r with
  | Register parsed salt now uuid =>
      snd (post_register (storageEmail := MemStorage_IStorageEmail toLowerCase)
             bcrypt_hash parsed salt now uuid s)
  | PatchUser userId userData => snd (patch_user userId userData s)
  | PostContract parsed now => snd (post_contract parsed now s)
  | DeleteContract contractId => snd (delete_contract contractId s)
  | AnalyzeContract body => snd (post_analyze_contract body s)
  | PostSavedClause parsed now => snd (post_saved_clause parsed now s)
  | DeleteSavedClause clauseId => snd (delete_saved_clause clauseId s)
  | PostConversation parsed now => snd (post_conversation parsed now s)
  | PostMessage conversationId body draws =>
      snd (post_conversation_message conversationId body draws s)
  end.

Definition run (toLowerCase : string -> string)
  (bcrypt_hash : string -> string -> string) (rs : list Request)
  (s : MemStorage.t) : MemStorage.t :=
  fold_left (fun s r => step toLowerCase bcrypt_hash r s) rs s.

(** Roles alternate, starting with the user and ending with the assistant. *)
Fixpoint alternates (messages : list Message.t) : bool :=
  match messages with
  | [] => true
  | u :: a :: rest =>
      match Message.role u, Message.role a with
      | Role.user, Role.assistant => alternates rest
      | _, _ => false
      end
  | _ => false
  end.

(** The message route run for a list of questions, one request after the
    other, each with its own draws; the answers' statuses are collected. *)
Fixpoint ask_all (conversationId : Z) (asks : list (string * Draws.t))
  (s : MemStorage.t) : list Z * MemStorage.t :=
  match asks with
  | [] => ([], s)
  | (question, draws) :: rest =>
      let (resp, s1) :=
        post_conversation_message conversationId
          (QuestionBody.mk (Some question)) draws s in
      let (statuses, s2) := ask_all conversationId rest s1 in
      (status resp :: statuses, s2)
  end.

(** The messages that a list of questions appends. *)
Fixpoint asked_pairs (conversation : Conversation.t)
  (asks : list (string * Draws.t)) : list Message.t :=
  match asks with
  | [] => []
  | (question, draws) :: rest =>
      asked_pair conversation question draws ++ asked_pairs conversation rest
  end.

(** ** The writes of one analyze request

    The stores that the loop over the flagged clauses leaves, one after each
    [await storage.createRiskyClause], and the stores of the whole request:
    after [createAnalysis], after [updateUser], then those of the loop. *)

Fixpoint clause_writes (analysis : Analysis.t) (new : list ClauseInfo.t)
  (s : MemStorage.t) : list MemStorage.t :=
  match new with
  | [] => []
  | clauseInfo :: new' =>
      let s' :=
        snd (MemStorage.createRiskyClause
               (InsertRiskyClause.mk (Analysis.id analysis)
                  (ClauseInfo.clauseIndex clauseInfo)
                  (ClauseInfo.clauseText clauseInfo)
                  (ClauseInfo.riskLevel clauseInfo)
                  (ClauseInfo.explanation clauseInfo)
                  (Some (ClauseInfo.suggestion clauseInfo))) s) in
      s' :: clause_writes analysis new' s'
  end.

Definition analyze_writes (s : MemStorage.t) (contract : Contract.t)
  (contractId : Z) (r : AnalysisResult.t) : list MemStorage.t :=
  let created :=
    MemStorage.createAnalysis
      (InsertAnalysis.mk contractId (AnalysisResult.summary r)
         (AnalysisResult.riskyClauseIndices r)
         (AnalysisResult.fullAnalysis r)) s in
  let s2 :=
    snd (MemStorage.updateUser (Contract.id contract)
           (UserData.only_riskScore (AnalysisResult.riskScore r))
           (snd created)) in
  snd created :: s2
  :: clause_writes (fst created)
       (flagged_clauses (AnalysisResult.riskyClauseIndices r)) s2.

(** ** Characters of a string *)

Fixpoint char_in (c : ascii) (s : string) : bool :=
  match s with
  | EmptyString => false
  | String d s' => Ascii.eqb c d || char_in c s'
  end.

(** ** Payloads *)

Definition Response_map {A B : Type} (f : A -> B) (r : Response A) : Response B :=
  match r with
  | json n b => json n (f b)
  | message n t => message n t
  end.

(** An analysis without its identifier. *)
Definition analysis_payload (a : Analysis.t) : InsertAnalysis.t :=
  InsertAnalysis.mk (Analysis.contractId a) (Analysis.summary a)
    (Analysis.riskyClauseIndices a) (Analysis.fullAnalysis a).

(** A risky clause without its identifier and the identifier of its analysis. *)
Definition clause_payload (c : RiskyClause.t)
  : Z * string * RiskLevelType * string * option string :=
  (RiskyClause.clauseIndex c, RiskyClause.clauseText c, RiskyClause.riskLevel c,
   RiskyClause.explanation c, RiskyClause.suggestion c).

(** The clause sequence stored for an analysis, in storage order. *)
Definition stored_clause_payloads (analysisId : Z) (s : MemStorage.t) :=
  map clause_payload (fst (MemStorage.getRiskyClausesByAnalysisId analysisId s)).

(** ** Concrete inputs *)

(** The text of the two-section scenario. *)
Definition scenario_text : string :=
  "1. Termination. Either party may terminate this Agreement upon 30 days' notice. 2. Confidentiality. Each party shall protect Confidential Information.".

(** A freshly constructed store: one user, four contracts with one analysis
    each, six risky clauses, one conversation of four messages. *)
Definition demo_store : MemStorage.t :=
  MemStorage.constructor "2024-01-01T00:00:00.000Z"
    (fun _ => "3f2b8c1e-5d4a-4e6f-9a7b-0c1d2e3f4a5b").

(** The levels of the risky clauses stored for an analysis. *)
Definition stored_levels (analysisId : Z) (s : MemStorage.t) : list RiskLevelType :=
  map RiskyClause.riskLevel
      (fst (MemStorage.getRiskyClausesByAnalysisId analysisId s)).

(** How many stored risky clauses carry the pair [(analysisId, clauseIndex)]. *)
Definition count_assessments (analysisId clauseIndex : Z) (s : MemStorage.t) : nat :=
  List.length
    (filter (fun clause =>
               Z.eqb (RiskyClause.analysisId clause) analysisId
               && Z.eqb (RiskyClause.clauseIndex clause) clauseIndex)
            (JsMap.values (MemStorage.riskyClauses s))).

(** * Properties *)

(** ** Strings *)

Module JsFacts.

Lemma prefix_iff (sub s : string) :
  String.prefix sub s = true <-> exists post, s = (sub ++ post)%string.
Proof.
  revert s. induction sub as [|c sub IH]; intros s.
  - destruct s; simpl; split; eauto.
  - destruct s as [|d s]; simpl.
    + split; [discriminate | intros [post Hp]; discriminate].
    + destruct (ascii_dec c d) as [->|Hne].
      * rewrite IH. split; intros [post Hp]; exists post; congruence.
      * split; [discriminate | intros [post Hp]; congruence].
Qed.

Lemma includes_unfold (s sub : string) :
  Js.includes s sub
  = if String.prefix sub s then true
    else match s with
         | EmptyString => false
         | String _ s' => Js.includes s' sub
         end.
Proof. destruct s; reflexivity. Qed.

(** [includes] answers whether [sub] occurs in [s]. *)
Lemma includes_iff (s sub : string) :
  Js.includes s sub = true
  <-> exists pre post, s = (pre ++ sub ++ post)%string.
Proof.
  induction s as [|c s IH]; rewrite includes_unfold.
  - destruct (String.prefix sub "") eqn:P.
    + split; [intros _ | reflexivity].
      apply prefix_iff in P. destruct P as [post Hp]. now exists "", post.
    + split; [discriminate|]. intros (pre & post & Hs).
      destruct pre; [|discriminate]. simpl in Hs.
      assert (String.prefix sub "" = true) by (apply prefix_iff; eauto).
      congruence.
  - destruct (String.prefix sub (String c s)) eqn:P.
    + split; [intros _ | reflexivity].
      apply prefix_iff in P. destruct P as [post Hp]. now exists "", post.
    + rewrite IH. split.
      * intros (pre & post & ->). now exists (String c pre), post.
      * intros (pre & post & Hs). destruct pre as [|d pre]; simpl in Hs.
        -- assert (String.prefix sub (String c s) = true)
             by (apply prefix_iff; eauto).
           congruence.
        -- injection Hs as _ ->. now exists pre, post.
Qed.

(** [toLowerCase] is idempotent. *)
Lemma lower_char_idem (c : ascii) :
  Js.lower_char (Js.lower_char c) = Js.lower_char c.
Proof.
  destruct c as [[] [] [] [] [] [] [] []]; reflexivity.
Qed.

Lemma toLowerCase_idem (s : string) :
  Js.toLowerCase (Js.toLowerCase s) = Js.toLowerCase s.
Proof.
  induction s as [|c s IH]; simpl; [reflexivity|].
  now rewrite lower_char_idem, IH.
Qed.

(** A string that is blank is not thereby empty: the guards of the routes
    test emptiness. *)
Lemma not_str_blank (s : string) : Js.not_str s = true -> Js.blank s = true.
Proof. destruct s; [reflexivity | discriminate]. Qed.

End JsFacts.

(** ** Maps *)

Module JsMapFacts.
Section Facts.
Variable V : Type.
Implicit Types (m : JsMap.t V) (k : Z) (v : V).

Lemma get_set_same k v m : JsMap.get k (JsMap.set k v m) = Some v.
Proof.
  induction m as [|[k' v'] m IH]; simpl.
  - now rewrite Z.eqb_refl.
  - destruct (Z.eqb k k') eqn:E; simpl; rewrite ?Z.eqb_refl, ?E; auto.
Qed.

Lemma get_set_other k k' v m :
  k' <> k -> JsMap.get k' (JsMap.set k v m) = JsMap.get k' m.
Proof.
  intros Hne. induction m as [|[k0 v0] m IH]; simpl.
  - destruct (Z.eqb_spec k' k); [contradiction | reflexivity].
  - destruct (Z.eqb_spec k k0) as [->|]; simpl.
    + destruct (Z.eqb_spec k' k0); [contradiction | reflexivity].
    + now rewrite IH.
Qed.

(** A key above every key of the map is absent. *)
Lemma get_above n k m :
  Forall (fun kv => fst kv < n) m -> n <= k -> JsMap.get k m = None.
Proof.
  intros Hall Hle. induction Hall as [|[k' v'] m Hk _ IH]; simpl; auto.
  simpl in Hk. destruct (Z.eqb_spec k k'); [lia | exact IH].
Qed.

(** [set] on an absent key appends the entry. *)
Lemma set_absent k v m :
  JsMap.get k m = None -> JsMap.set k v m = m ++ [(k, v)].
Proof.
  induction m as [|[k' v'] m IH]; simpl; auto.
  destruct (Z.eqb k k'); [discriminate|].
  intros Hn. now rewrite IH.
Qed.

Lemma get_In k v m : JsMap.get k m = Some v -> In (k, v) m.
Proof.
  induction m as [|[k' v'] m IH]; simpl; [discriminate|].
  destruct (Z.eqb_spec k k') as [->|].
  - intros [= ->]. now left.
  - intros Hg. right. auto.
Qed.

End Facts.
End JsMapFacts.

(** ** The analyze route *)

Lemma risky_keys_weaken (n n' : Z) (m : JsMap.t RiskyClause.t) :
  n <= n' -> Forall (fun kv => fst kv < n) m -> Forall (fun kv => fst kv < n') m.
Proof.
  intros Hle Hall. eapply Forall_impl; [|exact Hall]. simpl. intros; lia.
Qed.

(** The loop over the mock clauses appends one numbered record for each
    clause whose index is flagged, in the order of the table. *)
Lemma forEach_store_if_flagged (analysis : Analysis.t) (indices : list Z)
  (l : list ClauseInfo.t) (s : MemStorage.t) :
  Forall (fun kv => fst kv < MemStorage.nextRiskyClauseId s)
         (MemStorage.riskyClauses s) ->
  let new := filter (fun clauseInfo =>
                       Js.arr_includes indices (ClauseInfo.clauseIndex clauseInfo))
                    l in
  forEach l (store_if_flagged analysis indices) s
  = (tt, MemStorage.with_riskyClauses
           (MemStorage.riskyClauses s
            ++ number_clauses (Analysis.id analysis)
                 (MemStorage.nextRiskyClauseId s) new)
           (MemStorage.nextRiskyClauseId s + Z.of_nat (List.length new)) s).
Proof.
  revert s. induction l as [|clauseInfo l IH]; intros s Hkeys; simpl.
  - unfold ret, MemStorage.with_riskyClauses. rewrite app_nil_r, Z.add_0_r.
    now destruct s.
  - unfold bind, store_if_flagged at 1.
    destruct (Js.arr_includes indices (ClauseInfo.clauseIndex clauseInfo)) eqn:E.
    + cbn [createRiskyClause MemStorage_IStorage]. unfold bind, ret.
      unfold MemStorage.createRiskyClause at 1. cbn [InsertRiskyClause.analysisId
        InsertRiskyClause.clauseIndex InsertRiskyClause.clauseText
        InsertRiskyClause.riskLevel InsertRiskyClause.explanation
        InsertRiskyClause.suggestion].
      rewrite JsMapFacts.set_absent
        by (eapply JsMapFacts.get_above; [exact Hkeys | lia]).
      rewrite IH.
      * f_equal. destruct s. unfold MemStorage.with_riskyClauses.
        cbn [MemStorage.riskyClauses MemStorage.nextRiskyClauseId
             MemStorage.users MemStorage.contracts MemStorage.analyses
             MemStorage.savedClauses MemStorage.conversations
             MemStorage.nextUserId MemStorage.nextContractId
             MemStorage.nextAnalysisId MemStorage.nextSavedClauseId
             MemStorage.nextConversationId number_clauses].
        f_equal.
        -- now rewrite <- app_assoc.
        -- cbn [List.length]. lia.
      * destruct s. unfold MemStorage.with_riskyClauses.
        cbn [MemStorage.riskyClauses MemStorage.nextRiskyClauseId] in *.
        apply Forall_app. split.
        -- eapply risky_keys_weaken; [|exact Hkeys]. lia.
        -- constructor; [simpl; lia | constructor].
    + unfold ret. now rewrite IH.
Qed.

(** A successful analyze request: the response and the store it leaves. *)
Lemma post_analyze_contract_ok (s : MemStorage.t) (body : AnalyzeBody.t)
  (contractId : Z) (text : string) (contract : Contract.t) :
  wf s ->
  AnalyzeBody.contractId body = Some contractId -> contractId <> 0 ->
  AnalyzeBody.text body = Some text -> text <> "" ->
  JsMap.get contractId (MemStorage.contracts s) = Some contract ->
  let r := analyzeContract text (Js.or_str (AnalyzeBody.contractType body) "") in
  post_analyze_contract body s
  = (json 200 (created_analysis s contractId r),
     store_after_analyze s contract contractId r).
Proof.
  intros Hwf Hc Hne Ht Hte Hg. unfold post_analyze_contract.
  rewrite Hc, Ht. cbv zeta.
  generalize (analyzeContract text (Js.or_str (AnalyzeBody.contractType body) "")).
  intros r.
  replace (Js.not_num contractId || Js.not_str text) with false.
  2:{ unfold Js.not_num. destruct (Z.eqb_spec contractId 0); [contradiction|].
      destruct text; [contradiction | reflexivity]. }
  cbn [getContract createAnalysis updateUser MemStorage_IStorage].
  unfold bind at 1. unfold MemStorage.getContract at 1. rewrite Hg.
  destruct Hwf as [Ha Hr].
  unfold bind at 1. unfold MemStorage.createAnalysis at 1.
  cbn [InsertAnalysis.contractId InsertAnalysis.summary
       InsertAnalysis.riskyClauseIndices InsertAnalysis.fullAnalysis].
  rewrite JsMapFacts.set_absent.
  2:{ eapply JsMapFacts.get_above with (n := MemStorage.nextAnalysisId s); [|lia].
      eapply Forall_impl; [|exact Ha]. simpl. tauto. }
  fold (created_analysis s contractId r).
  unfold bind at 1. unfold MemStorage.updateUser, MemStorage.getUser.
  unfold bind at 1.
  cbn [MemStorage.users MemStorage.with_analyses].
  assert (Hr' : Forall (fun kv => fst kv < MemStorage.nextRiskyClauseId s)
                       (MemStorage.riskyClauses s))
    by (eapply Forall_impl; [|exact Hr]; simpl; tauto).
  unfold store_after_analyze, users_after_update, flagged_clauses.
  destruct (JsMap.get (Contract.id contract) (MemStorage.users s)) as [u|];
    unfold ret, bind;
    (destruct (0 <? List.length (AnalysisResult.riskyClauseIndices r))%nat;
     [ rewrite forEach_store_if_flagged by (destruct s; exact Hr') | ]);
    destruct s; cbn; rewrite ?app_nil_r, ?Z.add_0_r; reflexivity.
Qed.

(** Every answer with a body comes from a request that passed the guard and
    named a stored contract. *)
Lemma post_analyze_contract_inv (s s' : MemStorage.t) (body : AnalyzeBody.t)
  (n : Z) (a : Analysis.t) :
  post_analyze_contract body s = (json n a, s') ->
  exists contractId text contract,
    AnalyzeBody.contractId body = Some contractId /\ contractId <> 0 /\
    AnalyzeBody.text body = Some text /\ text <> "" /\
    JsMap.get contractId (MemStorage.contracts s) = Some contract.
Proof.
  unfold post_analyze_contract.
  destruct (AnalyzeBody.contractId body) as [contractId|];
    [|unfold ret; discriminate].
  destruct (AnalyzeBody.text body) as [text|]; [|unfold ret; discriminate].
  destruct (Js.not_num contractId || Js.not_str text) eqn:G;
    [unfold ret; discriminate|].
  apply orb_false_elim in G. destruct G as [G1 G2].
  cbn [getContract MemStorage_IStorage]. unfold bind at 1.
  unfold MemStorage.getContract at 1.
  destruct (JsMap.get contractId (MemStorage.contracts s)) as [contract|] eqn:Hg;
    [|unfold ret; discriminate].
  intros _. exists contractId, text, contract. repeat split; auto.
  - intros ->. discriminate.
  - intros ->. discriminate.
Qed.

(** A request either fails, leaving the store as it was, or passes the guard
    and names a stored contract. *)
Lemma post_analyze_contract_cases (s : MemStorage.t) (body : AnalyzeBody.t) :
  (exists n t, post_analyze_contract body s = (message n t, s))
  \/ (exists contractId text contract,
        AnalyzeBody.contractId body = Some contractId /\ contractId <> 0 /\
        AnalyzeBody.text body = Some text /\ text <> "" /\
        JsMap.get contractId (MemStorage.contracts s) = Some contract).
Proof.
  unfold post_analyze_contract.
  destruct (AnalyzeBody.contractId body) as [contractId|];
    [|left; eexists _, _; reflexivity].
  destruct (AnalyzeBody.text body) as [text|];
    [|left; eexists _, _; reflexivity].
  destruct (Js.not_num contractId || Js.not_str text) eqn:G;
    [left; eexists _, _; reflexivity|].
  apply orb_false_elim in G. destruct G as [G1 G2].
  cbn [getContract MemStorage_IStorage]. unfold bind at 1.
  unfold MemStorage.getContract at 1.
  destruct (JsMap.get contractId (MemStorage.contracts s)) as [contract|] eqn:Hg;
    [|left; eexists _, _; reflexivity].
  right. exists contractId, text, contract. repeat split; auto.
  - intros ->. discriminate.
  - intros ->. discriminate.
Qed.

(** The guard: a request without a contract identifier or without text is
    answered 400 before any storage call. *)
Lemma post_analyze_contract_guard (S : Type) `{IStorage S} (s : S)
  (body : AnalyzeBody.t) :
  match AnalyzeBody.contractId body, AnalyzeBody.text body with
  | Some contractId, Some text => Js.not_num contractId || Js.not_str text
  | _, _ => true
  end = true ->
  post_analyze_contract body s
  = (message 400 "Contract ID and text are required", s).
Proof.
  unfold post_analyze_contract.
  destruct (AnalyzeBody.contractId body), (AnalyzeBody.text body);
    try reflexivity.
  now intros ->.
Qed.

(** The invariant holds of the store that [new MemStorage()] builds and is
    kept by the analyze route. *)
Lemma wf_constructor (now : Timestamp) (uuidv4 : nat -> string) :
  wf (MemStorage.constructor now uuidv4).
Proof.
  split; cbv -[Z.lt]; repeat constructor.
Qed.

Lemma number_clauses_spec (analysisId : Z) (l : list ClauseInfo.t) (next : Z) :
  Forall (fun kv => next <= fst kv < next + Z.of_nat (List.length l)
                    /\ RiskyClause.analysisId (snd kv) = analysisId)
         (number_clauses analysisId next l).
Proof.
  revert next. induction l as [|clauseInfo l IH]; intros next; simpl.
  - constructor.
  - constructor.
    + simpl. lia.
    + eapply Forall_impl; [|apply IH]. simpl. intros kv. lia.
Qed.

Lemma wf_store_after_analyze (s : MemStorage.t) (contract : Contract.t)
  (contractId : Z) (r : AnalysisResult.t) :
  wf s -> wf (store_after_analyze s contract contractId r).
Proof.
  intros [Ha Hr]. split; unfold store_after_analyze;
    cbn [MemStorage.analyses MemStorage.nextAnalysisId
         MemStorage.riskyClauses MemStorage.nextRiskyClauseId].
  - apply Forall_app. split.
    + eapply Forall_impl; [|exact Ha]. simpl. intros kv. lia.
    + constructor; [|constructor]. simpl. lia.
  - apply Forall_app. split.
    + eapply Forall_impl; [|exact Hr]. simpl. intros kv. lia.
    + eapply Forall_impl; [|apply number_clauses_spec]. simpl. intros kv. lia.
Qed.

(** The risky clauses that [getRiskyClausesByAnalysisId] finds for the
    analysis just created are the records that the loop stored. *)
Lemma stored_clauses_after_analyze (s : MemStorage.t) (contract : Contract.t)
  (contractId : Z) (r : AnalysisResult.t) :
  wf s ->
  fst (MemStorage.getRiskyClausesByAnalysisId (MemStorage.nextAnalysisId s)
         (store_after_analyze s contract contractId r))
  = JsMap.values
      (number_clauses (MemStorage.nextAnalysisId s)
         (MemStorage.nextRiskyClauseId s)
         (flagged_clauses (AnalysisResult.riskyClauseIndices r))).
Proof.
  intros [_ Hr]. unfold MemStorage.getRiskyClausesByAnalysisId, JsMap.values.
  cbn [fst store_after_analyze MemStorage.riskyClauses].
  rewrite map_app, filter_app.
  assert (Hold : filter (fun clause =>
                           Z.eqb (RiskyClause.analysisId clause)
                                 (MemStorage.nextAnalysisId s))
                        (map snd (MemStorage.riskyClauses s)) = []).
  { induction Hr as [|kv m [_ Hlt] _ IH]; simpl; auto.
    destruct (Z.eqb_spec (RiskyClause.analysisId (snd kv))
                         (MemStorage.nextAnalysisId s)); [lia | exact IH]. }
  rewrite Hold. cbn [app].
  generalize (MemStorage.nextRiskyClauseId s).
  induction (flagged_clauses (AnalysisResult.riskyClauseIndices r))
    as [|clauseInfo l IH]; intros next; simpl; auto.
  rewrite Z.eqb_refl. f_equal. apply IH.
Qed.

(** The invariant only reads the analyses, the risky clauses and their two
    counters, so every operation that leaves these alone keeps it: the
    writes to users, contracts and conversations do. *)
Lemma wf_frame (s s' : MemStorage.t) :
  MemStorage.analyses s' = MemStorage.analyses s ->
  MemStorage.riskyClauses s' = MemStorage.riskyClauses s ->
  MemStorage.nextAnalysisId s' = MemStorage.nextAnalysisId s ->
  MemStorage.nextRiskyClauseId s' = MemStorage.nextRiskyClauseId s ->
  wf s -> wf s'.
Proof.
  intros Ha Hr Hna Hnr [H1 H2]. split.
  - now rewrite Ha, Hna.
  - now rewrite Hr, Hnr, Hna.
Qed.

Lemma wf_updateUser (s : MemStorage.t) (id : Z) (userData : UserData.t) :
  wf s -> wf (snd (MemStorage.updateUser id userData s)).
Proof.
  unfold MemStorage.updateUser, MemStorage.getUser, bind, ret.
  destruct (JsMap.get id (MemStorage.users s)); auto.
  apply wf_frame; reflexivity.
Qed.

Lemma wf_createContract (s : MemStorage.t) (c : InsertContract.t)
  (now : Timestamp) :
  wf s -> wf (snd (MemStorage.createContract c now s)).
Proof. apply wf_frame; reflexivity. Qed.

Lemma wf_deleteContract (s : MemStorage.t) (id : Z) :
  wf s -> wf (snd (MemStorage.deleteContract id s)).
Proof.
  unfold MemStorage.deleteContract.
  destruct (JsMap.delete id (MemStorage.contracts s)).
  apply wf_frame; reflexivity.
Qed.

Lemma wf_createConversation (s : MemStorage.t) (c : InsertConversation.t)
  (now : Timestamp) :
  wf s -> wf (snd (MemStorage.createConversation c now s)).
Proof. apply wf_frame; reflexivity. Qed.

Lemma wf_updateConversation (s : MemStorage.t) (id : Z)
  (messages : list Message.t) (now : Timestamp) :
  wf s -> wf (snd (MemStorage.updateConversation id messages now s)).
Proof.
  unfold MemStorage.updateConversation, MemStorage.getConversation, bind, ret.
  destruct (JsMap.get id (MemStorage.conversations s)); auto.
  apply wf_frame; reflexivity.
Qed.

(** The analyze route keeps the invariant, whatever it answers. *)
Lemma wf_post_analyze_contract (s : MemStorage.t) (body : AnalyzeBody.t) :
  wf s -> wf (snd (post_analyze_contract body s)).
Proof.
  intros Hwf.
  destruct (post_analyze_contract_cases s body)
    as [(n & t & Hfail) | (contractId & text & contract & Hc & Hc0 & Ht & Ht0 & Hg)].
  - now rewrite Hfail.
  - rewrite (post_analyze_contract_ok _ Hwf Hc Hc0 Ht Ht0 Hg).
    now apply wf_store_after_analyze.
Qed.

(** The message route keeps the invariant, whatever it answers. *)
Lemma wf_post_conversation_message (s : MemStorage.t) (conversationId : Z)
  (body : QuestionBody.t) (draws : Draws.t) :
  wf s -> wf (snd (post_conversation_message conversationId body draws s)).
Proof.
  intros Hwf. unfold post_conversation_message.
  destruct (QuestionBody.question body) as [question|]; [|exact Hwf].
  destruct (Js.not_str question); [exact Hwf|].
  cbn [getConversation updateConversation MemStorage_IStorage].
  unfold bind at 1. unfold MemStorage.getConversation at 1.
  destruct (JsMap.get conversationId (MemStorage.conversations s))
    as [conversation|] eqn:Hg; [|exact Hwf].
  unfold bind, ret.
  match goal with
  | |- context [MemStorage.updateConversation ?i ?m ?t s] =>
      pose proof (wf_updateConversation i m t Hwf) as Hupd;
      destruct (MemStorage.updateConversation i m t s) as [updated s']
  end.
  exact Hupd.
Qed.

(** ** The two-section scenario *)

(** C1, as the code has it: for the scenario text the mock analysis finds the
    keyword "termination", so whatever the contract type it returns the risk
    level HIGH and the risky clause indices [0; 3] and does no segmentation;
    the analyze route, run with this text for any contract stored under a
    non-zero identifier in a store that satisfies the invariant, answers 200
    with that analysis and stores two risky clauses for it, index 0 at HIGH
    and index 3 at MEDIUM. *)
Theorem scenario_is_high_risk (s : MemStorage.t) (contractId : Z)
  (contract : Contract.t) (contractType : option string) :
  wf s ->
  contractId <> 0 ->
  JsMap.get contractId (MemStorage.contracts s) = Some contract ->
  (forall contractType' : string,
     let r := analyzeContract scenario_text contractType' in
     AnalysisResult.riskScore r = RiskLevel.HIGH
     /\ FullAnalysis.riskLevel (AnalysisResult.fullAnalysis r) = RiskLevel.HIGH
     /\ AnalysisResult.riskyClauseIndices r = [0; 3])
  /\ exists a s',
       post_analyze_contract
         (AnalyzeBody.mk (Some contractId) (Some scenario_text) contractType) s
       = (json 200 a, s')
       /\ Analysis.contractId a = contractId
       /\ FullAnalysis.riskLevel (Analysis.fullAnalysis a) = RiskLevel.HIGH
       /\ Analysis.riskyClauseIndices a = [0; 3]
       /\ map (fun c => (RiskyClause.clauseIndex c, RiskyClause.riskLevel c))
              (fst (MemStorage.getRiskyClausesByAnalysisId (Analysis.id a) s'))
          = [(0, RiskLevel.HIGH); (3, RiskLevel.MEDIUM)].
Proof.
  intros Hwf Hne Hg. split.
  - intros contractType'. vm_compute. auto.
  - assert (Htext : scenario_text <> "") by discriminate.
    eexists _, _. split.
    + exact (@post_analyze_contract_ok s
               (AnalyzeBody.mk (Some contractId) (Some scenario_text)
                  contractType)
               contractId scenario_text contract Hwf eq_refl Hne eq_refl
               Htext Hg).
    + cbn [Analysis.id Analysis.contractId Analysis.fullAnalysis
           Analysis.riskyClauseIndices created_analysis
           AnalyzeBody.contractType].
      rewrite stored_clauses_after_analyze by exact Hwf.
      generalize (Js.or_str contractType "").
      intros contractType'. now vm_compute.
Qed.

Lemma scenario_is_high_risk_witness :
  wf demo_store
  /\ 1 <> 0
  /\ (exists contract,
        JsMap.get 1 (MemStorage.contracts demo_store) = Some contract)
  /\ exists a s',
       post_analyze_contract
         (AnalyzeBody.mk (Some 1) (Some scenario_text) None) demo_store
       = (json 200 a, s')
       /\ Analysis.contractId a = 1
       /\ FullAnalysis.riskLevel (Analysis.fullAnalysis a) = RiskLevel.HIGH
       /\ Analysis.riskyClauseIndices a = [0; 3]
       /\ map (fun c => (RiskyClause.clauseIndex c, RiskyClause.riskLevel c))
              (fst (MemStorage.getRiskyClausesByAnalysisId (Analysis.id a) s'))
          = [(0, RiskLevel.HIGH); (3, RiskLevel.MEDIUM)].
Proof.
  assert (Hwf : wf demo_store) by apply wf_constructor.
  assert (Hne : 1 <> 0) by lia.
  destruct (JsMap.get 1 (MemStorage.contracts demo_store))
    as [contract|] eqn:Hg; [|vm_compute in Hg; discriminate].
  split; [exact Hwf|]. split; [exact Hne|].
  split; [exists contract; reflexivity|].
  exact (proj2 (@scenario_is_high_risk demo_store 1 contract None
                  Hwf Hne Hg)).
Defined.

(** C1 refuted as written: on the scenario text the document-level risk
    level is not MEDIUM and the risky clause indices are not [0]. *)
Lemma scenario_not_medium :
  FullAnalysis.riskLevel
    (AnalysisResult.fullAnalysis (analyzeContract scenario_text ""))
  <> RiskLevel.MEDIUM
  /\ AnalysisResult.riskyClauseIndices (analyzeContract scenario_text "") <> [0].
Proof.
  split; vm_compute; discriminate.
Qed.

(** ** Rejected documents *)

(** C2, as the code has it: a request whose text is missing or is the empty
    string (the text is not trimmed) is answered 400 "Contract ID and text
    are required", on any storage, and the store is left as it was: no
    Analysis record is created. *)
Theorem analyze_rejects_empty_text (S : Type) `{IStorage S} (s : S)
  (body : AnalyzeBody.t) :
  AnalyzeBody.text body = None \/ AnalyzeBody.text body = Some "" ->
  post_analyze_contract body s
  = (message 400 "Contract ID and text are required", s).
Proof.
  intros Htext. apply post_analyze_contract_guard.
  destruct (AnalyzeBody.contractId body) as [contractId|]; [|reflexivity].
  destruct Htext as [-> | ->]; [reflexivity|].
  simpl. apply orb_true_r.
Qed.

Lemma analyze_rejects_empty_text_witness :
  (AnalyzeBody.text (AnalyzeBody.mk (Some 1) (Some "") None) = None
   \/ AnalyzeBody.text (AnalyzeBody.mk (Some 1) (Some "") None) = Some "")
  /\ post_analyze_contract (AnalyzeBody.mk (Some 1) (Some "") None) demo_store
     = (message 400 "Contract ID and text are required", demo_store).
Proof.
  split.
  - right. reflexivity.
  - apply (analyze_rejects_empty_text demo_store
             (AnalyzeBody.mk (Some 1) (Some "") None)).
    right. reflexivity.
Defined.

(** C2 refuted as written: the text of three spaces is empty after trimming,
    yet the request for contract 1 is answered 200 and a new Analysis record,
    absent before, is stored. *)
Lemma whitespace_text_is_analyzed :
  Js.blank "   " = true
  /\ exists a s',
       post_analyze_contract (AnalyzeBody.mk (Some 1) (Some "   ") None) demo_store
       = (json 200 a, s')
       /\ JsMap.get (Analysis.id a) (MemStorage.analyses demo_store) = None
       /\ JsMap.get (Analysis.id a) (MemStorage.analyses s') = Some a.
Proof.
  split; [reflexivity|].
  destruct (post_analyze_contract
              (AnalyzeBody.mk (Some 1) (Some "   ") None) demo_store)
    as [resp s'] eqn:E.
  vm_compute in E. injection E as <- <-.
  eexists _, _. split; [reflexivity|]. split; reflexivity.
Qed.

(** ** Document level and stored clause levels *)

(** The level that the mock analysis assigns is decided by the keywords. *)
Lemma analyzeContract_riskScore (text contractType : string) :
  AnalysisResult.riskScore (analyzeContract text contractType)
  = if hasHighRisk text then RiskLevel.HIGH
    else if hasMediumRisk text then RiskLevel.MEDIUM
    else RiskLevel.LOW.
Proof. reflexivity. Qed.

Lemma analyzeContract_riskLevel (text contractType : string) :
  FullAnalysis.riskLevel
    (AnalysisResult.fullAnalysis (analyzeContract text contractType))
  = AnalysisResult.riskScore (analyzeContract text contractType).
Proof. reflexivity. Qed.

(** C3, as the code has it: the document level is derived from keywords of
    the text; whenever the level of an analysis created by the analyze route
    is HIGH or LOW, it equals the greatest level among the risky clauses
    stored for that analysis, LOW standing for the empty set. *)
Theorem level_is_maximum_unless_medium (s s' : MemStorage.t)
  (body : AnalyzeBody.t) (a : Analysis.t) :
  wf s ->
  post_analyze_contract body s = (json 200 a, s') ->
  FullAnalysis.riskLevel (Analysis.fullAnalysis a) <> RiskLevel.MEDIUM ->
  FullAnalysis.riskLevel (Analysis.fullAnalysis a)
  = RiskLevel.maximum (stored_levels (Analysis.id a) s').
Proof.
  intros Hwf Hrun Hne.
  destruct (post_analyze_contract_inv _ _ Hrun)
    as (contractId & text & contract & Hc & Hc0 & Ht & Ht0 & Hg).
  rewrite (post_analyze_contract_ok _ Hwf Hc Hc0 Ht Ht0 Hg) in Hrun.
  injection Hrun as <- <-.
  unfold stored_levels. cbn [Analysis.id created_analysis].
  rewrite stored_clauses_after_analyze by exact Hwf.
  cbn [Analysis.fullAnalysis created_analysis] in *.
  revert Hne. unfold analyzeContract.
  destruct (hasHighRisk text); [|destruct (hasMediumRisk text)];
    cbn; intros Hne; try reflexivity.
  now contradiction Hne.
Qed.

Lemma level_is_maximum_unless_medium_witness :
  let body := AnalyzeBody.mk (Some 2) (Some scenario_text) (Some "NDA") in
  let a := created_analysis demo_store 2 (analyzeContract scenario_text "NDA") in
  let s' := snd (post_analyze_contract body demo_store) in
  wf demo_store
  /\ post_analyze_contract body demo_store = (json 200 a, s')
  /\ FullAnalysis.riskLevel (Analysis.fullAnalysis a) <> RiskLevel.MEDIUM
  /\ FullAnalysis.riskLevel (Analysis.fullAnalysis a)
     = RiskLevel.maximum (stored_levels (Analysis.id a) s').
Proof.
  intros body a s'.
  assert (Hwf : wf demo_store) by apply wf_constructor.
  assert (Hrun : post_analyze_contract body demo_store = (json 200 a, s'))
    by (vm_compute; reflexivity).
  assert (Hne : FullAnalysis.riskLevel (Analysis.fullAnalysis a) <> RiskLevel.MEDIUM)
    by (vm_compute; discriminate).
  split; [exact Hwf|]. split; [exact Hrun|]. split; [exact Hne|].
  exact (@level_is_maximum_unless_medium demo_store s' body a Hwf Hrun Hne).
Defined.

(** C3 refuted as written: a text whose only keyword is "payment" gets the
    document level MEDIUM while no risky clause is stored for the analysis,
    so the greatest stored level is LOW. *)
Lemma medium_level_without_clauses :
  exists a s',
    post_analyze_contract
      (AnalyzeBody.mk (Some 1) (Some "Payment is due within 30 days.") None)
      demo_store
    = (json 200 a, s')
    /\ FullAnalysis.riskLevel (Analysis.fullAnalysis a) = RiskLevel.MEDIUM
    /\ stored_levels (Analysis.id a) s' = []
    /\ FullAnalysis.riskLevel (Analysis.fullAnalysis a)
       <> RiskLevel.maximum (stored_levels (Analysis.id a) s').
Proof.
  destruct (post_analyze_contract
              (AnalyzeBody.mk (Some 1) (Some "Payment is due within 30 days.") None)
              demo_store) as [resp s'] eqn:E.
  vm_compute in E. injection E as <- <-.
  eexists _, _. split; [reflexivity|].
  repeat split; vm_compute; discriminate || reflexivity.
Qed.

(** The seeded analyses are not aggregates either: analysis 3 of a fresh
    store has the level MEDIUM and a stored clause at HIGH. *)
Example seeded_medium_analysis_has_high_clause :
  option_map (fun a => FullAnalysis.riskLevel (Analysis.fullAnalysis a))
             (JsMap.get 3 (MemStorage.analyses demo_store))
  = Some RiskLevel.MEDIUM
  /\ stored_levels 3 demo_store = [RiskLevel.HIGH; RiskLevel.MEDIUM].
Proof. split; reflexivity. Qed.

(** ** One assessment per flagged index *)

Lemma filter_andb (A : Type) (f g : A -> bool) (l : list A) :
  filter (fun x => f x && g x) l = filter g (filter f l).
Proof.
  induction l as [|x l IH]; simpl; [reflexivity|].
  destruct (f x); simpl; [destruct (g x)|]; now rewrite ?IH.
Qed.

(** What the route does store: for an analysis it created from a store that
    satisfies the invariant, a flagged index has exactly one risky clause,
    except the index 1, which has none. *)
Lemma assessments_per_flagged_index (s s' : MemStorage.t)
  (body : AnalyzeBody.t) (a : Analysis.t) (clauseIndex : Z) :
  wf s ->
  post_analyze_contract body s = (json 200 a, s') ->
  In clauseIndex (Analysis.riskyClauseIndices a) ->
  count_assessments (Analysis.id a) clauseIndex s'
  = if Z.eqb clauseIndex 1 then 0%nat else 1%nat.
Proof.
  intros Hwf Hrun.
  destruct (post_analyze_contract_inv _ _ Hrun)
    as (contractId & text & contract & Hc & Hc0 & Ht & Ht0 & Hg).
  rewrite (post_analyze_contract_ok _ Hwf Hc Hc0 Ht Ht0 Hg) in Hrun.
  injection Hrun as <- <-.
  unfold count_assessments. rewrite filter_andb.
  pose proof (stored_clauses_after_analyze contract contractId
                (analyzeContract text
                   (Js.or_str (AnalyzeBody.contractType body) "")) Hwf) as Hst.
  unfold MemStorage.getRiskyClausesByAnalysisId in Hst. cbn [fst] in Hst.
  cbn [Analysis.id Analysis.riskyClauseIndices created_analysis].
  rewrite Hst. unfold analyzeContract.
  destruct (hasHighRisk text); [|destruct (hasMediumRisk text)];
    cbn [AnalysisResult.riskyClauseIndices In].
  - intros [<- | [<- | []]]; reflexivity.
  - intros [<- | []]; reflexivity.
  - intros [].
Qed.

(** C4 fails on the code: for a text whose only keyword is "payment" the
    analysis created for contract 1 flags the index 1, and the store holds no
    risky clause for that analysis and index. *)
Theorem flagged_index_without_assessment :
  exists a s',
    post_analyze_contract
      (AnalyzeBody.mk (Some 1) (Some "Payment is due within 30 days.") None)
      demo_store
    = (json 200 a, s')
    /\ Analysis.riskyClauseIndices a = [1]
    /\ count_assessments (Analysis.id a) 1 s' = 0%nat
    /\ fst (MemStorage.getRiskyClausesByAnalysisId (Analysis.id a) s') = [].
Proof.
  destruct (post_analyze_contract
              (AnalyzeBody.mk (Some 1) (Some "Payment is due within 30 days.") None)
              demo_store) as [resp s'] eqn:E.
  vm_compute in E. injection E as <- <-.
  eexists _, _. split; [reflexivity|].
  repeat split; reflexivity.
Qed.

(** ** Asking in a conversation *)

(** C5: a message request answered 200 found a stored conversation and
    answers with its update, which is what the store then holds under the
    same identifier: its messages are the prior messages, unchanged and in
    order, followed by one user message carrying the question and then one
    assistant message carrying the answer, so the count grows by exactly 2;
    the other conversations are as before; and the request writes the store
    exactly once, with the whole pair, so no store that a reader can see
    holds the user message without the assistant message. *)
Theorem ask_appends_one_pair (s s' : MemStorage.t) (conversationId : Z)
  (body : QuestionBody.t) (draws : Draws.t)
  (resp : Response (option Conversation.t)) :
  post_conversation_message conversationId body draws s = (resp, s') ->
  status resp = 200 ->
  exists conversation updated question,
    QuestionBody.question body = Some question
    /\ JsMap.get conversationId (MemStorage.conversations s) = Some conversation
    /\ resp = json 200 (Some updated)
    /\ JsMap.get conversationId (MemStorage.conversations s') = Some updated
    /\ Conversation.messages updated
       = Conversation.messages conversation
         ++ asked_pair conversation question draws
    /\ List.length (Conversation.messages updated)
       = (List.length (Conversation.messages conversation) + 2)%nat
    /\ (forall other, other <> conversationId ->
          JsMap.get other (MemStorage.conversations s')
          = JsMap.get other (MemStorage.conversations s))
    /\ post_conversation_message conversationId body draws (s, [])
       = (resp, (s', [s'])).
Proof.
  unfold post_conversation_message.
  destruct (QuestionBody.question body) as [question|];
    [|unfold ret; cbv beta; intros [= <- <-]; discriminate].
  destruct (Js.not_str question);
    [unfold ret; cbv beta; intros [= <- <-]; discriminate|].
  cbn [getConversation updateConversation MemStorage_IStorage Logged_IStorage].
  unfold observe, commit, bind, MemStorage.updateConversation,
    MemStorage.getConversation, bind, ret. cbv beta. cbn [fst snd].
  destruct (JsMap.get conversationId (MemStorage.conversations s))
    as [conversation|] eqn:Hg; [|intros [= <- <-]; discriminate].
  rewrite Hg. intros [= <- <-] _.
  eexists conversation, _, question.
  split; [reflexivity|]. split; [reflexivity|]. split; [reflexivity|].
  cbn [MemStorage.conversations MemStorage.with_conversations
       Conversation.messages].
  split; [apply JsMapFacts.get_set_same|].
  split; [now rewrite <- app_assoc|].
  split; [rewrite !length_app; simpl; lia|].
  split; [now intros other Hne; apply JsMapFacts.get_set_other|].
  cbv beta. cbn [fst snd]. rewrite Hg. reflexivity.
Qed.

Lemma ask_appends_one_pair_witness :
  let body := QuestionBody.mk (Some "When is the invoice due?") in
  let draws := Draws.mk "k3j9x0q2a" "2024-01-02T09:00:00.000Z"
                        "p7m1z8w4c" "2024-01-02T09:00:01.000Z"
                        "2024-01-02T09:00:02.000Z" in
  let run := post_conversation_message 1 body draws demo_store in
  post_conversation_message 1 body draws demo_store = (fst run, snd run)
  /\ status (fst run) = 200
  /\ exists conversation updated question,
       QuestionBody.question body = Some question
       /\ JsMap.get 1 (MemStorage.conversations demo_store) = Some conversation
       /\ fst run = json 200 (Some updated)
       /\ JsMap.get 1 (MemStorage.conversations (snd run)) = Some updated
       /\ Conversation.messages updated
          = Conversation.messages conversation
            ++ asked_pair conversation question draws
       /\ List.length (Conversation.messages updated)
          = (List.length (Conversation.messages conversation) + 2)%nat
       /\ (forall other, other <> 1 ->
             JsMap.get other (MemStorage.conversations (snd run))
             = JsMap.get other (MemStorage.conversations demo_store))
       /\ post_conversation_message 1 body draws (demo_store, [])
          = (fst run, (snd run, [snd run])).
Proof.
  intros body draws run.
  assert (Hrun : post_conversation_message 1 body draws demo_store
                 = (fst run, snd run)) by (vm_compute; reflexivity).
  assert (Hok : status (fst run) = 200) by (vm_compute; reflexivity).
  split; [exact Hrun|]. split; [exact Hok|].
  exact (@ask_appends_one_pair demo_store (snd run) 1 body draws (fst run)
           Hrun Hok).
Defined.

(** A message request that is not answered 200 calls no writing operation
    and leaves the store as it was. *)
Lemma ask_failure_writes_nothing (s s' : MemStorage.t) (log : list MemStorage.t)
  (conversationId : Z) (body : QuestionBody.t) (draws : Draws.t)
  (resp : Response (option Conversation.t)) :
  post_conversation_message conversationId body draws (s, []) = (resp, (s', log)) ->
  status resp <> 200 ->
  s' = s /\ log = [].
Proof.
  unfold post_conversation_message.
  destruct (QuestionBody.question body) as [question|];
    [|unfold ret; cbv beta; intros [= <- <- <-]; auto].
  destruct (Js.not_str question);
    [unfold ret; cbv beta; intros [= <- <- <-]; auto|].
  cbn [getConversation updateConversation MemStorage_IStorage Logged_IStorage].
  unfold observe, commit, bind, MemStorage.updateConversation,
    MemStorage.getConversation, bind, ret. cbv beta. cbn [fst snd].
  destruct (JsMap.get conversationId (MemStorage.conversations s))
    as [conversation|] eqn:Hg.
  - cbv beta iota. cbn [fst snd]. rewrite Hg. cbv beta iota.
    intros [= <- <- <-]. simpl. congruence.
  - cbv beta iota. intros [= <- <- <-]; auto.
Qed.

(** C6, as the code has it: a request whose question is missing or is the
    empty string (the question is not trimmed) is answered 400 "Question is
    required", on any storage, and the store is left as it was: no message
    is appended. *)
Theorem ask_rejects_empty_question (S : Type) `{IStorage S} (s : S)
  (conversationId : Z) (body : QuestionBody.t) (draws : Draws.t) :
  QuestionBody.question body = None \/ QuestionBody.question body = Some "" ->
  post_conversation_message conversationId body draws s
  = (message 400 "Question is required", s).
Proof.
  unfold post_conversation_message. intros [-> | ->]; reflexivity.
Qed.

Lemma ask_rejects_empty_question_witness :
  let draws := Draws.mk "k3j9x0q2a" "2024-01-02T09:00:00.000Z"
                        "p7m1z8w4c" "2024-01-02T09:00:01.000Z"
                        "2024-01-02T09:00:02.000Z" in
  (QuestionBody.question (QuestionBody.mk (Some "")) = None
   \/ QuestionBody.question (QuestionBody.mk (Some "")) = Some "")
  /\ post_conversation_message 1 (QuestionBody.mk (Some "")) draws demo_store
     = (message 400 "Question is required", demo_store).
Proof.
  intros draws. split.
  - right. reflexivity.
  - apply (@ask_rejects_empty_question MemStorage.t _ demo_store 1
             (QuestionBody.mk (Some "")) draws).
    right. reflexivity.
Defined.

(** C6 refuted as written: the question of three spaces is blank after
    trimming, yet the request on conversation 1, which holds four messages,
    is answered 200 and the stored conversation then holds six. *)
Lemma whitespace_question_is_answered :
  Js.blank "   " = true
  /\ exists conversation updated s',
       JsMap.get 1 (MemStorage.conversations demo_store) = Some conversation
       /\ post_conversation_message 1 (QuestionBody.mk (Some "   "))
            (Draws.mk "k3j9x0q2a" "2024-01-02T09:00:00.000Z"
                      "p7m1z8w4c" "2024-01-02T09:00:01.000Z"
                      "2024-01-02T09:00:02.000Z")
            demo_store
          = (json 200 (Some updated), s')
       /\ JsMap.get 1 (MemStorage.conversations s') = Some updated
       /\ List.length (Conversation.messages conversation) = 4%nat
       /\ List.length (Conversation.messages updated) = 6%nat.
Proof.
  split; [reflexivity|].
  destruct (post_conversation_message 1 (QuestionBody.mk (Some "   "))
              (Draws.mk "k3j9x0q2a" "2024-01-02T09:00:00.000Z"
                        "p7m1z8w4c" "2024-01-02T09:00:01.000Z"
                        "2024-01-02T09:00:02.000Z")
              demo_store) as [resp s'] eqn:E.
  vm_compute in E. injection E as <- <-.
  eexists _, _, _. split; [reflexivity|]. split; [reflexivity|].
  repeat split; reflexivity.
Qed.

(** ** Analysing a contract again *)

Lemma find_app_first (A : Type) (f : A -> bool) (l l' : list A) (x : A) :
  find f l = Some x -> find f (l ++ l') = Some x.
Proof.
  induction l as [|y l IH]; simpl; [discriminate|].
  destruct (f y); auto.
Qed.

(** Once a contract has an analysis, the analysis that the lookup by
    contract returns does not change when the contract is analysed again:
    the new record is appended behind it. *)
Lemma reanalysis_keeps_first (s s' : MemStorage.t) (body : AnalyzeBody.t)
  (a old : Analysis.t) (contractId : Z) :
  wf s ->
  fst (MemStorage.getAnalysisByContractId contractId s) = Some old ->
  post_analyze_contract body s = (json 200 a, s') ->
  fst (MemStorage.getAnalysisByContractId contractId s') = Some old
  /\ Analysis.id old < Analysis.id a.
Proof.
  intros Hwf Hold Hrun.
  destruct (post_analyze_contract_inv _ _ Hrun)
    as (cid & text & contract & Hc & Hc0 & Ht & Ht0 & Hg).
  rewrite (post_analyze_contract_ok _ Hwf Hc Hc0 Ht Ht0 Hg) in Hrun.
  injection Hrun as <- <-.
  unfold MemStorage.getAnalysisByContractId, JsMap.values in *.
  cbn [fst store_after_analyze MemStorage.analyses] in *.
  split.
  - rewrite map_app. now apply find_app_first.
  - apply find_some in Hold. destruct Hold as [Hin _].
    apply in_map_iff in Hin. destruct Hin as ([k v] & Hv & Hin).
    simpl in Hv. subst v.
    destruct Hwf as [Ha _]. rewrite Forall_forall in Ha.
    specialize (Ha _ Hin). simpl in Ha.
    cbn [Analysis.id created_analysis]. lia.
Qed.

(** C7 fails on the code: contract 1 of a fresh store has the analysis 1;
    analysing it again is answered 200 with a new analysis of the same
    contract and a greater identifier, and both records are stored, yet the
    lookup by contract still answers with analysis 1. *)
Theorem reanalysis_is_not_read_back :
  exists a old s',
    post_analyze_contract
      (AnalyzeBody.mk (Some 1) (Some scenario_text) None) demo_store
    = (json 200 a, s')
    /\ JsMap.get 1 (MemStorage.analyses demo_store) = Some old
    /\ JsMap.get 1 (MemStorage.analyses s') = Some old
    /\ JsMap.get (Analysis.id a) (MemStorage.analyses s') = Some a
    /\ Analysis.contractId old = 1 /\ Analysis.contractId a = 1
    /\ Analysis.id old < Analysis.id a
    /\ get_analysis_by_contract 1 s' = (json 200 old, s')
    /\ Analysis.riskyClauseIndices old <> Analysis.riskyClauseIndices a.
Proof.
  destruct (post_analyze_contract
              (AnalyzeBody.mk (Some 1) (Some scenario_text) None) demo_store)
    as [resp s'] eqn:E.
  vm_compute in E. injection E as <- <-.
  eexists _, _, _. split; [reflexivity|]. split; [reflexivity|].
  repeat split; try reflexivity. vm_compute. discriminate.
Qed.

(** ** Direct question and first question of a conversation *)

(** C8: for every stored contract, every non-empty question and every stored
    conversation on that contract with an empty history, the direct question
    route answers 200 with an answer text and leaves the store as it was,
    and the message route answers 200 with a conversation of two messages,
    the question and then an assistant message whose content is that same
    answer text. *)
Theorem direct_answer_is_first_answer (s : MemStorage.t)
  (contractId conversationId : Z) (question : string) (draws : Draws.t)
  (contract : Contract.t) (conversation : Conversation.t) :
  JsMap.get contractId (MemStorage.contracts s) = Some contract ->
  contractId <> 0 ->
  question <> "" ->
  JsMap.get conversationId (MemStorage.conversations s) = Some conversation ->
  Conversation.contractId conversation = contractId ->
  Conversation.messages conversation = [] ->
  exists answer updated s',
    post_contract_qa (QaBody.mk (Some contractId) (Some question)) s
    = (json 200 answer, s)
    /\ post_conversation_message conversationId
         (QuestionBody.mk (Some question)) draws s
       = (json 200 (Some updated), s')
    /\ Conversation.messages updated
       = [ Message.mk (Draws.userId draws) Role.user question
             (Draws.userTime draws);
           Message.mk (Draws.aiId draws) Role.assistant answer
             (Draws.aiTime draws) ].
Proof.
  intros Hc Hc0 Hq Hconv Hcid Hmsgs.
  exists (answerContractQuestion contractId question).
  unfold post_contract_qa, post_conversation_message.
  cbn [QaBody.contractId QaBody.question QuestionBody.question].
  assert (Hq' : Js.not_str question = false)
    by (destruct question; [contradiction | reflexivity]).
  assert (Hc0' : Js.not_num contractId = false)
    by (unfold Js.not_num; destruct (Z.eqb_spec contractId 0);
        [contradiction | reflexivity]).
  rewrite Hq', Hc0'. cbn [orb].
  cbn [getContract getConversation updateConversation MemStorage_IStorage].
  unfold bind, MemStorage.getContract, MemStorage.updateConversation,
    MemStorage.getConversation, bind, ret.
  rewrite Hc, Hconv, Hmsgs, Hcid. cbv beta iota. rewrite Hconv.
  eexists _, _. split; [reflexivity|]. split; [reflexivity|]. reflexivity.
Qed.

(** Without a question neither route answers: both reply 400 and leave the
    store as it was. *)
Lemma no_question_no_answer (S : Type) `{IStorage S} (s : S)
  (contractId : option Z) (conversationId : Z) (question : option string)
  (draws : Draws.t) :
  question = None \/ question = Some "" ->
  post_contract_qa (QaBody.mk contractId question) s
  = (message 400 "Contract ID and question are required", s)
  /\ post_conversation_message conversationId (QuestionBody.mk question) draws s
     = (message 400 "Question is required", s).
Proof.
  intros Hq. split.
  - unfold post_contract_qa. cbn [QaBody.contractId QaBody.question].
    destruct contractId as [contractId|]; [|reflexivity].
    destruct Hq as [-> | ->]; [reflexivity|].
    cbn [Js.not_str]. now rewrite orb_true_r.
  - unfold post_conversation_message. cbn [QuestionBody.question].
    destruct Hq as [-> | ->]; reflexivity.
Qed.

Lemma direct_answer_is_first_answer_witness :
  let s := snd (MemStorage.createConversation (InsertConversation.mk 1 3 [])
                  "2024-01-02T08:59:00.000Z" demo_store) in
  let draws := Draws.mk "k3j9x0q2a" "2024-01-02T09:00:00.000Z"
                        "p7m1z8w4c" "2024-01-02T09:00:01.000Z"
                        "2024-01-02T09:00:02.000Z" in
  let question := "Can they terminate early?" in
  exists contract conversation,
    JsMap.get 3 (MemStorage.contracts s) = Some contract
    /\ 3 <> 0
    /\ question <> ""
    /\ JsMap.get 2 (MemStorage.conversations s) = Some conversation
    /\ Conversation.contractId conversation = 3
    /\ Conversation.messages conversation = []
    /\ exists answer updated s',
         post_contract_qa (QaBody.mk (Some 3) (Some question)) s
         = (json 200 answer, s)
         /\ post_conversation_message 2 (QuestionBody.mk (Some question)) draws s
            = (json 200 (Some updated), s')
         /\ Conversation.messages updated
            = [ Message.mk (Draws.userId draws) Role.user question
                  (Draws.userTime draws);
                Message.mk (Draws.aiId draws) Role.assistant answer
                  (Draws.aiTime draws) ].
Proof.
  intros s draws question.
  destruct (JsMap.get 3 (MemStorage.contracts s)) as [contract|] eqn:Hc;
    [|vm_compute in Hc; discriminate].
  destruct (JsMap.get 2 (MemStorage.conversations s)) as [conversation|] eqn:Hv;
    [|vm_compute in Hv; discriminate].
  assert (Hcid : Conversation.contractId conversation = 3)
    by (vm_compute in Hv; injection Hv as <-; reflexivity).
  assert (Hmsgs : Conversation.messages conversation = [])
    by (vm_compute in Hv; injection Hv as <-; reflexivity).
  assert (Hc0 : 3 <> 0) by lia.
  assert (Hq : question <> "") by discriminate.
  exists contract, conversation.
  split; [reflexivity|]. split; [exact Hc0|]. split; [exact Hq|].
  split; [reflexivity|]. split; [exact Hcid|]. split; [exact Hmsgs|].
  exact (@direct_answer_is_first_answer s 3 2 question draws contract
           conversation Hc Hc0 Hq Hv Hcid Hmsgs).
Defined.

(** ** Running the analysis twice *)

Lemma number_clauses_payloads (analysisId analysisId' next next' : Z)
  (l : list ClauseInfo.t) :
  map clause_payload (JsMap.values (number_clauses analysisId next l))
  = map clause_payload (JsMap.values (number_clauses analysisId' next' l)).
Proof.
  revert next next'. induction l as [|clauseInfo l IH]; intros next next'; simpl.
  - reflexivity.
  - f_equal. apply IH.
Qed.

(** The clauses stored for an analysis are not touched by a later analysis. *)
Lemma stored_clauses_of_earlier_analysis (s : MemStorage.t)
  (contract : Contract.t) (contractId analysisId : Z) (r : AnalysisResult.t) :
  analysisId < MemStorage.nextAnalysisId s ->
  fst (MemStorage.getRiskyClausesByAnalysisId analysisId
         (store_after_analyze s contract contractId r))
  = fst (MemStorage.getRiskyClausesByAnalysisId analysisId s).
Proof.
  intros Hlt. unfold MemStorage.getRiskyClausesByAnalysisId, JsMap.values.
  cbn [fst store_after_analyze MemStorage.riskyClauses].
  rewrite map_app, filter_app.
  match goal with |- ?old ++ ?new = _ => assert (Hnew : new = []) end.
  { generalize (number_clauses_spec (MemStorage.nextAnalysisId s)
                  (flagged_clauses (AnalysisResult.riskyClauseIndices r))
                  (MemStorage.nextRiskyClauseId s)).
    induction 1 as [|kv m [_ Hid] _ IH]; simpl; auto.
    rewrite Hid. destruct (Z.eqb_spec (MemStorage.nextAnalysisId s) analysisId);
      [lia | exact IH]. }
  rewrite Hnew. apply app_nil_r.
Qed.

(** C9: from a store that satisfies the invariant, two analyze requests with
    the same body, one after the other, are answered alike: the same status
    and, apart from the identifier, the same analysis, that is the same
    contract, summary, risky clause indices and full analysis with its risk
    level; the clause sequences stored for the two analyses agree apart from
    identifiers, and the second request leaves the clauses of the first as
    they were. *)
Theorem analysis_is_repeatable (s s1 s2 : MemStorage.t) (body : AnalyzeBody.t)
  (r1 r2 : Response Analysis.t) :
  wf s ->
  post_analyze_contract body s = (r1, s1) ->
  post_analyze_contract body s1 = (r2, s2) ->
  Response_map analysis_payload r1 = Response_map analysis_payload r2
  /\ (forall a1 a2, r1 = json 200 a1 -> r2 = json 200 a2 ->
        stored_clause_payloads (Analysis.id a1) s1
        = stored_clause_payloads (Analysis.id a2) s2
        /\ stored_clause_payloads (Analysis.id a1) s2
           = stored_clause_payloads (Analysis.id a1) s1).
Proof.
  intros Hwf Hrun1 Hrun2.
  destruct (post_analyze_contract_cases s body)
    as [(n & t & Hfail) | (contractId & text & contract & Hc & Hc0 & Ht & Ht0 & Hg)].
  - rewrite Hfail in Hrun1. injection Hrun1 as <- <-.
    rewrite Hfail in Hrun2. injection Hrun2 as <- <-.
    split; [reflexivity|]. intros a1 a2 H1. discriminate H1.
  - rewrite (post_analyze_contract_ok _ Hwf Hc Hc0 Ht Ht0 Hg) in Hrun1.
    injection Hrun1 as <- <-.
    pose proof (wf_store_after_analyze contract contractId
                  (analyzeContract text
                     (Js.or_str (AnalyzeBody.contractType body) "")) Hwf) as Hwf1.
    rewrite (post_analyze_contract_ok _ Hwf1 Hc Hc0 Ht Ht0 Hg) in Hrun2.
    injection Hrun2 as <- <-.
    split; [reflexivity|].
    intros a1 a2 [= <-] [= <-].
    unfold stored_clause_payloads. cbn [Analysis.id created_analysis].
    split.
    + rewrite (stored_clauses_after_analyze _ _ _ Hwf1).
      rewrite (stored_clauses_after_analyze _ _ _ Hwf).
      apply number_clauses_payloads.
    + rewrite stored_clauses_of_earlier_analysis; [reflexivity|].
      cbn [store_after_analyze MemStorage.nextAnalysisId]. lia.
Qed.

Lemma analysis_is_repeatable_witness :
  let body := AnalyzeBody.mk (Some 1) (Some scenario_text)
                (Some "Service Contract") in
  let run1 := post_analyze_contract body demo_store in
  let run2 := post_analyze_contract body (snd run1) in
  wf demo_store
  /\ post_analyze_contract body demo_store = (fst run1, snd run1)
  /\ post_analyze_contract body (snd run1) = (fst run2, snd run2)
  /\ Response_map analysis_payload (fst run1)
     = Response_map analysis_payload (fst run2)
  /\ (forall a1 a2, fst run1 = json 200 a1 -> fst run2 = json 200 a2 ->
        stored_clause_payloads (Analysis.id a1) (snd run1)
        = stored_clause_payloads (Analysis.id a2) (snd run2)
        /\ stored_clause_payloads (Analysis.id a1) (snd run2)
           = stored_clause_payloads (Analysis.id a1) (snd run1)).
Proof.
  intros body run1 run2.
  assert (Hwf : wf demo_store) by apply wf_constructor.
  assert (H1 : post_analyze_contract body demo_store = (fst run1, snd run1))
    by (vm_compute; reflexivity).
  assert (H2 : post_analyze_contract body (snd run1) = (fst run2, snd run2))
    by (vm_compute; reflexivity).
  split; [exact Hwf|]. split; [exact H1|]. split; [exact H2|].
  exact (@analysis_is_repeatable demo_store (snd run1) (snd run2) body
           (fst run1) (fst run2) Hwf H1 H2).
Defined.

(** ** What an analysis writes *)

Lemma merge_only_riskScore (u : User.t) (r : RiskLevelType) :
  MemStorage.merge u (UserData.only_riskScore r)
  = User.mk (User.id u) (User.email u) (User.password u) (User.firstName u)
      (User.lastName u) (User.company u) (User.planType u) (User.apiKey u)
      (User.createdAt u) (Some r).
Proof. reflexivity. Qed.

(** C10: after an analyze request answered 200 with an analysis [a], from a
    store that satisfies the invariant: the contract map is the one before
    the request, so the contract record, its [riskScore] included, is
    unchanged; the user map is the one before with [updateUser] applied at
    the contract's identifier, so a user stored under that identifier
    carries the computed level as its [riskScore] property and is otherwise
    as before, and every other user is as before; saved clauses and
    conversations are unchanged; the analyses and the risky clauses already
    stored are unchanged, the new analysis and its clauses being appended. *)
Theorem analyze_updates_user_not_contract (s s' : MemStorage.t)
  (body : AnalyzeBody.t) (a : Analysis.t) :
  wf s ->
  post_analyze_contract body s = (json 200 a, s') ->
  exists contract,
    let level := FullAnalysis.riskLevel (Analysis.fullAnalysis a) in
    JsMap.get (Analysis.contractId a) (MemStorage.contracts s) = Some contract
    /\ MemStorage.contracts s' = MemStorage.contracts s
    /\ MemStorage.users s'
       = users_after_update (Contract.id contract) level (MemStorage.users s)
    /\ (forall u,
          JsMap.get (Contract.id contract) (MemStorage.users s) = Some u ->
          JsMap.get (Contract.id contract) (MemStorage.users s')
          = Some (User.mk (User.id u) (User.email u) (User.password u)
                    (User.firstName u) (User.lastName u) (User.company u)
                    (User.planType u) (User.apiKey u) (User.createdAt u)
                    (Some level)))
    /\ (forall other, other <> Contract.id contract ->
          JsMap.get other (MemStorage.users s')
          = JsMap.get other (MemStorage.users s))
    /\ MemStorage.savedClauses s' = MemStorage.savedClauses s
    /\ MemStorage.conversations s' = MemStorage.conversations s
    /\ MemStorage.analyses s' = MemStorage.analyses s ++ [(Analysis.id a, a)]
    /\ exists new, MemStorage.riskyClauses s' = MemStorage.riskyClauses s ++ new.
Proof.
  intros Hwf Hrun.
  destruct (post_analyze_contract_inv _ _ Hrun)
    as (contractId & text & contract & Hc & Hc0 & Ht & Ht0 & Hg).
  rewrite (post_analyze_contract_ok _ Hwf Hc Hc0 Ht Ht0 Hg) in Hrun.
  injection Hrun as <- <-.
  exists contract. cbv zeta.
  cbn [Analysis.contractId Analysis.fullAnalysis Analysis.id created_analysis
       store_after_analyze MemStorage.contracts MemStorage.users
       MemStorage.savedClauses MemStorage.conversations MemStorage.analyses
       MemStorage.riskyClauses].
  rewrite analyzeContract_riskLevel.
  split; [exact Hg|]. split; [reflexivity|]. split; [reflexivity|].
  split; [|split; [|split; [reflexivity | split; [reflexivity | split;
    [reflexivity | eexists; reflexivity]]]]].
  - intros u Hu. unfold users_after_update. rewrite Hu.
    rewrite JsMapFacts.get_set_same. now rewrite merge_only_riskScore.
  - intros other Hne. unfold users_after_update.
    destruct (JsMap.get (Contract.id contract) (MemStorage.users s)); auto.
    now apply JsMapFacts.get_set_other.
Qed.

Lemma analyze_updates_user_not_contract_witness :
  let body := AnalyzeBody.mk (Some 1) (Some "The parties agree to meet monthly.")
                None in
  let a := created_analysis demo_store 1
             (analyzeContract "The parties agree to meet monthly." "") in
  let s' := snd (post_analyze_contract body demo_store) in
  wf demo_store
  /\ post_analyze_contract body demo_store = (json 200 a, s')
  /\ exists contract,
       let level := FullAnalysis.riskLevel (Analysis.fullAnalysis a) in
       JsMap.get (Analysis.contractId a) (MemStorage.contracts demo_store)
       = Some contract
       /\ MemStorage.contracts s' = MemStorage.contracts demo_store
       /\ MemStorage.users s'
          = users_after_update (Contract.id contract) level
              (MemStorage.users demo_store)
       /\ (forall u,
             JsMap.get (Contract.id contract) (MemStorage.users demo_store)
             = Some u ->
             JsMap.get (Contract.id contract) (MemStorage.users s')
             = Some (User.mk (User.id u) (User.email u) (User.password u)
                       (User.firstName u) (User.lastName u) (User.company u)
                       (User.planType u) (User.apiKey u) (User.createdAt u)
                       (Some level)))
       /\ (forall other, other <> Contract.id contract ->
             JsMap.get other (MemStorage.users s')
             = JsMap.get other (MemStorage.users demo_store))
       /\ MemStorage.savedClauses s' = MemStorage.savedClauses demo_store
       /\ MemStorage.conversations s' = MemStorage.conversations demo_store
       /\ MemStorage.analyses s'
          = MemStorage.analyses demo_store ++ [(Analysis.id a, a)]
       /\ exists new,
            MemStorage.riskyClauses s'
            = MemStorage.riskyClauses demo_store ++ new.
Proof.
  intros body a s'.
  assert (Hwf : wf demo_store) by apply wf_constructor.
  assert (Hrun : post_analyze_contract body demo_store = (json 200 a, s'))
    by (vm_compute; reflexivity).
  split; [exact Hwf|]. split; [exact Hrun|].
  exact (@analyze_updates_user_not_contract demo_store s' body a Hwf Hrun).
Defined.

(** On a fresh store, contract 1 is scored "high" and user 1 has no
    [riskScore]; after analysing a text without keywords for contract 1 the
    contract is still scored "high" and user 1 has the [riskScore] LOW. *)
Example analyze_contract_1_scores_user_1 :
  let s' := snd (post_analyze_contract
                   (AnalyzeBody.mk (Some 1)
                      (Some "The parties agree to meet monthly.") None)
                   demo_store) in
  option_map Contract.riskScore (JsMap.get 1 (MemStorage.contracts demo_store))
  = Some "high"
  /\ option_map Contract.riskScore (JsMap.get 1 (MemStorage.contracts s'))
     = Some "high"
  /\ option_map User.riskScore (JsMap.get 1 (MemStorage.users demo_store))
     = Some None
  /\ option_map User.riskScore (JsMap.get 1 (MemStorage.users s'))
     = Some (Some RiskLevel.LOW).
Proof.
  vm_compute. repeat split; reflexivity.
Qed.

(** * The rest of the server and its callers *)

(** ** Maps: keys, deletion, entries *)

Module JsMapKeys.
Section Keys.
Variable V : Type.
Implicit Types (m : JsMap.t V) (k : Z) (v : V).

Lemma get_None_keys k m : JsMap.get k m = None <-> ~ In k (JsMap.keys m).
Proof.
  induction m as [|[k' v'] m IH]; simpl.
  - tauto.
  - destruct (Z.eqb_spec k k') as [->|Hne].
    + split; [discriminate | intros Hn; exfalso; apply Hn; now left].
    + rewrite IH. split; [intros Hn [Heq|Hin]; [congruence | auto] | tauto].
Qed.

Lemma get_Some_keys k v m : JsMap.get k m = Some v -> In k (JsMap.keys m).
Proof.
  intros Hg. destruct (in_dec Z.eq_dec k (JsMap.keys m)) as [Hin|Hn]; auto.
  apply get_None_keys in Hn. congruence.
Qed.

Lemma keys_set_present k v v0 m :
  JsMap.get k m = Some v0 -> JsMap.keys (JsMap.set k v m) = JsMap.keys m.
Proof.
  induction m as [|[k' v'] m IH]; simpl; [discriminate|].
  destruct (Z.eqb_spec k k') as [->|Hne]; simpl; [reflexivity|].
  intros Hg. now rewrite IH.
Qed.

Lemma keys_set_absent k v m :
  JsMap.get k m = None -> JsMap.keys (JsMap.set k v m) = JsMap.keys m ++ [k].
Proof.
  intros Hg. rewrite JsMapFacts.set_absent by exact Hg.
  unfold JsMap.keys. now rewrite map_app.
Qed.

(** An entry found by [get] is an entry of the list, and with distinct keys
    every entry of the list is found by [get]. *)
Lemma In_get k v m : NoDup (JsMap.keys m) -> In (k, v) m -> JsMap.get k m = Some v.
Proof.
  induction m as [|[k' v'] m IH]; simpl; [tauto|].
  intros Hnd [Heq|Hin].
  - injection Heq as -> ->. now rewrite Z.eqb_refl.
  - inversion Hnd as [|? ? Hnot Hnd']; subst.
    destruct (Z.eqb_spec k k') as [->|Hne].
    + exfalso. apply Hnot. change k' with (fst (k', v)). now apply in_map.
    + auto.
Qed.

Lemma delete_keys_incl k m :
  incl (JsMap.keys (snd (JsMap.delete k m))) (JsMap.keys m).
Proof.
  induction m as [|[k' v'] m IH]; simpl; [easy|].
  destruct (Z.eqb k k'); simpl.
  - now apply incl_tl.
  - destruct (JsMap.delete k m) as [b r]. simpl in *.
    intros x [<-|Hin]; [now left | right; auto].
Qed.

Lemma delete_NoDup k m :
  NoDup (JsMap.keys m) -> NoDup (JsMap.keys (snd (JsMap.delete k m))).
Proof.
  induction m as [|[k' v'] m IH]; simpl; [auto|].
  intros Hnd. inversion Hnd as [|? ? Hnot Hnd']; subst.
  destruct (Z.eqb k k'); simpl; [exact Hnd'|].
  pose proof (@delete_keys_incl k m) as Hincl.
  destruct (JsMap.delete k m) as [b r]. simpl in *.
  constructor; auto.
Qed.

(** [delete] answers whether the key was present. *)
Lemma delete_answer k m :
  fst (JsMap.delete k m) = match JsMap.get k m with Some _ => true | None => false end.
Proof.
  induction m as [|[k' v'] m IH]; simpl; [reflexivity|].
  destruct (Z.eqb k k'); simpl; [reflexivity|].
  destruct (JsMap.delete k m) as [b r]. exact IH.
Qed.

(** After [delete] the key is absent and the other keys are as before. *)
Lemma get_delete_same k m :
  NoDup (JsMap.keys m) -> JsMap.get k (snd (JsMap.delete k m)) = None.
Proof.
  induction m as [|[k' v'] m IH]; simpl; [reflexivity|].
  intros Hnd. inversion Hnd as [|? ? Hnot Hnd']; subst.
  destruct (Z.eqb_spec k k') as [->|Hne]; simpl.
  - now apply get_None_keys.
  - specialize (IH Hnd'). destruct (JsMap.delete k m) as [b r]. simpl in *.
    destruct (Z.eqb_spec k k'); [contradiction | exact IH].
Qed.

Lemma get_delete_other k k' m :
  k' <> k -> JsMap.get k' (snd (JsMap.delete k m)) = JsMap.get k' m.
Proof.
  intros Hne. induction m as [|[k0 v0] m IH]; simpl; [reflexivity|].
  destruct (Z.eqb_spec k k0) as [->|Hk]; simpl.
  - destruct (Z.eqb_spec k' k0); [contradiction | reflexivity].
  - destruct (JsMap.delete k m) as [b r]. simpl in *. now rewrite IH.
Qed.

(** The entries that [delete] leaves are the entries with another key, in
    their order. *)
Lemma delete_filter k m :
  NoDup (JsMap.keys m) ->
  snd (JsMap.delete k m) = filter (fun kv => negb (Z.eqb k (fst kv))) m.
Proof.
  induction m as [|[k' v'] m IH]; simpl; [reflexivity|].
  intros Hnd. inversion Hnd as [|? ? Hnot Hnd']; subst.
  destruct (Z.eqb_spec k k') as [->|Hne]; simpl.
  - symmetry. apply forallb_filter_id. apply forallb_forall.
    intros [k0 v0] Hin. simpl. destruct (Z.eqb_spec k' k0) as [<-|]; auto.
    exfalso. apply Hnot. change k' with (fst (k', v0)). now apply in_map.
  - specialize (IH Hnd'). destruct (JsMap.delete k m) as [b r]. simpl in *.
    now rewrite IH.
Qed.

Lemma Forall_set (P : Z * V -> Prop) k v m :
  Forall P m -> P (k, v) -> Forall P (JsMap.set k v m).
Proof.
  intros Hall Hp. induction Hall as [|[k' v'] m Hx Hall IH]; simpl.
  - now constructor.
  - destruct (Z.eqb k k'); constructor; auto.
Qed.

Lemma Forall_delete (P : Z * V -> Prop) k m :
  Forall P m -> Forall P (snd (JsMap.delete k m)).
Proof.
  intros Hall. induction Hall as [|[k' v'] m Hx Hall IH]; simpl; [constructor|].
  destruct (Z.eqb k k'); simpl; [exact Hall|].
  destruct (JsMap.delete k m) as [b r]. simpl in *. now constructor.
Qed.

End Keys.
End JsMapKeys.

(** ** The invariant of the whole store *)

Section KeysOk.
Variable V : Type.
Implicit Types (m : JsMap.t V) (k n : Z) (v : V).

Lemma keys_ok_next_absent m n : keys_ok m n -> JsMap.get n m = None.
Proof.
  intros (_ & _ & Hb). apply JsMapKeys.get_None_keys. intros Hin.
  rewrite Forall_forall in Hb. specialize (Hb _ Hin). lia.
Qed.

Lemma keys_ok_bound m n k v : keys_ok m n -> JsMap.get k m = Some v -> 0 < k < n.
Proof.
  intros (_ & _ & Hb) Hg. rewrite Forall_forall in Hb.
  apply Hb. eapply JsMapKeys.get_Some_keys; eauto.
Qed.

Lemma keys_ok_set_fresh m n v : keys_ok m n -> keys_ok (JsMap.set n v m) (n + 1).
Proof.
  intros Hok. pose proof (keys_ok_next_absent Hok) as Hn.
  destruct Hok as (Hpos & Hnd & Hb). unfold keys_ok.
  rewrite JsMapKeys.keys_set_absent by exact Hn.
  split; [lia|]. split.
  - apply NoDup_app; [exact Hnd | repeat constructor; simpl; tauto |].
    intros x Hin [<-|[]]. apply JsMapKeys.get_None_keys in Hn. contradiction.
  - apply Forall_app. split.
    + eapply Forall_impl; [|exact Hb]. simpl. intros; lia.
    + repeat constructor; lia.
Qed.

Lemma keys_ok_set_present m n k v v0 :
  keys_ok m n -> JsMap.get k m = Some v0 -> keys_ok (JsMap.set k v m) n.
Proof.
  intros (Hpos & Hnd & Hb) Hg. unfold keys_ok.
  erewrite JsMapKeys.keys_set_present by exact Hg. auto.
Qed.

Lemma keys_ok_delete m n k : keys_ok m n -> keys_ok (snd (JsMap.delete k m)) n.
Proof.
  intros (Hpos & Hnd & Hb). split; [exact Hpos|]. split.
  - now apply JsMapKeys.delete_NoDup.
  - rewrite Forall_forall in *. intros x Hin. apply Hb.
    eapply JsMapKeys.delete_keys_incl; eauto.
Qed.

End KeysOk.

Lemma keys_ok_number_clauses (analysisId : Z) (l : list ClauseInfo.t)
  (m : JsMap.t RiskyClause.t) (n : Z) :
  keys_ok m n ->
  keys_ok (m ++ number_clauses analysisId n l) (n + Z.of_nat (List.length l)).
Proof.
  revert m n. induction l as [|clauseInfo l IH]; intros m n Hok; simpl.
  - now rewrite app_nil_r, Z.add_0_r.
  - change (?x :: ?r) with ([x] ++ r). rewrite app_assoc.
    rewrite <- JsMapFacts.set_absent by (eapply keys_ok_next_absent; eauto).
    replace (n + Z.pos (Pos.of_succ_nat (List.length l)))
      with (n + 1 + Z.of_nat (List.length l)) by lia.
    apply IH. now apply keys_ok_set_fresh.
Qed.

Lemma ids_number_clauses (analysisId : Z) (l : list ClauseInfo.t) (n : Z) :
  Forall (fun kv => RiskyClause.id (snd kv) = fst kv)
         (number_clauses analysisId n l).
Proof.
  revert n. induction l as [|clauseInfo l IH]; intros n; simpl; constructor; auto.
Qed.

Ltac store_simpl :=
  unfold MemStorage.with_users, MemStorage.with_contracts,
    MemStorage.with_analyses, MemStorage.with_riskyClauses,
    MemStorage.with_savedClauses, MemStorage.with_conversations in *;
  cbn [MemStorage.users MemStorage.contracts MemStorage.analyses
       MemStorage.riskyClauses MemStorage.savedClauses MemStorage.conversations
       MemStorage.nextUserId MemStorage.nextContractId MemStorage.nextAnalysisId
       MemStorage.nextRiskyClauseId MemStorage.nextSavedClauseId
       MemStorage.nextConversationId fst snd] in *.

Lemma StoreInv_constructor (now : Timestamp) (uuidv4 : nat -> string) :
  StoreInv (MemStorage.constructor now uuidv4).
Proof.
  split; [apply wf_constructor | ..];
    cbv -[Z.lt In];
    repeat match goal with
           | |- _ /\ _ => split
           | |- NoDup _ => constructor
           | |- Forall _ _ => constructor
           | |- ~ In _ _ => simpl; intuition discriminate
           | |- _ < _ => reflexivity
           | |- _ = _ => reflexivity
           end.
Qed.

Ltac inv_fields :=
  match goal with
  | H : StoreInv _ |- _ =>
      destruct H as [Hwf Hu Hc Ha Hr Hsv Hcv Hcid Hrid Hsid Hvid Hac]
  end.

Lemma StoreInv_createUser (s : MemStorage.t) (u : InsertUser.t)
  (now : Timestamp) (uuid : string) :
  StoreInv s -> StoreInv (snd (MemStorage.createUser u now uuid s)).
Proof.
  intros Hinv. pose proof (inv_wf Hinv) as Hwf0. inv_fields.
  unfold MemStorage.createUser. store_simpl.
  split; store_simpl; auto.
  - revert Hwf0. apply wf_frame; reflexivity.
  - now apply keys_ok_set_fresh.
Qed.

Lemma StoreInv_updateUser (s : MemStorage.t) (id : Z) (d : UserData.t) :
  StoreInv s -> StoreInv (snd (MemStorage.updateUser id d s)).
Proof.
  intros Hinv. pose proof (wf_updateUser id d (inv_wf Hinv)) as Hwf'.
  revert Hwf'. unfold MemStorage.updateUser, MemStorage.getUser, bind, ret.
  destruct (JsMap.get id (MemStorage.users s)) as [u|] eqn:Hg; [|auto].
  intros Hwf'. inv_fields. split; store_simpl; auto.
  eapply keys_ok_set_present; eauto.
Qed.

Lemma StoreInv_createContract (s : MemStorage.t) (c : InsertContract.t)
  (now : Timestamp) :
  StoreInv s -> StoreInv (snd (MemStorage.createContract c now s)).
Proof.
  intros Hinv. pose proof (wf_createContract c now (inv_wf Hinv)) as Hwf'.
  inv_fields. unfold MemStorage.createContract in *. store_simpl.
  split; store_simpl; auto.
  - now apply keys_ok_set_fresh.
  - now apply JsMapKeys.Forall_set.
  - eapply Forall_impl; [|exact Hac]. simpl. intros; lia.
Qed.

Lemma StoreInv_deleteContract (s : MemStorage.t) (id : Z) :
  StoreInv s -> StoreInv (snd (MemStorage.deleteContract id s)).
Proof.
  intros Hinv. pose proof (wf_deleteContract id (inv_wf Hinv)) as Hwf'.
  inv_fields. unfold MemStorage.deleteContract in *.
  pose proof (keys_ok_delete id Hc) as Hk.
  pose proof (JsMapKeys.Forall_delete id Hcid) as Hi.
  destruct (JsMap.delete id (MemStorage.contracts s)) as [b m].
  store_simpl. split; store_simpl; auto.
Qed.

Lemma StoreInv_createSavedClause (s : MemStorage.t) (c : InsertSavedClause.t)
  (now : Timestamp) :
  StoreInv s -> StoreInv (snd (MemStorage.createSavedClause c now s)).
Proof.
  intros Hinv. pose proof (inv_wf Hinv) as Hwf0. inv_fields.
  unfold MemStorage.createSavedClause. store_simpl.
  split; store_simpl; auto.
  - revert Hwf0. apply wf_frame; reflexivity.
  - now apply keys_ok_set_fresh.
  - now apply JsMapKeys.Forall_set.
Qed.

Lemma StoreInv_deleteSavedClause (s : MemStorage.t) (id : Z) :
  StoreInv s -> StoreInv (snd (MemStorage.deleteSavedClause id s)).
Proof.
  intros Hinv. pose proof (inv_wf Hinv) as Hwf0. inv_fields.
  unfold MemStorage.deleteSavedClause in *.
  pose proof (keys_ok_delete id Hsv) as Hk.
  pose proof (JsMapKeys.Forall_delete id Hsid) as Hi.
  destruct (JsMap.delete id (MemStorage.savedClauses s)) as [b m].
  store_simpl. split; store_simpl; auto.
  revert Hwf0. apply wf_frame; reflexivity.
Qed.

Lemma StoreInv_createConversation (s : MemStorage.t) (c : InsertConversation.t)
  (now : Timestamp) :
  StoreInv s -> StoreInv (snd (MemStorage.createConversation c now s)).
Proof.
  intros Hinv. pose proof (wf_createConversation c now (inv_wf Hinv)) as Hwf'.
  inv_fields. unfold MemStorage.createConversation in *. store_simpl.
  split; store_simpl; auto.
  - now apply keys_ok_set_fresh.
  - now apply JsMapKeys.Forall_set.
Qed.

Lemma StoreInv_updateConversation (s : MemStorage.t) (id : Z)
  (messages : list Message.t) (now : Timestamp) :
  StoreInv s -> StoreInv (snd (MemStorage.updateConversation id messages now s)).
Proof.
  intros Hinv.
  pose proof (wf_updateConversation id messages now (inv_wf Hinv)) as Hwf'.
  revert Hwf'.
  unfold MemStorage.updateConversation, MemStorage.getConversation, bind, ret.
  destruct (JsMap.get id (MemStorage.conversations s)) as [c|] eqn:Hg; [|auto].
  intros Hwf'. inv_fields. split; store_simpl; auto.
  - eapply keys_ok_set_present; eauto.
  - apply JsMapKeys.Forall_set; [exact Hvid|]. simpl.
    apply JsMapFacts.get_In in Hg. rewrite Forall_forall in Hvid.
    exact (Hvid _ Hg).
Qed.

Lemma StoreInv_store_after_analyze (s : MemStorage.t) (contract : Contract.t)
  (contractId : Z) (r : AnalysisResult.t) :
  StoreInv s ->
  JsMap.get contractId (MemStorage.contracts s) = Some contract ->
  StoreInv (store_after_analyze s contract contractId r).
Proof.
  intros Hinv Hg.
  pose proof (wf_store_after_analyze contract contractId r (inv_wf Hinv)) as Hwf'.
  inv_fields. unfold store_after_analyze in *. split; store_simpl; auto.
  - unfold users_after_update.
    destruct (JsMap.get (Contract.id contract) (MemStorage.users s)) eqn:Hu';
      [eapply keys_ok_set_present; eauto | exact Hu].
  - rewrite <- JsMapFacts.set_absent by (eapply keys_ok_next_absent; eauto).
    now apply keys_ok_set_fresh.
  - now apply keys_ok_number_clauses.
  - apply Forall_app. split; [exact Hrid | apply ids_number_clauses].
  - apply Forall_app. split; [exact Hac|]. constructor; [|constructor].
    simpl. eapply keys_ok_bound; eauto.
Qed.

(** Every writing request keeps the invariant. *)
Lemma StoreInv_step (toLowerCase : string -> string)
  (bcrypt_hash : string -> string -> string) (r : Request)
  (s : MemStorage.t) :
  StoreInv s -> StoreInv (step toLowerCase bcrypt_hash r s).
Proof.
  intros Hinv. destruct r; unfold step.
  - unfold post_register. destruct parsed as [userData|]; [|exact Hinv].
    cbn [getUserByEmail createUser MemStorage_IStorageRest
         MemStorage_IStorageEmail]. unfold bind at 1.
    unfold MemStorage.getUserByEmail at 1.
    match goal with |- context [find ?f ?l] => destruct (find f l) end;
      [exact Hinv|].
    unfold bind, ret.
    match goal with
    | |- context [MemStorage.createUser ?u ?n ?i s] =>
        pose proof (StoreInv_createUser u n i Hinv) as Hn;
        destruct (MemStorage.createUser u n i s)
    end.
    exact Hn.
  - unfold patch_user. cbn [updateUser MemStorage_IStorage]. unfold bind, ret.
    pose proof (StoreInv_updateUser userId (drop_password userData) Hinv) as Hn.
    destruct (MemStorage.updateUser userId (drop_password userData) s) as [[u|] s'];
      exact Hn.
  - unfold post_contract. destruct parsed as [c|]; [|exact Hinv].
    cbn [createContract MemStorage_IStorage]. unfold bind, ret.
    pose proof (StoreInv_createContract c now Hinv) as Hn.
    destruct (MemStorage.createContract c now s). exact Hn.
  - unfold delete_contract. cbn [deleteContract MemStorage_IStorage].
    unfold bind, ret.
    pose proof (StoreInv_deleteContract contractId Hinv) as Hn.
    destruct (MemStorage.deleteContract contractId s) as [[|] s']; exact Hn.
  - destruct (post_analyze_contract_cases s body)
      as [(n & t & Hfail) | (contractId & text & contract & Hc & Hc0 & Ht & Ht0 & Hg)].
    + now rewrite Hfail.
    + rewrite (post_analyze_contract_ok _ (inv_wf Hinv) Hc Hc0 Ht Ht0 Hg).
      now apply StoreInv_store_after_analyze.
  - unfold post_saved_clause. destruct parsed as [c|]; [|exact Hinv].
    cbn [createSavedClause MemStorage_IStorageRest]. unfold bind, ret.
    pose proof (StoreInv_createSavedClause c now Hinv) as Hn.
    destruct (MemStorage.createSavedClause c now s). exact Hn.
  - unfold delete_saved_clause. cbn [deleteSavedClause MemStorage_IStorageRest].
    unfold bind, ret.
    pose proof (StoreInv_deleteSavedClause clauseId Hinv) as Hn.
    destruct (MemStorage.deleteSavedClause clauseId s) as [[|] s']; exact Hn.
  - unfold post_conversation. destruct parsed as [c|]; [|exact Hinv].
    cbn [createConversation MemStorage_IStorage]. unfold bind, ret.
    pose proof (StoreInv_createConversation c now Hinv) as Hn.
    destruct (MemStorage.createConversation c now s). exact Hn.
  - unfold post_conversation_message.
    destruct (QuestionBody.question body) as [question|]; [|exact Hinv].
    destruct (Js.not_str question); [exact Hinv|].
    cbn [getConversation updateConversation MemStorage_IStorage].
    unfold bind at 1. unfold MemStorage.getConversation at 1.
    destruct (JsMap.get conversationId (MemStorage.conversations s))
      as [conversation|] eqn:Hg; [|exact Hinv].
    unfold bind, ret.
    match goal with
    | |- context [MemStorage.updateConversation ?i ?m ?t s] =>
        pose proof (StoreInv_updateConversation i m t Hinv) as Hn;
        destruct (MemStorage.updateConversation i m t s)
    end.
    exact Hn.
Qed.

(** X1.  Every store that the server reaches from [new MemStorage()] by
    writing requests satisfies the invariant: in each map the keys are
    distinct, positive and below the counter; contracts, risky clauses,
    saved clauses, conversations and analyses sit under their own
    identifier; every risky clause belongs to an analysis already created
    and every analysis to a contract identifier already handed out.  This
    holds whatever [toLowerCase] and [bcrypt.hash] return. *)
Theorem reachable_store_invariant (toLowerCase : string -> string)
  (bcrypt_hash : string -> string -> string)
  (now : Timestamp) (uuidv4 : nat -> string) (rs : list Request) :
  StoreInv (run toLowerCase bcrypt_hash rs (MemStorage.constructor now uuidv4)).
Proof.
  unfold run. generalize (StoreInv_constructor now uuidv4).
  generalize (MemStorage.constructor now uuidv4).
  induction rs as [|r rs IH]; intros s Hinv; simpl; [exact Hinv|].
  apply IH. now apply StoreInv_step.
Qed.

(** ** Contracts: create, fetch, list, delete *)

Lemma StoreInv_demo_store : StoreInv demo_store.
Proof. apply StoreInv_constructor. Qed.

Lemma filter_app_single (A : Type) (f : A -> bool) (l : list A) (x : A) :
  filter f (l ++ [x]) = filter f l ++ (if f x then [x] else []).
Proof. rewrite filter_app. simpl. now destruct (f x). Qed.

(** X2.  In a store that satisfies the invariant, [POST /api/contract] with
    a body that parses answers 201 with a contract under an identifier that
    was not in use; the contract can be fetched under that identifier
    afterwards, carries the fields of the body, and every contract stored
    before is still fetched as before. *)
Theorem post_contract_is_fresh (s : MemStorage.t) (c : InsertContract.t)
  (now : Timestamp) :
  StoreInv s ->
  exists contract s',
    post_contract (Some c) now s = (json 201 contract, s')
    /\ Contract.id contract = MemStorage.nextContractId s
    /\ get_contract (Contract.id contract) s
       = (message 404 "Contract not found", s)
    /\ get_contract (Contract.id contract) s' = (json 200 contract, s')
    /\ contract
       = Contract.mk (MemStorage.nextContractId s) (InsertContract.userId c)
           (InsertContract.name c) (InsertContract.fileType c)
           (InsertContract.originalText c) (InsertContract.contractType c)
           (InsertContract.riskScore c) now
    /\ (forall other, other <> Contract.id contract ->
          get_contract other s' = (fst (get_contract other s), s')).
Proof.
  intros Hinv. pose proof (keys_ok_next_absent (inv_contracts Hinv)) as Hfresh.
  eexists _, _. split; [reflexivity|].
  unfold get_contract. cbn [getContract MemStorage_IStorage].
  unfold bind, ret, MemStorage.getContract, MemStorage.createContract.
  store_simpl. cbn [Contract.id].
  rewrite Hfresh, JsMapFacts.get_set_same.
  repeat split; try reflexivity.
  intros other Hne. now rewrite JsMapFacts.get_set_other by exact Hne;
    destruct (JsMap.get other (MemStorage.contracts s)).
Qed.

Lemma post_contract_is_fresh_witness :
  let c := InsertContract.mk 1 "Lease" "pdf" "Lease text" (Some "Lease") "medium" in
  StoreInv demo_store
  /\ exists contract s',
       post_contract (Some c) "2024-02-01T00:00:00.000Z" demo_store
       = (json 201 contract, s')
       /\ Contract.id contract = MemStorage.nextContractId demo_store
       /\ get_contract (Contract.id contract) demo_store
          = (message 404 "Contract not found", demo_store)
       /\ get_contract (Contract.id contract) s' = (json 200 contract, s')
       /\ contract
          = Contract.mk (MemStorage.nextContractId demo_store)
              (InsertContract.userId c) (InsertContract.name c)
              (InsertContract.fileType c) (InsertContract.originalText c)
              (InsertContract.contractType c) (InsertContract.riskScore c)
              "2024-02-01T00:00:00.000Z"
       /\ (forall other, other <> Contract.id contract ->
             get_contract other s' = (fst (get_contract other demo_store), s')).
Proof.
  intros c. split; [exact StoreInv_demo_store|].
  exact (@post_contract_is_fresh demo_store c "2024-02-01T00:00:00.000Z"
           StoreInv_demo_store).
Defined.

Lemma delete_absent (V : Type) (k : Z) (m : JsMap.t V) :
  JsMap.get k m = None -> JsMap.delete k m = (false, m).
Proof.
  induction m as [|[k' v'] m IH]; simpl; [reflexivity|].
  destruct (Z.eqb k k'); [discriminate|].
  intros Hg. now rewrite IH.
Qed.

(** X3.  In a store that satisfies the invariant, [DELETE /api/contract/:id]
    answers 200 when the contract is stored and 404 when it is not;
    afterwards the contract cannot be fetched, a second DELETE answers 404
    and changes nothing, and every other contract is stored as before. *)
Theorem delete_contract_removes (s : MemStorage.t) (contractId : Z) :
  StoreInv s ->
  let r := delete_contract contractId s in
  fst r = match JsMap.get contractId (MemStorage.contracts s) with
          | Some _ => message 200 "Contract deleted successfully"
          | None => message 404 "Contract not found"
          end
  /\ get_contract contractId (snd r) = (message 404 "Contract not found", snd r)
  /\ delete_contract contractId (snd r)
     = (message 404 "Contract not found", snd r)
  /\ (forall other, other <> contractId ->
        JsMap.get other (MemStorage.contracts (snd r))
        = JsMap.get other (MemStorage.contracts s)).
Proof.
  intros Hinv. destruct (inv_contracts Hinv) as (_ & Hnd & _).
  unfold delete_contract, get_contract.
  cbn [deleteContract getContract MemStorage_IStorage].
  unfold bind, ret, MemStorage.deleteContract, MemStorage.getContract.
  pose proof (JsMapKeys.delete_answer contractId (MemStorage.contracts s)) as Ha.
  pose proof (@JsMapKeys.get_delete_same _ contractId _ Hnd) as Hsame.
  pose proof (fun other => @JsMapKeys.get_delete_other _ contractId other
                             (MemStorage.contracts s)) as Hother.
  destruct (JsMap.delete contractId (MemStorage.contracts s)) as [b m].
  cbn [fst snd] in Ha, Hsame, Hother.
  destruct b; cbn [negb]; cbv beta iota zeta; store_simpl;
    rewrite Hsame, (delete_absent _ _ Hsame); store_simpl;
    (split; [|split; [reflexivity | split; [reflexivity | exact Hother]]]);
    now destruct (JsMap.get contractId (MemStorage.contracts s)).
Qed.

Lemma delete_contract_removes_witness :
  let r := delete_contract 2 demo_store in
  StoreInv demo_store
  /\ fst r = match JsMap.get 2 (MemStorage.contracts demo_store) with
             | Some _ => message 200 "Contract deleted successfully"
             | None => message 404 "Contract not found"
             end
  /\ get_contract 2 (snd r) = (message 404 "Contract not found", snd r)
  /\ delete_contract 2 (snd r) = (message 404 "Contract not found", snd r)
  /\ (forall other, other <> 2 ->
        JsMap.get other (MemStorage.contracts (snd r))
        = JsMap.get other (MemStorage.contracts demo_store)).
Proof.
  intros r. split; [exact StoreInv_demo_store|].
  exact (@delete_contract_removes demo_store 2 StoreInv_demo_store).
Defined.

(** X4.  Deleting a contract deletes nothing else: the analyses, risky
    clauses, conversations, saved clauses and users are the ones before, so
    the analysis and the conversations of the deleted contract are still
    served, and the message route still answers on them as it did. *)
Theorem delete_contract_does_not_cascade (s : MemStorage.t) (contractId : Z) :
  let s' := snd (delete_contract contractId s) in
  MemStorage.analyses s' = MemStorage.analyses s
  /\ MemStorage.riskyClauses s' = MemStorage.riskyClauses s
  /\ MemStorage.conversations s' = MemStorage.conversations s
  /\ MemStorage.savedClauses s' = MemStorage.savedClauses s
  /\ MemStorage.users s' = MemStorage.users s
  /\ fst (get_analysis_by_contract contractId s')
     = fst (get_analysis_by_contract contractId s)
  /\ fst (get_conversations_by_contract contractId s')
     = fst (get_conversations_by_contract contractId s)
  /\ (forall conversationId body draws,
        fst (post_conversation_message conversationId body draws s')
        = fst (post_conversation_message conversationId body draws s)).
Proof.
  unfold delete_contract. cbn [deleteContract MemStorage_IStorage].
  unfold bind, ret, MemStorage.deleteContract.
  destruct (JsMap.delete contractId (MemStorage.contracts s)) as [[|] m];
    cbn [negb]; cbv beta iota zeta; store_simpl.
  all: repeat split; try reflexivity.
  all: try (unfold get_analysis_by_contract;
            cbn [getAnalysisByContractId MemStorage_IStorage];
            unfold bind, ret, MemStorage.getAnalysisByContractId; store_simpl;
            match goal with |- context [find ?f ?l] => destruct (find f l) end;
            reflexivity).
  all: intros conversationId body draws; unfold post_conversation_message.
  all: destruct (QuestionBody.question body) as [q|]; [|reflexivity].
  all: destruct (Js.not_str q); [reflexivity|].
  all: cbn [getConversation updateConversation MemStorage_IStorage].
  all: unfold bind, ret, MemStorage.updateConversation,
         MemStorage.getConversation, bind, ret.
  all: store_simpl; cbv beta.
  all: destruct (JsMap.get conversationId (MemStorage.conversations s)) eqn:Hg;
         cbv beta iota; store_simpl; rewrite ?Hg; reflexivity.
Qed.

Lemma find_all_false (A : Type) (f : A -> bool) (l : list A) :
  Forall (fun x => f x = false) l -> find f l = None.
Proof.
  induction 1 as [|x l Hx _ IH]; simpl; [reflexivity|]. now rewrite Hx.
Qed.

(** X5.  In a store that satisfies the invariant a contract just created
    has an identifier greater than that of every stored contract, and no
    stored analysis refers to it: the lookup of its analysis answers 404.
    Identifiers of deleted contracts are therefore not handed out again
    together with their analyses. *)
Theorem new_contract_has_no_analysis (s : MemStorage.t) (c : InsertContract.t)
  (now : Timestamp) :
  StoreInv s ->
  let r := post_contract (Some c) now s in
  exists contract,
    fst r = json 201 contract
    /\ (forall k v, JsMap.get k (MemStorage.contracts s) = Some v ->
          k < Contract.id contract)
    /\ (forall k a, JsMap.get k (MemStorage.analyses (snd r)) = Some a ->
          Analysis.contractId a < Contract.id contract)
    /\ get_analysis_by_contract (Contract.id contract) (snd r)
       = (message 404 "Analysis not found", snd r).
Proof.
  intros Hinv. eexists. split; [reflexivity|].
  pose proof (inv_analysis_contract Hinv) as Hac.
  unfold post_contract, get_analysis_by_contract.
  cbn [createContract getAnalysisByContractId MemStorage_IStorage].
  unfold bind, ret, MemStorage.createContract,
    MemStorage.getAnalysisByContractId.
  store_simpl. cbn [Contract.id].
  split; [|split].
  - intros k v Hg. eapply keys_ok_bound; [apply (inv_contracts Hinv) | eauto].
  - intros k a Hg. apply JsMapFacts.get_In in Hg.
    rewrite Forall_forall in Hac. specialize (Hac _ Hg). simpl in Hac. lia.
  - rewrite find_all_false; [reflexivity|].
    unfold JsMap.values. apply Forall_map.
    eapply Forall_impl; [|exact Hac]. simpl. intros kv Hlt.
    apply Z.eqb_neq. lia.
Qed.

Lemma new_contract_has_no_analysis_witness :
  let c := InsertContract.mk 1 "Lease" "pdf" "Lease text" (Some "Lease") "medium" in
  let r := post_contract (Some c) "2024-02-01T00:00:00.000Z" demo_store in
  StoreInv demo_store
  /\ exists contract,
       fst r = json 201 contract
       /\ (forall k v, JsMap.get k (MemStorage.contracts demo_store) = Some v ->
             k < Contract.id contract)
       /\ (forall k a, JsMap.get k (MemStorage.analyses (snd r)) = Some a ->
             Analysis.contractId a < Contract.id contract)
       /\ get_analysis_by_contract (Contract.id contract) (snd r)
          = (message 404 "Analysis not found", snd r).
Proof.
  intros c r. split; [exact StoreInv_demo_store|].
  exact (@new_contract_has_no_analysis demo_store c "2024-02-01T00:00:00.000Z"
           StoreInv_demo_store).
Defined.

(** X6.  In a store that satisfies the invariant, the contracts that
    [GET /api/contracts/user/:userId] lists are exactly the stored contracts
    of that user, each under its own identifier; and a contract just created
    is listed last for its user while the lists of the other users stay as
    they were. *)
Theorem contract_listing (s : MemStorage.t) (c : InsertContract.t)
  (now : Timestamp) :
  StoreInv s ->
  (forall userId contract,
     In contract (fst (MemStorage.getContractsByUserId userId s))
     <-> JsMap.get (Contract.id contract) (MemStorage.contracts s) = Some contract
         /\ Contract.userId contract = userId)
  /\ (let r := post_contract (Some c) now s in
      exists contract,
        fst r = json 201 contract
        /\ fst (MemStorage.getContractsByUserId (InsertContract.userId c) (snd r))
           = fst (MemStorage.getContractsByUserId (InsertContract.userId c) s)
             ++ [contract]
        /\ forall other, other <> InsertContract.userId c ->
             fst (MemStorage.getContractsByUserId other (snd r))
             = fst (MemStorage.getContractsByUserId other s)).
Proof.
  intros Hinv. pose proof (inv_contract_ids Hinv) as Hid.
  destruct (inv_contracts Hinv) as (_ & Hnd & _). split.
  - intros userId contract. unfold MemStorage.getContractsByUserId, JsMap.values.
    cbn [fst]. rewrite filter_In, in_map_iff. split.
    + intros [([k v] & Hv & Hin) Hu]. simpl in Hv. subst v.
      rewrite Forall_forall in Hid. pose proof (Hid _ Hin) as Hk. simpl in Hk.
      split; [|now apply Z.eqb_eq]. rewrite Hk. now apply JsMapKeys.In_get.
    + intros [Hg Hu]. split; [|now apply Z.eqb_eq].
      exists (Contract.id contract, contract). split; [reflexivity|].
      now apply JsMapFacts.get_In.
  - cbv zeta. eexists. split; [reflexivity|].
    unfold post_contract. cbn [createContract MemStorage_IStorage].
    unfold bind, ret, MemStorage.createContract,
      MemStorage.getContractsByUserId, JsMap.values.
    store_simpl.
    rewrite JsMapFacts.set_absent
      by (eapply keys_ok_next_absent; apply (inv_contracts Hinv)).
    rewrite map_app. cbn [map snd]. split.
    + rewrite filter_app_single. cbn [Contract.userId].
      now rewrite Z.eqb_refl.
    + intros other Hne. rewrite filter_app_single. cbn [Contract.userId].
      destruct (Z.eqb_spec (InsertContract.userId c) other);
        [congruence | apply app_nil_r].
Qed.

Lemma contract_listing_witness :
  let c := InsertContract.mk 1 "Lease" "pdf" "Lease text" (Some "Lease") "medium" in
  StoreInv demo_store
  /\ (forall userId contract,
        In contract (fst (MemStorage.getContractsByUserId userId demo_store))
        <-> JsMap.get (Contract.id contract) (MemStorage.contracts demo_store)
            = Some contract
            /\ Contract.userId contract = userId)
  /\ (let r := post_contract (Some c) "2024-02-01T00:00:00.000Z" demo_store in
      exists contract,
        fst r = json 201 contract
        /\ fst (MemStorage.getContractsByUserId (InsertContract.userId c) (snd r))
           = fst (MemStorage.getContractsByUserId (InsertContract.userId c)
                    demo_store)
             ++ [contract]
        /\ forall other, other <> InsertContract.userId c ->
             fst (MemStorage.getContractsByUserId other (snd r))
             = fst (MemStorage.getContractsByUserId other demo_store)).
Proof.
  intros c. split; [exact StoreInv_demo_store|].
  exact (@contract_listing demo_store c "2024-02-01T00:00:00.000Z"
           StoreInv_demo_store).
Defined.

(** ** Saved clauses *)

Lemma delete_app_absent (V : Type) (k : Z) (v : V) (m : JsMap.t V) :
  JsMap.get k m = None -> JsMap.delete k (m ++ [(k, v)]) = (true, m).
Proof.
  induction m as [|[k' v'] m IH]; simpl.
  - now rewrite Z.eqb_refl.
  - destruct (Z.eqb k k'); [discriminate|]. intros Hg. now rewrite IH.
Qed.

(** X7.  In a store that satisfies the invariant, saving a clause answers
    201 with a clause under an unused identifier, which is then fetched
    under it and listed last for its user; deleting it again answers 200
    and restores the map of saved clauses exactly, while the counter has
    moved on, so the identifier is not handed out again. *)
Theorem saved_clause_round_trip (s : MemStorage.t) (c : InsertSavedClause.t)
  (now : Timestamp) :
  StoreInv s ->
  let r1 := post_saved_clause (Some c) now s in
  exists clause,
    fst r1 = json 201 clause
    /\ SavedClause.id clause = MemStorage.nextSavedClauseId s
    /\ JsMap.get (SavedClause.id clause) (MemStorage.savedClauses s) = None
    /\ fst (MemStorage.getSavedClause (SavedClause.id clause) (snd r1))
       = Some clause
    /\ fst (MemStorage.getSavedClausesByUserId (InsertSavedClause.userId c)
              (snd r1))
       = fst (MemStorage.getSavedClausesByUserId (InsertSavedClause.userId c) s)
         ++ [clause]
    /\ (let r2 := delete_saved_clause (SavedClause.id clause) (snd r1) in
        fst r2 = message 200 "Saved clause deleted successfully"
        /\ MemStorage.savedClauses (snd r2) = MemStorage.savedClauses s
        /\ MemStorage.nextSavedClauseId (snd r2)
           = MemStorage.nextSavedClauseId s + 1).
Proof.
  intros Hinv. pose proof (keys_ok_next_absent (inv_savedClauses Hinv)) as Hfresh.
  cbv zeta. eexists. split; [reflexivity|].
  unfold post_saved_clause, delete_saved_clause.
  cbn [createSavedClause deleteSavedClause MemStorage_IStorageRest].
  unfold bind, ret, MemStorage.createSavedClause, MemStorage.deleteSavedClause,
    MemStorage.getSavedClause, MemStorage.getSavedClausesByUserId, JsMap.values.
  store_simpl. cbn [SavedClause.id].
  rewrite JsMapFacts.set_absent by exact Hfresh.
  rewrite delete_app_absent by exact Hfresh.
  cbn [negb]. store_simpl.
  split; [reflexivity|]. split; [exact Hfresh|]. split.
  - rewrite <- JsMapFacts.set_absent by exact Hfresh.
    apply JsMapFacts.get_set_same.
  - split; [|repeat split; reflexivity].
    rewrite map_app. cbn [map snd]. rewrite filter_app_single.
    cbn [SavedClause.userId]. now rewrite Z.eqb_refl.
Qed.

Lemma saved_clause_round_trip_witness :
  let c := InsertSavedClause.mk 1 "Termination" "formal" "Either party may end it." in
  let r1 := post_saved_clause (Some c) "2024-02-01T00:00:00.000Z" demo_store in
  StoreInv demo_store
  /\ exists clause,
       fst r1 = json 201 clause
       /\ SavedClause.id clause = MemStorage.nextSavedClauseId demo_store
       /\ JsMap.get (SavedClause.id clause) (MemStorage.savedClauses demo_store)
          = None
       /\ fst (MemStorage.getSavedClause (SavedClause.id clause) (snd r1))
          = Some clause
       /\ fst (MemStorage.getSavedClausesByUserId (InsertSavedClause.userId c)
                 (snd r1))
          = fst (MemStorage.getSavedClausesByUserId (InsertSavedClause.userId c)
                   demo_store)
            ++ [clause]
       /\ (let r2 := delete_saved_clause (SavedClause.id clause) (snd r1) in
           fst r2 = message 200 "Saved clause deleted successfully"
           /\ MemStorage.savedClauses (snd r2) = MemStorage.savedClauses demo_store
           /\ MemStorage.nextSavedClauseId (snd r2)
              = MemStorage.nextSavedClauseId demo_store + 1).
Proof.
  intros c r1. split; [exact StoreInv_demo_store|].
  exact (@saved_clause_round_trip demo_store c "2024-02-01T00:00:00.000Z"
           StoreInv_demo_store).
Defined.

(** ** Accounts *)

(** X8.  [PATCH /api/user/:id] on a stored user answers 200 with the updated
    user and keeps the stored password when the body carries a non-empty
    password or none; a body whose password is the empty string is not
    filtered and overwrites the stored password with the empty string.  The
    other users are untouched. *)
Theorem patch_user_password (s : MemStorage.t) (userId : Z) (d : UserData.t)
  (u : User.t) :
  JsMap.get userId (MemStorage.users s) = Some u ->
  let r := patch_user userId d s in
  exists u',
    fst r = json 200 (withoutPassword u')
    /\ JsMap.get userId (MemStorage.users (snd r)) = Some u'
    /\ User.password u'
       = match UserData.password d with
         | Some EmptyString => EmptyString
         | _ => User.password u
         end
    /\ (forall other, other <> userId ->
          JsMap.get other (MemStorage.users (snd r))
          = JsMap.get other (MemStorage.users s)).
Proof.
  intros Hg. cbv zeta. unfold patch_user. cbn [updateUser MemStorage_IStorage].
  unfold bind, ret, MemStorage.updateUser, MemStorage.getUser, bind, ret.
  rewrite Hg. cbv beta iota. store_simpl.
  eexists. split; [reflexivity|]. split; [apply JsMapFacts.get_set_same|].
  split.
  - unfold drop_password, MemStorage.merge, MemStorage.spread.
    destruct (UserData.password d) as [[|c p]|] eqn:Hp; cbn; rewrite ?Hp;
      reflexivity.
  - intros other Hne. now apply JsMapFacts.get_set_other.
Qed.

Lemma patch_user_password_witness :
  let d := UserData.mk None None (Some "") (Some (Some "Jane")) None None None
             None None None in
  let r := patch_user 1 d demo_store in
  exists u,
    JsMap.get 1 (MemStorage.users demo_store) = Some u
    /\ exists u',
         fst r = json 200 (withoutPassword u')
         /\ JsMap.get 1 (MemStorage.users (snd r)) = Some u'
         /\ User.password u'
            = match UserData.password d with
              | Some EmptyString => EmptyString
              | _ => User.password u
              end
         /\ (forall other, other <> 1 ->
               JsMap.get other (MemStorage.users (snd r))
               = JsMap.get other (MemStorage.users demo_store)).
Proof.
  intros d r.
  destruct (JsMap.get 1 (MemStorage.users demo_store)) as [u|] eqn:Hg;
    [|vm_compute in Hg; discriminate].
  exists u. split; [reflexivity|].
  exact (@patch_user_password demo_store 1 d u Hg).
Defined.

Lemma find_exists (A : Type) (f : A -> bool) (l : list A) (x : A) :
  In x l -> f x = true -> exists y, find f l = Some y.
Proof.
  induction l as [|z l IH]; simpl; [tauto|].
  intros [->|Hin] Hf.
  - rewrite Hf. eauto.
  - destruct (f z); eauto.
Qed.

(** X9.  [POST /api/auth/register] with an email that [toLowerCase] sends
    to the same string as the email of a stored user answers 400 "User
    already exists" and leaves the store as it was, whatever [toLowerCase]
    and [bcrypt.hash] return. *)
Theorem register_rejects_known_email (toLowerCase : string -> string)
  (bcrypt_hash : string -> string -> string) (s : MemStorage.t)
  (userData : InsertUser.t) (salt : string) (now : Timestamp) (uuid : string)
  (u : User.t) :
  In u (JsMap.values (MemStorage.users s)) ->
  toLowerCase (User.email u) = toLowerCase (InsertUser.email userData) ->
  post_register (storageEmail := MemStorage_IStorageEmail toLowerCase)
    bcrypt_hash (Some userData) salt now uuid s
  = (message 400 "User already exists", s).
Proof.
  intros Hin Heq. unfold post_register.
  cbn [getUserByEmail MemStorage_IStorageEmail].
  unfold bind at 1. unfold MemStorage.getUserByEmail at 1.
  destruct (find_exists
              (fun user => String.eqb (toLowerCase (User.email user))
                             (toLowerCase (InsertUser.email userData)))
              _ _ Hin) as [y Hy].
  - apply String.eqb_eq. exact Heq.
  - rewrite Hy. reflexivity.
Qed.

Lemma register_rejects_known_email_witness :
  let userData := InsertUser.mk "Demo@Example.COM" "secret" None None None None in
  let u := User.mk 1 "demo@example.com" "$2a$10$demohashedsecretpassword"
             (Some "John") (Some "Doe") (Some "Acme Inc.") (Some "pro")
             (Some "sc_demoapikeyrandomstring123456")
             "2024-01-01T00:00:00.000Z" None in
  In u (JsMap.values (MemStorage.users demo_store))
  /\ Js.toLowerCase (User.email u) = Js.toLowerCase (InsertUser.email userData)
  /\ post_register (storageEmail := MemStorage_IStorageEmail Js.toLowerCase)
       (fun p salt => (salt ++ p)%string) (Some userData) "salt"
       "2024-02-01T00:00:00.000Z" "3f2b8c1e-5d4a-4e6f-9a7b-0c1d2e3f4a5b"
       demo_store
     = (message 400 "User already exists", demo_store).
Proof.
  intros userData u.
  assert (Hin : In u (JsMap.values (MemStorage.users demo_store)))
    by (vm_compute; left; reflexivity).
  assert (Heq : Js.toLowerCase (User.email u)
                = Js.toLowerCase (InsertUser.email userData))
    by reflexivity.
  split; [exact Hin|]. split; [exact Heq|].
  exact (@register_rejects_known_email Js.toLowerCase
           (fun p salt => (salt ++ p)%string)
           demo_store userData "salt" "2024-02-01T00:00:00.000Z"
           "3f2b8c1e-5d4a-4e6f-9a7b-0c1d2e3f4a5b" u Hin Heq).
Defined.

(** X10.  In a store that satisfies the invariant, registering an email
    that [toLowerCase] sends to another string than the email of every
    stored user answers 201 with the new user without its password; the
    user is stored under an unused identifier, and its password field is
    what [bcrypt.hash] returned for the password and the salt; and a login
    afterwards with any email that [toLowerCase] sends to the same string as
    the registered one is answered 200 with that user exactly when
    [bcrypt.compare] accepts the offered password for the stored field, and
    401 "Invalid credentials" otherwise, without writing.  This holds
    whatever [toLowerCase], [bcrypt.hash] and [bcrypt.compare] return. *)
Theorem register_then_login (toLowerCase : string -> string)
  (bcrypt_hash : string -> string -> string)
  (bcrypt_compare : string -> string -> bool)
  (s : MemStorage.t) (userData : InsertUser.t) (salt : string)
  (now : Timestamp) (uuid : string) :
  StoreInv s ->
  (forall u, In u (JsMap.values (MemStorage.users s)) ->
     toLowerCase (User.email u) <> toLowerCase (InsertUser.email userData)) ->
  let r := post_register (storageEmail := MemStorage_IStorageEmail toLowerCase)
             bcrypt_hash (Some userData) salt now uuid s in
  exists user,
    fst r = json 201 (withoutPassword user)
    /\ User.id user = MemStorage.nextUserId s
    /\ JsMap.get (User.id user) (MemStorage.users s) = None
    /\ JsMap.get (User.id user) (MemStorage.users (snd r)) = Some user
    /\ User.email user = InsertUser.email userData
    /\ User.password user = bcrypt_hash (InsertUser.password userData) salt
    /\ (forall email password,
          email <> "" -> password <> "" ->
          toLowerCase email = toLowerCase (InsertUser.email userData) ->
          post_login (storageEmail := MemStorage_IStorageEmail toLowerCase)
            bcrypt_compare
            (LoginBody.mk (Some email) (Some password)) (snd r)
          = (if bcrypt_compare password
                  (bcrypt_hash (InsertUser.password userData) salt)
             then json 200 (withoutPassword user)
             else message 401 "Invalid credentials",
             snd r)).
Proof.
  intros Hinv Hnew. cbv zeta.
  pose proof (keys_ok_next_absent (inv_users Hinv)) as Hfresh.
  assert (Hnone : find (fun user =>
                          String.eqb (toLowerCase (User.email user))
                            (toLowerCase (InsertUser.email userData)))
                       (JsMap.values (MemStorage.users s)) = None).
  { apply find_all_false. apply Forall_forall. intros u Hin.
    apply String.eqb_neq. now apply Hnew. }
  unfold post_register.
  cbn [getUserByEmail createUser MemStorage_IStorageRest
       MemStorage_IStorageEmail].
  unfold bind, ret, MemStorage.getUserByEmail. rewrite Hnone.
  unfold MemStorage.createUser, hashPassword. store_simpl.
  cbn [InsertUser.email InsertUser.password InsertUser.firstName
       InsertUser.lastName InsertUser.company InsertUser.planType].
  eexists. split; [reflexivity|]. cbn [User.id User.email User.password].
  split; [reflexivity|]. split; [exact Hfresh|].
  split; [apply JsMapFacts.get_set_same|].
  split; [reflexivity|]. split; [reflexivity|].
  intros email password He Hp Hlow. unfold post_login.
  cbn [LoginBody.email LoginBody.password].
  replace (Js.not_str email || Js.not_str password) with false
    by (destruct email; [contradiction|]; destruct password;
        [contradiction | reflexivity]).
  cbn [getUserByEmail MemStorage_IStorageEmail].
  unfold bind, ret, MemStorage.getUserByEmail, verifyPassword. store_simpl.
  rewrite JsMapFacts.set_absent by exact Hfresh.
  unfold JsMap.values in *. rewrite map_app. cbn [map snd].
  rewrite Hlow.
  match goal with
  | |- context [find ?f (?l ++ [?x])] =>
      assert (Hf : find f (l ++ [x]) = Some x)
  end.
  { match goal with
    | |- find ?f (?l ++ [?x]) = _ =>
        revert Hnone; generalize l; intros l0 Hl0;
        induction l0 as [|z l0 IH]; simpl in *
    end.
    - now rewrite String.eqb_refl.
    - destruct (String.eqb (toLowerCase (User.email z))
                  (toLowerCase (InsertUser.email userData)));
        [discriminate | auto]. }
  rewrite Hf. cbn [User.password].
  now destruct (bcrypt_compare password
                  (bcrypt_hash (InsertUser.password userData) salt)).
Qed.

Lemma register_then_login_witness :
  let bcrypt_hash := fun p salt : string => (salt ++ p)%string in
  let bcrypt_compare := fun p h : string => String.eqb h ("salt" ++ p)%string in
  let userData := InsertUser.mk "New@Example.com" "secret" (Some "Ann") None
                    None None in
  let r := post_register
             (storageEmail := MemStorage_IStorageEmail Js.toLowerCase)
             bcrypt_hash (Some userData) "salt"
             "2024-02-01T00:00:00.000Z" "3f2b8c1e-5d4a-4e6f-9a7b-0c1d2e3f4a5b"
             demo_store in
  StoreInv demo_store
  /\ (forall u, In u (JsMap.values (MemStorage.users demo_store)) ->
        Js.toLowerCase (User.email u)
        <> Js.toLowerCase (InsertUser.email userData))
  /\ exists user,
       fst r = json 201 (withoutPassword user)
       /\ User.id user = MemStorage.nextUserId demo_store
       /\ JsMap.get (User.id user) (MemStorage.users demo_store) = None
       /\ JsMap.get (User.id user) (MemStorage.users (snd r)) = Some user
       /\ User.email user = InsertUser.email userData
       /\ User.password user = bcrypt_hash (InsertUser.password userData) "salt"
       /\ (forall email password,
             email <> "" -> password <> "" ->
             Js.toLowerCase email = Js.toLowerCase (InsertUser.email userData) ->
             post_login
               (storageEmail := MemStorage_IStorageEmail Js.toLowerCase)
               bcrypt_compare
               (LoginBody.mk (Some email) (Some password)) (snd r)
             = (if bcrypt_compare password
                     (bcrypt_hash (InsertUser.password userData) "salt")
                then json 200 (withoutPassword user)
                else message 401 "Invalid credentials",
                snd r)).
Proof.
  intros bcrypt_hash bcrypt_compare userData r.
  assert (Hnew : forall u, In u (JsMap.values (MemStorage.users demo_store)) ->
                   Js.toLowerCase (User.email u)
                   <> Js.toLowerCase (InsertUser.email userData))
    by (intros u [<-|[]]; vm_compute; discriminate).
  split; [exact StoreInv_demo_store|]. split; [exact Hnew|].
  exact (@register_then_login Js.toLowerCase bcrypt_hash bcrypt_compare
           demo_store userData
           "salt" "2024-02-01T00:00:00.000Z"
           "3f2b8c1e-5d4a-4e6f-9a7b-0c1d2e3f4a5b" StoreInv_demo_store Hnew).
Defined.

(** ** Conversations *)

(** X11.  [POST /api/conversation] does not look the contract up.  In a
    store that satisfies the invariant, a body that parses and names a
    contract identifier under which no contract is stored is answered 201
    with a conversation on that identifier, with the user and the messages
    of the body; afterwards [GET /api/contract/:id] still answers 404 for
    the identifier, while [GET /api/conversations/contract/:contractId]
    lists the new conversation for it, after those it listed before. *)
Theorem conversation_needs_no_contract (s : MemStorage.t)
  (conversationData : InsertConversation.t) (now : Timestamp) :
  StoreInv s ->
  JsMap.get (InsertConversation.contractId conversationData)
    (MemStorage.contracts s) = None ->
  let contractId := InsertConversation.contractId conversationData in
  let r := post_conversation (Some conversationData) now s in
  exists conversation,
    fst r = json 201 conversation
    /\ Conversation.contractId conversation = contractId
    /\ Conversation.userId conversation
       = InsertConversation.userId conversationData
    /\ Conversation.messages conversation
       = InsertConversation.messages conversationData
    /\ get_contract contractId (snd r)
       = (message 404 "Contract not found", snd r)
    /\ get_conversations_by_contract contractId (snd r)
       = (json 200
            (fst (MemStorage.getConversationsByContractId contractId s)
             ++ [conversation]),
          snd r).
Proof.
  intros Hinv Hnone. cbv zeta. eexists. split; [reflexivity|].
  unfold post_conversation, get_contract, get_conversations_by_contract.
  cbn [createConversation getContract getConversationsByContractId
       MemStorage_IStorage].
  unfold bind, ret, MemStorage.createConversation, MemStorage.getContract,
    MemStorage.getConversationsByContractId, JsMap.values.
  store_simpl. cbn [Conversation.contractId Conversation.userId
                    Conversation.messages].
  split; [reflexivity|]. split; [reflexivity|]. split; [reflexivity|].
  rewrite Hnone. split; [reflexivity|].
  rewrite JsMapFacts.set_absent
    by (eapply keys_ok_next_absent; apply (inv_conversations Hinv)).
  rewrite map_app. cbn [map snd]. rewrite filter_app_single.
  cbn [Conversation.contractId]. now rewrite Z.eqb_refl.
Qed.

Lemma conversation_needs_no_contract_witness :
  let conversationData := InsertConversation.mk 1 99 [] in
  let contractId := InsertConversation.contractId conversationData in
  let r := post_conversation (Some conversationData)
             "2024-01-02T08:00:00.000Z" demo_store in
  StoreInv demo_store
  /\ JsMap.get contractId (MemStorage.contracts demo_store) = None
  /\ exists conversation,
       fst r = json 201 conversation
       /\ Conversation.contractId conversation = contractId
       /\ Conversation.userId conversation
          = InsertConversation.userId conversationData
       /\ Conversation.messages conversation
          = InsertConversation.messages conversationData
       /\ get_contract contractId (snd r)
          = (message 404 "Contract not found", snd r)
       /\ get_conversations_by_contract contractId (snd r)
          = (json 200
               (fst (MemStorage.getConversationsByContractId contractId
                       demo_store)
                ++ [conversation]),
             snd r).
Proof.
  intros conversationData contractId r.
  assert (Hnone : JsMap.get contractId (MemStorage.contracts demo_store) = None)
    by (vm_compute; reflexivity).
  split; [exact StoreInv_demo_store|]. split; [exact Hnone|].
  exact (@conversation_needs_no_contract demo_store conversationData
           "2024-01-02T08:00:00.000Z" StoreInv_demo_store Hnone).
Defined.

Lemma list_pair_ind (A : Type) (P : list A -> Prop) :
  P [] -> (forall x, P [x]) -> (forall x y l, P l -> P (x :: y :: l)) ->
  forall l, P l.
Proof.
  intros H0 H1 H2 l.
  assert (H : P l /\ forall x, P (x :: l)).
  { induction l as [|y l [IH1 IH2]]; split; auto. }
  exact (proj1 H).
Qed.

Lemma alternates_app (l l' : list Message.t) :
  alternates l = true -> alternates (l ++ l') = alternates l'.
Proof.
  induction l as [|x|u a l IH] using list_pair_ind; simpl.
  - reflexivity.
  - discriminate.
  - destruct (Message.role u), (Message.role a); try discriminate. exact IH.
Qed.

Lemma asked_pairs_contract (c c' : Conversation.t) (asks : list (string * Draws.t)) :
  Conversation.contractId c' = Conversation.contractId c ->
  asked_pairs c' asks = asked_pairs c asks.
Proof.
  intros Hc. induction asks as [|[q d] asks IH]; simpl; [reflexivity|].
  unfold asked_pair. now rewrite Hc, IH.
Qed.

Lemma alternates_asked_pairs (c : Conversation.t) (asks : list (string * Draws.t)) :
  alternates (asked_pairs c asks) = true.
Proof.
  induction asks as [|[q d] asks IH]; simpl; auto.
Qed.

(** X12.  When the questions put one after the other to a stored
    conversation are all answered 200, the stored conversation then holds
    its former messages followed, in the order of the questions, by one user
    and one assistant message for each, so it has grown by twice the number
    of questions; it keeps its identifier, user, contract and creation
    time; and if the roles alternated before, starting with the user, they
    still do. *)
Theorem ask_all_appends (asks : list (string * Draws.t)) (s : MemStorage.t)
  (conversationId : Z) (conversation : Conversation.t) :
  JsMap.get conversationId (MemStorage.conversations s) = Some conversation ->
  let r := ask_all conversationId asks s in
  fst r = map (fun _ => 200) asks ->
  exists updated,
    JsMap.get conversationId (MemStorage.conversations (snd r)) = Some updated
    /\ Conversation.messages updated
       = Conversation.messages conversation ++ asked_pairs conversation asks
    /\ List.length (Conversation.messages updated)
       = (List.length (Conversation.messages conversation)
          + 2 * List.length asks)%nat
    /\ Conversation.id updated = Conversation.id conversation
    /\ Conversation.userId updated = Conversation.userId conversation
    /\ Conversation.contractId updated = Conversation.contractId conversation
    /\ Conversation.createdAt updated = Conversation.createdAt conversation
    /\ (alternates (Conversation.messages conversation) = true ->
        alternates (Conversation.messages updated) = true).
Proof.
  revert s conversation.
  induction asks as [|[question draws] asks IH]; intros s conversation Hg;
    cbv zeta.
  - intros _. cbn. exists conversation.
    rewrite app_nil_r, Nat.add_0_r. repeat split; auto.
  - cbn [ask_all].
    destruct (post_conversation_message conversationId
                (QuestionBody.mk (Some question)) draws s) as [resp s1] eqn:Hrun.
    assert (Hrun' := Hrun). revert Hrun'.
    unfold post_conversation_message. cbn [QuestionBody.question].
    destruct (Js.not_str question) eqn:Hq.
    { unfold ret. intros [= <- <-].
      destruct (ask_all conversationId asks s) as [statuses s2].
      cbn [fst status map]. discriminate. }
    cbn [getConversation updateConversation MemStorage_IStorage].
    unfold bind, ret, MemStorage.updateConversation, MemStorage.getConversation,
      bind, ret.
    rewrite Hg. cbv beta iota. rewrite Hg. intros [= <- <-].
    match goal with
    | |- context [ask_all conversationId asks ?st] => set (s1 := st) in *
    end.
    match type of Hrun with
    | _ = (json 200 (Some ?c), _) => set (c1 := c) in *
    end.
    assert (Hg1 : JsMap.get conversationId (MemStorage.conversations s1) = Some c1)
      by (subst s1; store_simpl; apply JsMapFacts.get_set_same).
    specialize (IH s1 c1 Hg1). cbv zeta in IH.
    destruct (ask_all conversationId asks s1) as [statuses s2].
    cbn [fst snd status map] in *. intros [= Hst].
    destruct (IH Hst) as (updated & Hg2 & Hm & Hlen & Hid & Hu & Hc & Hcr & Halt).
    exists updated.
    assert (Hc1 : Conversation.contractId c1 = Conversation.contractId conversation)
      by reflexivity.
    assert (Hm1 : Conversation.messages c1
                  = Conversation.messages conversation
                    ++ asked_pair conversation question draws)
      by (subst c1; cbn [Conversation.messages]; now rewrite <- app_assoc).
    split; [exact Hg2|]. split.
    { rewrite Hm, Hm1, (asked_pairs_contract _ _ asks Hc1).
      now rewrite <- app_assoc. }
    split.
    { rewrite Hlen, Hm1, length_app. cbn [asked_pair List.length]. lia. }
    split; [now rewrite Hid|]. split; [now rewrite Hu|].
    split; [now rewrite Hc|]. split; [now rewrite Hcr|].
    intros Ha. apply Halt. rewrite Hm1.
    now rewrite (alternates_app _ _ Ha).
Qed.

Lemma ask_all_appends_witness :
  let d := Draws.mk "k3j9x0q2a" "2024-01-02T09:00:00.000Z"
                    "p7m1z8w4c" "2024-01-02T09:00:01.000Z"
                    "2024-01-02T09:00:02.000Z" in
  let asks := [("When is the invoice due?", d); ("Who is liable?", d)] in
  let r := ask_all 1 asks demo_store in
  exists conversation,
    JsMap.get 1 (MemStorage.conversations demo_store) = Some conversation
    /\ fst r = map (fun _ => 200) asks
    /\ exists updated,
         JsMap.get 1 (MemStorage.conversations (snd r)) = Some updated
         /\ Conversation.messages updated
            = Conversation.messages conversation ++ asked_pairs conversation asks
         /\ List.length (Conversation.messages updated)
            = (List.length (Conversation.messages conversation)
               + 2 * List.length asks)%nat
         /\ Conversation.id updated = Conversation.id conversation
         /\ Conversation.userId updated = Conversation.userId conversation
         /\ Conversation.contractId updated
            = Conversation.contractId conversation
         /\ Conversation.createdAt updated = Conversation.createdAt conversation
         /\ (alternates (Conversation.messages conversation) = true ->
             alternates (Conversation.messages updated) = true).
Proof.
  intros d asks r.
  destruct (JsMap.get 1 (MemStorage.conversations demo_store))
    as [conversation|] eqn:Hg; [|vm_compute in Hg; discriminate].
  assert (Hst : fst (ask_all 1 asks demo_store) = map (fun _ => 200) asks)
    by (vm_compute; reflexivity).
  exists conversation. split; [reflexivity|]. split; [exact Hst|].
  exact (@ask_all_appends asks demo_store 1 conversation Hg Hst).
Defined.

(** ** Analyses *)

Lemma find_app_last (A : Type) (f : A -> bool) (l : list A) (x : A) :
  find f l = None -> f x = true -> find f (l ++ [x]) = Some x.
Proof.
  induction l as [|y l IH]; simpl; intros Hn Hx; [now rewrite Hx|].
  destruct (f y); [discriminate | auto].
Qed.

(** X13.  When a contract has no analysis yet, the analysis that a
    successful analyze request creates is the one that
    [GET /api/analysis/contract/:contractId] returns afterwards. *)
Theorem first_analysis_is_read_back (s s' : MemStorage.t)
  (body : AnalyzeBody.t) (a : Analysis.t) :
  wf s ->
  post_analyze_contract body s = (json 200 a, s') ->
  fst (MemStorage.getAnalysisByContractId (Analysis.contractId a) s) = None ->
  get_analysis_by_contract (Analysis.contractId a) s' = (json 200 a, s').
Proof.
  intros Hwf Hrun Hnone.
  destruct (post_analyze_contract_inv _ _ Hrun)
    as (cid & text & contract & Hc & Hc0 & Ht & Ht0 & Hg).
  rewrite (post_analyze_contract_ok _ Hwf Hc Hc0 Ht Ht0 Hg) in Hrun.
  injection Hrun as <- <-.
  unfold get_analysis_by_contract.
  cbn [getAnalysisByContractId MemStorage_IStorage].
  unfold bind, ret, MemStorage.getAnalysisByContractId, JsMap.values in *.
  cbn [fst store_after_analyze MemStorage.analyses Analysis.contractId
       created_analysis] in *.
  rewrite map_app. cbn [map snd].
  rewrite find_app_last; [reflexivity | exact Hnone |].
  cbn [Analysis.contractId]. apply Z.eqb_refl.
Qed.

Lemma first_analysis_is_read_back_witness :
  let c := InsertContract.mk 1 "Lease" "pdf" "Lease text" (Some "Lease") "medium" in
  let s := snd (MemStorage.createContract c "2024-02-01T00:00:00.000Z" demo_store) in
  let body := AnalyzeBody.mk (Some 5) (Some "Payment is due monthly.") None in
  let a := created_analysis s 5 (analyzeContract "Payment is due monthly." "") in
  let s' := snd (post_analyze_contract body s) in
  wf s
  /\ post_analyze_contract body s = (json 200 a, s')
  /\ fst (MemStorage.getAnalysisByContractId (Analysis.contractId a) s) = None
  /\ get_analysis_by_contract (Analysis.contractId a) s' = (json 200 a, s').
Proof.
  intros c s body a s'.
  assert (Hwf : wf s) by (apply wf_createContract, wf_constructor).
  assert (Hrun : post_analyze_contract body s = (json 200 a, s'))
    by (vm_compute; reflexivity).
  assert (Hnone : fst (MemStorage.getAnalysisByContractId
                         (Analysis.contractId a) s) = None)
    by (vm_compute; reflexivity).
  split; [exact Hwf|]. split; [exact Hrun|]. split; [exact Hnone|].
  exact (@first_analysis_is_read_back s s' body a Hwf Hrun Hnone).
Defined.

(** X14.  For an analysis that the analyze route created from a store
    satisfying the invariant, every risky clause that
    [GET /api/risky-clauses/analysis/:analysisId] returns belongs to that
    analysis, has a clause index that the analysis flags, and is the mock
    clause of index 0 at HIGH or of index 3 at MEDIUM; clauses are stored
    exactly when the document level is HIGH, and then both of them. *)
Theorem stored_clauses_are_flagged (s s' : MemStorage.t)
  (body : AnalyzeBody.t) (a : Analysis.t) :
  wf s ->
  post_analyze_contract body s = (json 200 a, s') ->
  exists clauses,
    get_risky_clauses (Analysis.id a) s' = (json 200 clauses, s')
    /\ Forall (fun c =>
                 RiskyClause.analysisId c = Analysis.id a
                 /\ In (RiskyClause.clauseIndex c) (Analysis.riskyClauseIndices a)
                 /\ ((RiskyClause.clauseIndex c = 0
                      /\ RiskyClause.riskLevel c = RiskLevel.HIGH)
                     \/ (RiskyClause.clauseIndex c = 3
                         /\ RiskyClause.riskLevel c = RiskLevel.MEDIUM)))
              clauses
    /\ map RiskyClause.clauseIndex clauses
       = match FullAnalysis.riskLevel (Analysis.fullAnalysis a) with
         | RiskLevel.HIGH => [0; 3]
         | _ => []
         end.
Proof.
  intros Hwf Hrun.
  destruct (post_analyze_contract_inv _ _ Hrun)
    as (cid & text & contract & Hc & Hc0 & Ht & Ht0 & Hg).
  rewrite (post_analyze_contract_ok _ Hwf Hc Hc0 Ht Ht0 Hg) in Hrun.
  injection Hrun as <- <-.
  match goal with
  | |- exists _, get_risky_clauses ?i ?st = _ /\ _ =>
      exists (fst (MemStorage.getRiskyClausesByAnalysisId i st))
  end.
  split; [reflexivity|]. cbn [Analysis.id created_analysis].
  rewrite stored_clauses_after_analyze by exact Hwf.
  cbn [Analysis.riskyClauseIndices Analysis.fullAnalysis created_analysis].
  unfold analyzeContract.
  destruct (hasHighRisk text); [|destruct (hasMediumRisk text)]; cbn.
  - split; [|reflexivity]. constructor; [|constructor; [|constructor]].
    + split; [reflexivity|]. split; [now left|]. left. now split.
    + split; [reflexivity|]. split; [right; now left|]. right. now split.
  - split; [constructor | reflexivity].
  - split; [constructor | reflexivity].
Qed.

Lemma stored_clauses_are_flagged_witness :
  let body := AnalyzeBody.mk (Some 2) (Some scenario_text) (Some "NDA") in
  let a := created_analysis demo_store 2 (analyzeContract scenario_text "NDA") in
  let s' := snd (post_analyze_contract body demo_store) in
  wf demo_store
  /\ post_analyze_contract body demo_store = (json 200 a, s')
  /\ exists clauses,
       get_risky_clauses (Analysis.id a) s' = (json 200 clauses, s')
       /\ Forall (fun c =>
                    RiskyClause.analysisId c = Analysis.id a
                    /\ In (RiskyClause.clauseIndex c)
                          (Analysis.riskyClauseIndices a)
                    /\ ((RiskyClause.clauseIndex c = 0
                         /\ RiskyClause.riskLevel c = RiskLevel.HIGH)
                        \/ (RiskyClause.clauseIndex c = 3
                            /\ RiskyClause.riskLevel c = RiskLevel.MEDIUM)))
                 clauses
       /\ map RiskyClause.clauseIndex clauses
          = match FullAnalysis.riskLevel (Analysis.fullAnalysis a) with
            | RiskLevel.HIGH => [0; 3]
            | _ => []
            end.
Proof.
  intros body a s'.
  assert (Hwf : wf demo_store) by apply wf_constructor.
  assert (Hrun : post_analyze_contract body demo_store = (json 200 a, s'))
    by (vm_compute; reflexivity).
  split; [exact Hwf|]. split; [exact Hrun|].
  exact (@stored_clauses_are_flagged demo_store s' body a Hwf Hrun).
Defined.

(** X15.  Whatever the text and the contract type, the risky clause indices
    of the mock analysis are strictly ascending positions of its summary
    list, they are empty exactly when the level is LOW, and the level in the
    full analysis is the risk score. *)
Theorem risky_indices_are_valid (text contractType : string) :
  let r := analyzeContract text contractType in
  StronglySorted Z.lt (AnalysisResult.riskyClauseIndices r)
  /\ Forall (fun i => 0 <= i < Z.of_nat (List.length (AnalysisResult.summary r)))
            (AnalysisResult.riskyClauseIndices r)
  /\ (AnalysisResult.riskyClauseIndices r = []
      <-> AnalysisResult.riskScore r = RiskLevel.LOW)
  /\ FullAnalysis.riskLevel (AnalysisResult.fullAnalysis r)
     = AnalysisResult.riskScore r.
Proof.
  unfold analyzeContract.
  destruct (hasHighRisk text); [|destruct (hasMediumRisk text)]; cbn;
    repeat split; try discriminate;
    repeat constructor; try lia; try reflexivity.
Qed.

(** ** Strings: extension, replacement, splitting *)

Module StringFacts.

Lemma append_nil_r (s : string) : (s ++ "")%string = s.
Proof. induction s as [|c s IH]; simpl; [reflexivity | now rewrite IH]. Qed.

Lemma append_assoc (a b c : string) :
  ((a ++ b) ++ c)%string = (a ++ (b ++ c))%string.
Proof. induction a as [|x a IH]; simpl; [reflexivity | now rewrite IH]. Qed.

Lemma length_append (a b : string) :
  String.length (a ++ b) = (String.length a + String.length b)%nat.
Proof. induction a as [|x a IH]; simpl; [reflexivity | now rewrite IH]. Qed.

Lemma toLowerCase_app (a b : string) :
  Js.toLowerCase (a ++ b) = (Js.toLowerCase a ++ Js.toLowerCase b)%string.
Proof. induction a as [|x a IH]; simpl; [reflexivity | now rewrite IH]. Qed.

(** A string that occurs in a text occurs in every text around it. *)
Lemma includes_extend (pre s post sub : string) :
  Js.includes s sub = true -> Js.includes (pre ++ s ++ post) sub = true.
Proof.
  rewrite !JsFacts.includes_iff. intros (a & b & ->).
  exists (pre ++ a)%string, (b ++ post)%string.
  now rewrite !append_assoc.
Qed.

Lemma includes_lower_extend (pre s post sub : string) :
  Js.includes (Js.toLowerCase s) sub = true ->
  Js.includes (Js.toLowerCase (pre ++ s ++ post)) sub = true.
Proof.
  intros H. rewrite !toLowerCase_app. now apply includes_extend.
Qed.

Lemma is_ascii_app (a b : string) :
  Js.is_ascii (a ++ b) = Js.is_ascii a && Js.is_ascii b.
Proof.
  induction a as [|x a IH]; simpl; [reflexivity|].
  now rewrite IH, andb_assoc.
Qed.

End StringFacts.

(** X16.  Text around a contract never lowers its risk level: the level of
    a text that contains another text is at least the level of the text it
    contains, whatever the contract types. *)
Theorem risk_level_is_monotone (pre text post contractType contractType' : string) :
  (RiskLevel.rank (AnalysisResult.riskScore (analyzeContract text contractType))
   <= RiskLevel.rank
        (AnalysisResult.riskScore
           (analyzeContract (pre ++ text ++ post) contractType')))%nat.
Proof.
  rewrite !analyzeContract_riskScore. unfold hasHighRisk, hasMediumRisk.
  repeat match goal with
         | |- context [Js.includes (Js.toLowerCase text) ?k] =>
             let H := fresh "H" in
             pose proof (@StringFacts.includes_lower_extend pre text post k) as H;
             destruct (Js.includes (Js.toLowerCase text) k);
             [rewrite (H eq_refl); clear H | clear H]
         end;
    repeat (cbn [orb RiskLevel.rank];
            match goal with
            | |- context [Js.includes ?x ?k] => destruct (Js.includes x k)
            end);
    cbn [orb RiskLevel.rank]; lia.
Qed.

(** X17.  On ASCII text, where the native [toLowerCase] folds the letters
    [A]..[Z] and nothing else, text around a summary point never lowers its
    display status on the analyzer page, in the order success, warning,
    danger. *)
Theorem point_status_is_monotone (toLowerCase : string -> string)
  (pre point post : string) :
  (forall s, Js.is_ascii s = true -> toLowerCase s = Js.toLowerCase s) ->
  Js.is_ascii pre = true ->
  Js.is_ascii point = true ->
  Js.is_ascii post = true ->
  (Client.severity (Client.pointStatus toLowerCase point)
   <= Client.severity
        (Client.pointStatus toLowerCase (pre ++ point ++ post)))%nat.
Proof.
  intros Hlower Hpre Hpoint Hpost. unfold Client.pointStatus.
  rewrite (Hlower point Hpoint).
  rewrite (Hlower (pre ++ point ++ post)%string)
    by (rewrite !StringFacts.is_ascii_app, Hpre, Hpoint, Hpost; reflexivity).
  repeat match goal with
         | |- context [Js.includes (Js.toLowerCase point) ?k] =>
             let H := fresh "H" in
             pose proof (@StringFacts.includes_lower_extend pre point post k) as H;
             destruct (Js.includes (Js.toLowerCase point) k);
             [rewrite (H eq_refl); clear H | clear H]
         end;
    repeat (cbn [orb Client.severity];
            match goal with
            | |- context [Js.includes ?x ?k] => destruct (Js.includes x k)
            end);
    cbn [orb Client.severity]; lia.
Qed.

Lemma point_status_is_monotone_witness :
  let pre := "Note: " in
  let point := "Consider the liability cap" in
  let post := " - a risk for the supplier." in
  (forall s, Js.is_ascii s = true -> Js.toLowerCase s = Js.toLowerCase s)
  /\ Js.is_ascii pre = true
  /\ Js.is_ascii point = true
  /\ Js.is_ascii post = true
  /\ Client.pointStatus Js.toLowerCase point = Client.warning
  /\ Client.pointStatus Js.toLowerCase (pre ++ point ++ post) = Client.danger
  /\ (Client.severity (Client.pointStatus Js.toLowerCase point)
      <= Client.severity
           (Client.pointStatus Js.toLowerCase (pre ++ point ++ post)))%nat.
Proof.
  intros pre point post.
  assert (Hlower : forall s, Js.is_ascii s = true ->
                     Js.toLowerCase s = Js.toLowerCase s)
    by reflexivity.
  assert (Hpre : Js.is_ascii pre = true) by reflexivity.
  assert (Hpoint : Js.is_ascii point = true) by reflexivity.
  assert (Hpost : Js.is_ascii post = true) by reflexivity.
  split; [exact Hlower|]. split; [exact Hpre|]. split; [exact Hpoint|].
  split; [exact Hpost|]. split; [reflexivity|]. split; [reflexivity|].
  exact (@point_status_is_monotone Js.toLowerCase pre point post
           Hlower Hpre Hpoint Hpost).
Defined.

(** ** Replacement *)

Section Replace.
Variables (pat rep' : string) (r : ascii).
Let rep : string := String r rep'.

Lemma replace_from_0 (c : ascii) (s : string) :
  Js.replace_from pat rep 0 (String c s)
  = if String.prefix pat (String c s)
    then (rep ++ Js.replace_from pat rep (String.length pat - 1) s)%string
    else String c (Js.replace_from pat rep 0 s).
Proof. reflexivity. Qed.

Lemma prefix_cons (a c : ascii) (q s : string) :
  String.prefix (String a q) (String c s)
  = if Ascii.eqb a c then String.prefix q s else false.
Proof.
  simpl. destruct (ascii_dec a c) as [->|Hne].
  - now rewrite Ascii.eqb_refl.
  - apply Ascii.eqb_neq in Hne. now rewrite Hne.
Qed.

Lemma prefix_nil_l (s : string) : String.prefix "" s = true.
Proof. now destruct s. Qed.

Lemma prefix_nil_r (a : ascii) (q : string) : String.prefix (String a q) "" = false.
Proof. reflexivity. Qed.

(** A string without the first character of the replacement that begins the
    output begins the input: copied characters are the input's. *)
Lemma prefix_replaced (q s : string) :
  char_in r q = false ->
  String.prefix q (Js.replace_from pat rep 0 s) = true ->
  String.prefix q s = true.
Proof.
  revert q. induction s as [|c s IH]; intros q Hr.
  - simpl. now destruct q.
  - rewrite replace_from_0.
    destruct q as [|a q]; [intros _; apply prefix_nil_l|].
    simpl in Hr. apply orb_false_elim in Hr. destruct Hr as [Hra Hrq].
    destruct (String.prefix pat (String c s)).
    + unfold rep. cbn [append]. rewrite prefix_cons.
      rewrite Ascii.eqb_sym, Hra. discriminate.
    + rewrite !prefix_cons. destruct (Ascii.eqb a c); [|discriminate].
      now apply IH.
Qed.

(** Nothing that starts with a character foreign to the replacement occurs
    across the replacement into a text free of it. *)
Lemma includes_after (x t q' : string) (f : ascii) :
  char_in f x = false ->
  Js.includes t (String f q') = false ->
  Js.includes (x ++ t) (String f q') = false.
Proof.
  intros Hx Ht. induction x as [|a x IH]; [exact Ht|].
  simpl in Hx. apply orb_false_elim in Hx. destruct Hx as [Hfa Hfx].
  cbn [append]. rewrite JsFacts.includes_unfold, prefix_cons, Hfa.
  now apply IH.
Qed.

(** The replacement introduces no occurrence of a string [q] that the input
    is free of, when [q] does not start inside the replacement and the
    replacement does not start inside [q]. *)
Lemma replace_avoids (f : ascii) (q' : string) :
  char_in f rep = false ->
  char_in r (String f q') = false ->
  forall s k,
    Js.includes s (String f q') = false ->
    Js.includes (Js.replace_from pat rep k s) (String f q') = false.
Proof.
  intros Hf Hr. induction s as [|c s IH]; intros k Hs.
  - destruct k; exact Hs.
  - rewrite JsFacts.includes_unfold in Hs.
    destruct (String.prefix (String f q') (String c s)) eqn:Hp; [discriminate|].
    destruct k as [|k]; [|cbn [Js.replace_from]; now apply IH].
    rewrite JsFacts.includes_unfold.
    destruct (String.prefix (String f q') (Js.replace_from pat rep 0 (String c s)))
      eqn:Hp'.
    { apply prefix_replaced in Hp'; [congruence | exact Hr]. }
    rewrite replace_from_0.
    destruct (String.prefix pat (String c s)).
    + unfold rep at 1. cbn [append]. apply includes_after.
      * unfold rep in Hf. simpl in Hf. now apply orb_false_elim in Hf.
      * now apply IH.
    + now apply IH.
Qed.

(** After the replacement the pattern does not occur, when the pattern does
    not start inside the replacement and the replacement does not start
    inside the pattern. *)
Lemma replace_clean (f : ascii) (p' : string) :
  pat = String f p' ->
  char_in f rep = false ->
  char_in r pat = false ->
  forall s k, Js.includes (Js.replace_from pat rep k s) pat = false.
Proof.
  intros Hpat Hf Hr. induction s as [|c s IH]; intros k.
  - destruct k; cbn [Js.replace_from]; rewrite Hpat; reflexivity.
  - destruct k as [|k]; [|cbn [Js.replace_from]; apply IH].
    destruct (String.prefix pat (String c s)) eqn:Hm.
    + rewrite replace_from_0, Hm. rewrite Hpat at 3. apply includes_after.
      * exact Hf.
      * rewrite <- Hpat. apply IH.
    + assert (Hp : String.prefix pat (Js.replace_from pat rep 0 (String c s))
                   = false).
      { destruct (String.prefix pat (Js.replace_from pat rep 0 (String c s)))
          eqn:Hp'; [|reflexivity].
        apply prefix_replaced in Hp'; [congruence | exact Hr]. }
      rewrite JsFacts.includes_unfold, Hp.
      rewrite replace_from_0, Hm. apply IH.
Qed.

End Replace.

Lemma friendly_rewrite_clean (template : string) :
  let clause := Js.replaceAll "hereinafter" "below"
                  (Js.replaceAll "shall" "will" template) in
  Js.includes clause "shall" = false
  /\ Js.includes clause "hereinafter" = false.
Proof.
  unfold Js.replaceAll. split.
  - apply (@replace_avoids "hereinafter" "elow" "b" "s" "hall");
      [reflexivity | reflexivity |].
    now apply (@replace_clean "shall" "ill" "w" "s" "hall").
  - now apply (@replace_clean "hereinafter" "elow" "b" "h" "ereinafter").
Qed.

Lemma aggressive_rewrite_clean (template : string) :
  Js.includes (Js.replaceAll "reasonable" "strict"
                 (Js.replaceAll "may" "shall" template)) "may" = false.
Proof.
  unfold Js.replaceAll.
  apply (@replace_avoids "reasonable" "trict" "s" "m" "ay");
    [reflexivity | reflexivity |].
  now apply (@replace_clean "may" "hall" "s" "m" "ay").
Qed.

(** X18.  Whatever the clause type and the details, a clause generated in
    the friendly tone contains neither "shall" nor "hereinafter", and a
    clause generated in the aggressive tone does not contain "may" -- also
    inside the details that the caller supplied. *)
Theorem tone_replacements_are_complete (clauseType details : string) :
  Js.includes (generateClause clauseType "friendly" details) "shall" = false
  /\ Js.includes (generateClause clauseType "friendly" details) "hereinafter"
     = false
  /\ Js.includes (generateClause clauseType "aggressive" details) "may" = false.
Proof.
  unfold generateClause. cbv zeta.
  change (String.eqb "friendly" "friendly") with true.
  change (String.eqb "aggressive" "friendly") with false.
  change (String.eqb "aggressive" "aggressive") with true.
  cbv iota.
  split; [apply friendly_rewrite_clean|].
  split; [apply friendly_rewrite_clean | apply aggressive_rewrite_clean].
Qed.

(** ** Splitting a file name *)

Lemma split_not_nil (sep : ascii) (s : string) : Js.split sep s <> [].
Proof.
  destruct s as [|c s]; simpl; [discriminate|].
  destruct (Ascii.eqb c sep); [discriminate|].
  destruct (Js.split sep s); discriminate.
Qed.

(** [split] is the inverse of [join]: splitting a string at a character and
    joining the parts with that character gives the string back; no part
    contains the character, and there is always at least one part. *)
Lemma split_join_round_trip (sep : ascii) (s : string) :
  Js.join (String sep "") (Js.split sep s) = s
  /\ Forall (fun part => char_in sep part = false) (Js.split sep s)
  /\ Js.split sep s <> [].
Proof.
  split; [|split; [|apply split_not_nil]].
  - induction s as [|c s IH]; [reflexivity|].
    cbn [Js.split]. pose proof (split_not_nil sep s) as Hne.
    destruct (Ascii.eqb_spec c sep) as [->|Hc].
    + destruct (Js.split sep s) as [|h t]; [contradiction|].
      change (String sep (Js.join (String sep "") (h :: t)) = String sep s).
      now rewrite IH.
    + destruct (Js.split sep s) as [|h t]; [contradiction|].
      destruct t as [|h' t].
      * change (String c (Js.join (String sep "") [h]) = String c s).
        now rewrite IH.
      * change (String c (Js.join (String sep "") (h :: h' :: t))
                = String c s).
        now rewrite IH.
  - induction s as [|c s IH]; [repeat constructor|].
    cbn [Js.split]. pose proof (split_not_nil sep s) as Hne.
    destruct (Ascii.eqb_spec c sep) as [->|Hc].
    + constructor; [reflexivity | exact IH].
    + destruct (Js.split sep s) as [|h t]; [contradiction|].
      inversion IH as [|? ? Hh Ht]; subst. constructor; [|exact Ht].
      cbn [char_in]. rewrite Hh, Ascii.eqb_sym.
      apply Ascii.eqb_neq in Hc. now rewrite Hc.
Qed.

Lemma split_with_separator (sep : ascii) (ext : string) :
  char_in sep ext = false ->
  Js.split sep ext = [ext]
  /\ forall stem, exists h t,
       Js.split sep (stem ++ String sep ext)%string = h :: t ++ [ext].
Proof.
  intros Hext.
  assert (Hone : Js.split sep ext = [ext]).
  { induction ext as [|c e IH]; [reflexivity|].
    cbn [char_in] in Hext. apply Bool.orb_false_iff in Hext as [Hc He].
    cbn [Js.split]. rewrite Ascii.eqb_sym, Hc, (IH He). reflexivity. }
  split; [exact Hone|].
  induction stem as [|c stem [h [t IH]]].
  - exists EmptyString, []. cbn [append Js.split].
    now rewrite Ascii.eqb_refl, Hone.
  - cbn [append Js.split]. rewrite IH. destruct (Ascii.eqb c sep).
    + now exists EmptyString, (h :: t).
    + now exists (String c h), t.
Qed.

Lemma pop_last (h : string) (t : list string) (e : string) :
  Js.pop (h :: t ++ [e]) = Some e.
Proof.
  unfold Js.pop. cbn [rev]. rewrite rev_app_distr. reflexivity.
Qed.

(** X19.  The file type sent with an upload is what follows the last dot of
    the file name.  The fallback "txt" is taken only when nothing follows
    the last dot (or the name is empty): a name without any dot is its own
    file type. *)
Theorem file_type_is_last_extension (ext : string)
  (Hext : char_in "." ext = false) :
  (forall stem,
     Client.fileType (stem ++ "." ++ ext)%string
     = if String.eqb ext "" then "txt" else ext)
  /\ Client.fileType ext = if String.eqb ext "" then "txt" else ext.
Proof.
  destruct (split_with_separator "." ext Hext) as [Hone Hsplit].
  assert (Hpick : (match ext return option string with
                   | String c e => Some (String c e)
                   | EmptyString => None
                   end) = None -> String.eqb ext "" = true)
    by (destruct ext; [reflexivity | discriminate]).
  split.
  - intros stem. unfold Client.fileType. cbn [append].
    destruct (Hsplit stem) as [h [t ->]]. rewrite pop_last.
    destruct ext; reflexivity.
  - unfold Client.fileType. rewrite Hone. destruct ext; reflexivity.
Qed.

Lemma file_type_is_last_extension_witness :
  char_in "." "pdf" = false
  /\ Client.fileType "lease.v2.pdf" = "pdf"
  /\ Client.fileType "pdf" = "pdf".
Proof.
  assert (H : char_in "." "pdf" = false) by reflexivity.
  split; [exact H|].
  split.
  - exact (proj1 (@file_type_is_last_extension "pdf" H) "lease.v2").
  - exact (proj2 (@file_type_is_last_extension "pdf" H)).
Defined.

(** ** Truncating a text *)

Lemma substring0_length (n : nat) (s : string) :
  (n <= String.length s)%nat ->
  String.length (String.substring 0 n s) = n.
Proof.
  revert s. induction n as [|n IH]; intros [|c s] H; cbn in *;
    try lia; try reflexivity.
  now rewrite IH by lia.
Qed.

Lemma substring0_of_prefix (n : nat) (s rest : string) :
  (n <= String.length s)%nat ->
  String.substring 0 n (String.substring 0 n s ++ rest)
  = String.substring 0 n s.
Proof.
  revert s. induction n as [|n IH]; intros [|c s] H; cbn in *; try lia;
    try (destruct rest; reflexivity).
  now rewrite IH by lia.
Qed.

(** X20.  Truncating a text twice to the same length changes nothing more;
    a text longer than [maxLength] comes back [maxLength] characters long
    plus the three dots, so up to three characters longer than the
    limit. *)
Theorem truncate_text_is_idempotent (text : string) (maxLength : Z) :
  Client.truncateText (Client.truncateText text maxLength) maxLength
  = Client.truncateText text maxLength
  /\ Z.of_nat (String.length (Client.truncateText text maxLength))
     = if Z.leb (Z.of_nat (String.length text)) maxLength
       then Z.of_nat (String.length text)
       else Z.max 0 maxLength + 3.
Proof.
  unfold Client.truncateText at 2 3 4.
  destruct (Z.leb_spec (Z.of_nat (String.length text)) maxLength) as [Hle|Hgt].
  - split; [|reflexivity].
    unfold Client.truncateText.
    destruct (Z.leb_spec (Z.of_nat (String.length text)) maxLength); [|lia].
    reflexivity.
  - assert (Hn : (Z.to_nat maxLength <= String.length text)%nat) by lia.
    assert (Hlen : Z.of_nat (String.length
                     (Js.substring0 maxLength text ++ "...")%string)
                   = Z.max 0 maxLength + 3).
    { unfold Js.substring0.
      rewrite StringFacts.length_append, (substring0_length _ Hn). cbn. lia. }
    split; [|exact Hlen].
    unfold Client.truncateText. rewrite Hlen.
    destruct (Z.leb_spec (Z.max 0 maxLength + 3) maxLength); [lia|].
    unfold Js.substring0. now rewrite substring0_of_prefix by exact Hn.
Qed.

(** ** The API key of a new user *)

Lemma remove_char_leaves_none (c : ascii) (s : string) :
  char_in c (Js.replaceAll (String c "") "" s) = false.
Proof.
  unfold Js.replaceAll. induction s as [|a s IH]; [reflexivity|].
  cbn [Js.replace_from String.prefix String.length Nat.sub].
  destruct (Ascii.eqb_spec c a) as [->|Hne].
  - destruct (ascii_dec a a) as [_|Hn]; [|now elim Hn].
    destruct s; cbn [append]; exact IH.
  - destruct (ascii_dec c a) as [He|_]; [now elim Hne|].
    cbn [char_in]. apply Ascii.eqb_neq in Hne. now rewrite Hne, IH.
Qed.

(** X21.  The API key of a created user is "sc_" followed by the characters
    of the generated uuid without its dashes: the key holds no dash after
    the prefix. *)
Theorem api_key_has_no_dash (insertUser : InsertUser.t) (now : Timestamp)
  (uuid : string) (s : MemStorage.t) :
  exists key,
    User.apiKey (fst (MemStorage.createUser insertUser now uuid s))
    = Some ("sc_" ++ key)%string
    /\ char_in "-" key = false
    /\ (String.length key <= String.length uuid)%nat.
Proof.
  exists (Js.replaceAll "-" "" uuid). split; [reflexivity|].
  split; [apply remove_char_leaves_none|].
  unfold Js.replaceAll. induction uuid as [|a u IH]; [apply le_n|].
  cbn [Js.replace_from String.prefix String.length Nat.sub].
  destruct (ascii_dec "-" a) as [_|_].
  - replace (String.prefix "" u) with true by (destruct u; reflexivity).
    cbn [append]. lia.
  - cbn [String.length]. lia.
Qed.

(** ** The stores that the analyze route passes through *)

Lemma logged_forEach_store_if_flagged (analysis : Analysis.t)
  (indices : list Z) (l : list ClauseInfo.t) (s : MemStorage.t)
  (log : list MemStorage.t) :
  forEach l (store_if_flagged analysis indices) (s, log)
  = (tt, (snd (forEach l (store_if_flagged analysis indices) s),
          log ++ clause_writes analysis
                   (filter (fun clauseInfo =>
                              Js.arr_includes indices
                                (ClauseInfo.clauseIndex clauseInfo)) l) s)).
Proof.
  revert s log. induction l as [|clauseInfo l IH]; intros s log.
  - cbn. unfold ret. now rewrite app_nil_r.
  - cbn [forEach filter]. unfold bind, store_if_flagged at 1 3.
    destruct (Js.arr_includes indices (ClauseInfo.clauseIndex clauseInfo)).
    + cbn [createRiskyClause MemStorage_IStorage Logged_IStorage].
      unfold bind, ret, commit. cbn [fst snd].
      match goal with
      | |- context [MemStorage.createRiskyClause ?c s] =>
          destruct (MemStorage.createRiskyClause c s) as [clause s1] eqn:Hs1
      end.
      rewrite IH. cbn [clause_writes]. rewrite Hs1. cbn [snd].
      now rewrite <- app_assoc.
    + unfold ret. apply IH.
Qed.

Lemma logged_post_analyze_contract_cases (s : MemStorage.t)
  (body : AnalyzeBody.t) :
  (exists n t, post_analyze_contract body (s, []) = (message n t, (s, [])))
  \/ (exists contractId text contract,
        AnalyzeBody.contractId body = Some contractId /\ contractId <> 0 /\
        AnalyzeBody.text body = Some text /\ text <> "" /\
        JsMap.get contractId (MemStorage.contracts s) = Some contract).
Proof.
  unfold post_analyze_contract.
  destruct (AnalyzeBody.contractId body) as [contractId|];
    [|left; eexists _, _; reflexivity].
  destruct (AnalyzeBody.text body) as [text|];
    [|left; eexists _, _; reflexivity].
  destruct (Js.not_num contractId || Js.not_str text) eqn:G;
    [left; eexists _, _; reflexivity|].
  apply orb_false_elim in G. destruct G as [G1 G2].
  cbn [getContract MemStorage_IStorage Logged_IStorage]. unfold bind at 1.
  unfold observe at 1. unfold MemStorage.getContract at 1. cbn [fst snd].
  destruct (JsMap.get contractId (MemStorage.contracts s)) as [contract|] eqn:Hg;
    [|left; eexists _, _; reflexivity].
  right. exists contractId, text, contract. repeat split; auto.
  - intros ->. discriminate.
  - intros ->. discriminate.
Qed.

(** A successful analyze request answers and ends on the logging storage as
    on the plain one; its log is [analyze_writes]. *)
Lemma logged_post_analyze_contract_ok (s : MemStorage.t) (body : AnalyzeBody.t)
  (contractId : Z) (text : string) (contract : Contract.t) :
  AnalyzeBody.contractId body = Some contractId -> contractId <> 0 ->
  AnalyzeBody.text body = Some text -> text <> "" ->
  JsMap.get contractId (MemStorage.contracts s) = Some contract ->
  let r := analyzeContract text (Js.or_str (AnalyzeBody.contractType body) "") in
  post_analyze_contract body (s, [])
  = (fst (post_analyze_contract body s),
     (snd (post_analyze_contract body s),
      analyze_writes s contract contractId r)).
Proof.
  intros Hc Hne Ht Hte Hg. unfold post_analyze_contract, analyze_writes.
  rewrite Hc, Ht. cbv zeta.
  generalize (analyzeContract text (Js.or_str (AnalyzeBody.contractType body) "")).
  intros r.
  replace (Js.not_num contractId || Js.not_str text) with false.
  2:{ unfold Js.not_num. destruct (Z.eqb_spec contractId 0); [contradiction|].
      destruct text; [contradiction | reflexivity]. }
  cbn [getContract createAnalysis updateUser MemStorage_IStorage
       Logged_IStorage].
  unfold bind, observe, commit, ret, MemStorage.getContract.
  cbv beta iota delta [fst snd]. rewrite Hg.
  match goal with
  | |- context [MemStorage.createAnalysis ?ia s] =>
      destruct (MemStorage.createAnalysis ia s) as [analysis s1]
  end.
  cbv beta iota delta [fst snd]. cbn [app].
  match goal with
  | |- context [MemStorage.updateUser ?i ?d s1] =>
      destruct (MemStorage.updateUser i d s1) as [updated s2]
  end.
  cbv beta iota delta [fst snd]. cbn [app]. unfold flagged_clauses.
  destruct (0 <? List.length (AnalysisResult.riskyClauseIndices r))%nat.
  - rewrite logged_forEach_store_if_flagged. cbn [fst snd app].
    destruct (forEach mockRiskyClauses
                (store_if_flagged analysis
                   (AnalysisResult.riskyClauseIndices r)) s2) as [[] s3].
    reflexivity.
  - reflexivity.
Qed.

Lemma clause_writes_length (analysis : Analysis.t) (new : list ClauseInfo.t)
  (s : MemStorage.t) :
  List.length (clause_writes analysis new s) = List.length new.
Proof.
  revert s. induction new as [|c new IH]; intros s; cbn; [reflexivity|].
  now rewrite IH.
Qed.

Lemma number_clauses_length (analysisId next : Z) (l : list ClauseInfo.t) :
  List.length (number_clauses analysisId next l) = List.length l.
Proof.
  revert next. induction l as [|c l IH]; intros next; cbn; [reflexivity|].
  now rewrite IH.
Qed.

Lemma last_cons (A : Type) (l : list A) (a d : A) :
  last (a :: l) d = last l a.
Proof.
  revert a d. induction l as [|b l IH]; intros a d; [reflexivity|].
  change (last (a :: b :: l) d) with (last (b :: l) d).
  now rewrite (IH b d), (IH b a).
Qed.

Lemma clause_writes_last (analysis : Analysis.t) (indices : list Z)
  (l : list ClauseInfo.t) (s : MemStorage.t) :
  last (clause_writes analysis
          (filter (fun clauseInfo =>
                     Js.arr_includes indices (ClauseInfo.clauseIndex clauseInfo))
                  l) s) s
  = snd (forEach l (store_if_flagged analysis indices) s).
Proof.
  revert s. induction l as [|clauseInfo l IH]; intros s; [reflexivity|].
  cbn [forEach filter]. unfold bind, store_if_flagged at 1.
  destruct (Js.arr_includes indices (ClauseInfo.clauseIndex clauseInfo)).
  - cbn [createRiskyClause MemStorage_IStorage]. unfold bind, ret.
    cbn [clause_writes]. rewrite last_cons.
    match goal with
    | |- context [MemStorage.createRiskyClause ?c s] =>
        destruct (MemStorage.createRiskyClause c s) as [clause s1]
    end.
    cbn [snd]. apply IH.
  - unfold ret. apply IH.
Qed.

(** The last store that a successful analyze request passes through is the
    store it leaves. *)
Lemma analyze_writes_last (s : MemStorage.t) (body : AnalyzeBody.t)
  (contractId : Z) (text : string) (contract : Contract.t) :
  AnalyzeBody.contractId body = Some contractId -> contractId <> 0 ->
  AnalyzeBody.text body = Some text -> text <> "" ->
  JsMap.get contractId (MemStorage.contracts s) = Some contract ->
  let r := analyzeContract text (Js.or_str (AnalyzeBody.contractType body) "") in
  last (analyze_writes s contract contractId r) s
  = snd (post_analyze_contract body s).
Proof.
  intros Hc Hne Ht Hte Hg. unfold post_analyze_contract, analyze_writes.
  rewrite Hc, Ht. cbv zeta.
  generalize (analyzeContract text (Js.or_str (AnalyzeBody.contractType body) "")).
  intros r.
  replace (Js.not_num contractId || Js.not_str text) with false.
  2:{ unfold Js.not_num. destruct (Z.eqb_spec contractId 0); [contradiction|].
      destruct text; [contradiction | reflexivity]. }
  cbn [getContract createAnalysis updateUser MemStorage_IStorage].
  unfold bind, ret, MemStorage.getContract.
  cbv beta iota delta [fst snd]. rewrite Hg.
  match goal with
  | |- context [MemStorage.createAnalysis ?ia s] =>
      destruct (MemStorage.createAnalysis ia s) as [analysis s1]
  end.
  cbv beta iota delta [fst snd].
  match goal with
  | |- context [MemStorage.updateUser ?i ?d s1] =>
      destruct (MemStorage.updateUser i d s1) as [updated s2]
  end.
  cbv beta iota delta [fst snd]. unfold flagged_clauses.
  rewrite !last_cons.
  destruct (0 <? List.length (AnalysisResult.riskyClauseIndices r))%nat.
  - rewrite clause_writes_last.
    destruct (forEach mockRiskyClauses
                (store_if_flagged analysis
                   (AnalysisResult.riskyClauseIndices r)) s2) as [[] s3].
    reflexivity.
  - reflexivity.
Qed.

(** X22.  The analyze route stores the analysis first and its risky
    clauses afterwards, in separate writing calls.  A successful request run
    on the logging storage, from a store that satisfies the invariant,
    answers and ends as the plain run does; the store after its first
    writing call holds the new analysis and no risky clause for it; the
    writing calls after the first are one more than the risky clauses that
    the final store holds for the analysis (the [updateUser] call, which
    changes nothing when no user has the contract's identifier, and one
    [createRiskyClause] call for each clause); and the store after the last
    call is the final store. *)
Theorem analysis_is_stored_before_its_clauses (s final : MemStorage.t)
  (log : list MemStorage.t) (body : AnalyzeBody.t) (a : Analysis.t) :
  wf s ->
  post_analyze_contract body (s, []) = (json 200 a, (final, log)) ->
  post_analyze_contract body s = (json 200 a, final)
  /\ exists mid rest,
       log = mid :: rest
       /\ JsMap.get (Analysis.id a) (MemStorage.analyses mid) = Some a
       /\ fst (MemStorage.getRiskyClausesByAnalysisId (Analysis.id a) mid) = []
       /\ List.length rest
          = S (List.length
                 (fst (MemStorage.getRiskyClausesByAnalysisId
                         (Analysis.id a) final)))
       /\ last rest mid = final.
Proof.
  intros Hwf Hrun.
  destruct (logged_post_analyze_contract_cases s body)
    as [(n & t & Hfail) | (cid & text & contract & Hc & Hc0 & Ht & Ht0 & Hg)];
    [rewrite Hfail in Hrun; discriminate|].
  rewrite (@logged_post_analyze_contract_ok s body cid text contract
             Hc Hc0 Ht Ht0 Hg) in Hrun.
  pose proof (@analyze_writes_last s body cid text contract
                Hc Hc0 Ht Ht0 Hg) as Hlast.
  cbv zeta in Hlast.
  rewrite (post_analyze_contract_ok _ Hwf Hc Hc0 Ht Ht0 Hg) in *.
  cbn [fst snd] in Hrun, Hlast. injection Hrun as <- <- <-.
  split; [reflexivity|].
  set (r := analyzeContract text (Js.or_str (AnalyzeBody.contractType body) ""))
    in *.
  unfold analyze_writes in *. rewrite last_cons in Hlast.
  eexists _, _. split; [reflexivity|].
  cbn [Analysis.id created_analysis]. split; [|split; [|split]].
  - unfold MemStorage.createAnalysis.
    cbn [snd MemStorage.analyses MemStorage.with_analyses
         InsertAnalysis.contractId InsertAnalysis.summary
         InsertAnalysis.riskyClauseIndices InsertAnalysis.fullAnalysis].
    unfold MemStorage.with_analyses. cbn [MemStorage.analyses].
    apply JsMapFacts.get_set_same.
  - destruct Hwf as [_ Hr].
    unfold MemStorage.getRiskyClausesByAnalysisId, MemStorage.createAnalysis,
      MemStorage.with_analyses, JsMap.values.
    cbn [fst snd MemStorage.riskyClauses].
    induction Hr as [|kv m [_ Hlt] _ IH]; simpl; auto.
    destruct (Z.eqb_spec (RiskyClause.analysisId (snd kv))
                         (MemStorage.nextAnalysisId s)); [lia | exact IH].
  - rewrite (stored_clauses_after_analyze _ _ _ Hwf).
    cbn [List.length]. rewrite clause_writes_length.
    unfold JsMap.values. now rewrite length_map, number_clauses_length.
  - exact Hlast.
Qed.

Lemma analysis_is_stored_before_its_clauses_witness :
  let body := AnalyzeBody.mk (Some 1)
                (Some "Either party may seek termination.") None in
  let run := post_analyze_contract body (demo_store, []) in
  let a := created_analysis demo_store 1
             (analyzeContract "Either party may seek termination." "") in
  wf demo_store
  /\ run = (json 200 a, (fst (snd run), snd (snd run)))
  /\ List.length (snd (snd run)) = 4%nat
  /\ exists mid rest,
       snd (snd run) = mid :: rest
       /\ JsMap.get (Analysis.id a) (MemStorage.analyses mid) = Some a
       /\ fst (MemStorage.getRiskyClausesByAnalysisId (Analysis.id a) mid) = [].
Proof.
  intros body run a.
  assert (Hwf : wf demo_store) by apply wf_constructor.
  assert (Hrun : run = (json 200 a, (fst (snd run), snd (snd run))))
    by (vm_compute; reflexivity).
  split; [exact Hwf|]. split; [exact Hrun|].
  split; [vm_compute; reflexivity|].
  destruct (proj2 (@analysis_is_stored_before_its_clauses demo_store
                     (fst (snd run)) (snd (snd run)) body a Hwf Hrun))
    as (mid & rest & Hlog & Hget & Hnone & _).
  exists mid, rest. split; [exact Hlog|]. split; [exact Hget | exact Hnone].
Defined.
